(** * Nanopond: a shallow embedding of [nanopond.c]

    The pond, the pseudo-random generator, the access gate, the per-cell
    virtual machine, the scheduler tick and the report routine of
    [nanopond.c] are transcribed as executable definitions; the theorems
    that follow them relate the behaviour of these definitions to the
    written specification.

    Conventions.  [uintptr_t] and [uint64_t] are both 64 bits wide (the
    LP64 targets named in the Makefile); a machine word is a [Z] in
    [0, 2^64) and every operation that can leave that range is wrapped by
    [u64].  A C array is a [list Z]; reading or writing outside it, and
    shifting by an amount that is not below the word width, yields
    [Fault] instead of a value.  A pointer to a pond cell is the pair of
    its coordinates, and the pond is a total function on coordinates, so
    two pointers to one cell alias in the model exactly as in C. *)

From stdpp Require Import base numbers list list_numbers functions option.
From Stdlib Require Import ZArith Lia.

Open Scope Z_scope.

(* ----------------------------------------------------------------------- *)
(** ** Tunable parameters                                                    *)
(* ----------------------------------------------------------------------- *)

Definition REPORT_FREQUENCY : Z := 200000.
Definition MUTATION_RATE : Z := 5000.
Definition INFLOW_FREQUENCY : Z := 100.
Definition INFLOW_RATE_BASE : Z := 600.
Definition INFLOW_RATE_VARIATION : Z := 1000.
Definition POND_SIZE_X : Z := 800.
Definition POND_SIZE_Y : Z := 600.
Definition POND_DEPTH : Z := 1024.
Definition FAILED_KILL_PENALTY : Z := 3.

(** [sizeof(uintptr_t)] in bytes. *)
Definition sizeof_uintptr : Z := 8.

Definition POND_DEPTH_SYSWORDS : Z := POND_DEPTH / (sizeof_uintptr * 2).
Definition SYSWORD_BITS : Z := sizeof_uintptr * 8.

Definition N_LEFT : Z := 0.
Definition N_RIGHT : Z := 1.
Definition N_UP : Z := 2.
Definition N_DOWN : Z := 3.

Definition EXEC_START_WORD : Z := 0.
Definition EXEC_START_BIT : Z := 4.

(* ----------------------------------------------------------------------- *)
(** ** Machine words, arrays and the outcome of a computation                *)
(* ----------------------------------------------------------------------- *)

(** Truncation to 64 bits. *)
Definition u64 (z : Z) : Z := z mod 2 ^ 64.

(** [~((uintptr_t)0)] *)
Definition ALL_ONES : Z := u64 (Z.lnot 0).

(** C truth of an integer. *)
Definition nz (z : Z) : bool := negb (z =? 0).

Inductive outcome (A : Type) : Type :=
| Done (a : A)
| Fault
| Timeout.
Arguments Done {A} a.
Arguments Fault {A}.
Arguments Timeout {A}.

#[global] Instance outcome_ret : MRet outcome := fun A a => Done a.
#[global] Instance outcome_bind : MBind outcome := fun A B k m =>
  match m with
  | Done a => k a
  | Fault => Fault
  | Timeout => Timeout
  end.

(** [a[i]] as an rvalue. *)
Definition rd (a : list Z) (i : Z) : outcome Z :=
  if decide (0 ≤ i) then
    match a !! Z.to_nat i with
    | Some v => Done v
    | None => Fault
    end
  else Fault.

(** [a[i] = v] *)
Definition wr (a : list Z) (i : Z) (v : Z) : outcome (list Z) :=
  if decide (0 ≤ i < Z.of_nat (length a)) then Done (<[Z.to_nat i := v]> a)
  else Fault.

(** [a << s] and [a >> s] on a machine word. *)
Definition shl (a s : Z) : outcome Z :=
  if decide (0 ≤ s < SYSWORD_BITS) then Done (u64 (Z.shiftl a s)) else Fault.
Definition shr (a s : Z) : outcome Z :=
  if decide (0 ≤ s < SYSWORD_BITS) then Done (Z.shiftr a s) else Fault.

(** [(a[wi] >> si) & 0xf] *)
Definition get_codon (a : list Z) (wi si : Z) : outcome Z :=
  g ← rd a wi;
  s ← shr g si;
  Done (Z.land s 0xf).

(** The two statements
    [a[wi] &= ~(((uintptr_t)0xf) << si);  a[wi] |= val << si;] *)
Definition put_codon (a : list Z) (wi si val : Z) : outcome (list Z) :=
  g ← rd a wi;
  m ← shl 0xf si;
  a1 ← wr a wi (Z.land g (u64 (Z.lnot m)));
  g1 ← rd a1 wi;
  b ← shl val si;
  wr a1 wi (Z.lor g1 b).

(** Addition of two doubles that hold non-negative integers: the exact sum
    rounded to the nearest binary64 value, ties to even. *)
Definition dbl_round (n : Z) : Z :=
  if decide (n < 2 ^ 53) then n
  else
    let k := Z.log2 n - 52 in
    let q := n / 2 ^ k in
    let r := n mod 2 ^ k in
    let h := 2 ^ (k - 1) in
    if decide (r < h) then q * 2 ^ k
    else if decide (h < r) then (q + 1) * 2 ^ k
    else if Z.even q then q * 2 ^ k else (q + 1) * 2 ^ k.
Definition dbl_add (a b : Z) : Z := dbl_round (a + b).

(* ----------------------------------------------------------------------- *)
(** ** Pseudo-random generator                                               *)
(* ----------------------------------------------------------------------- *)

Definition prng : Type := Z * Z.

(** xorshift+ : the value returned and the new [prngState]. *)
Definition getRandom (st : prng) : Z * prng :=
  let x := st.1 in
  let y := st.2 in
  let x := Z.lxor x (u64 (Z.shiftl x 23)) in
  let z := Z.lxor (Z.lxor (Z.lxor x y) (Z.shiftr x 17)) (Z.shiftr y 26) in
  (u64 (z + y), (y, z)).

(* ----------------------------------------------------------------------- *)
(** ** Cells, the pond and the global state                                  *)
(* ----------------------------------------------------------------------- *)

Definition BITS_IN_FOURBIT_WORD : list Z :=
  [0; 1; 1; 2; 1; 2; 2; 3; 1; 2; 2; 3; 2; 3; 3; 4].

Record Cell : Type := mkCell {
  ID : Z;
  parentID : Z;
  lineage : Z;
  generation : Z;
  energy : Z;
  genome : list Z
}.

Definition set_ID (v : Z) (c : Cell) : Cell :=
  mkCell v (parentID c) (lineage c) (generation c) (energy c) (genome c).
Definition set_parentID (v : Z) (c : Cell) : Cell :=
  mkCell (ID c) v (lineage c) (generation c) (energy c) (genome c).
Definition set_lineage (v : Z) (c : Cell) : Cell :=
  mkCell (ID c) (parentID c) v (generation c) (energy c) (genome c).
Definition set_generation (v : Z) (c : Cell) : Cell :=
  mkCell (ID c) (parentID c) (lineage c) v (energy c) (genome c).
Definition set_energy (v : Z) (c : Cell) : Cell :=
  mkCell (ID c) (parentID c) (lineage c) (generation c) v (genome c).
Definition set_genome (g : list Z) (c : Cell) : Cell :=
  mkCell (ID c) (parentID c) (lineage c) (generation c) (energy c) g.

(** A pointer into the pond. *)
Definition cellptr : Type := Z * Z.

(** [pond[x][y]] *)
Abbreviation Pond := (cellptr → Cell).

Record StatCounters : Type := mkStats {
  instructionExecutions : list Z;
  cellExecutions : Z;
  viableCellsReplaced : Z;
  viableCellsKilled : Z;
  viableCellShares : Z
}.

(** One field of a report row, and the pieces of a row as [printf] emits
    them.  A [%.4f] field keeps the double it prints as the quotient it
    was computed from. *)
Inductive dval : Type :=
| DZero
| DQuot (num den : Z).

Inductive item : Type :=
| Sep
| Eol
| U64 (n : Z)
| F4 (d : dval).

Inductive event : Type :=
| Extinct
| Appeared.

(** All state that outlives one call of the virtual machine: the globals
    of the program, the static variable of [doReport] and the two output
    streams. *)
Record World : Type := mkWorld {
  pond : Pond;
  cellIdCounter : Z;
  prngState : prng;
  statCounters : StatCounters;
  lastTotalViableReplicators : Z;
  stdout : list item;
  stderr : list event
}.

Definition set_pond (p : Pond) (w : World) : World :=
  mkWorld p (cellIdCounter w) (prngState w) (statCounters w)
    (lastTotalViableReplicators w) (stdout w) (stderr w).
Definition set_cellIdCounter (c : Z) (w : World) : World :=
  mkWorld (pond w) c (prngState w) (statCounters w)
    (lastTotalViableReplicators w) (stdout w) (stderr w).
Definition set_prngState (st : prng) (w : World) : World :=
  mkWorld (pond w) (cellIdCounter w) st (statCounters w)
    (lastTotalViableReplicators w) (stdout w) (stderr w).
Definition set_statCounters (s : StatCounters) (w : World) : World :=
  mkWorld (pond w) (cellIdCounter w) (prngState w) s
    (lastTotalViableReplicators w) (stdout w) (stderr w).

(** [p->field = ...] for a cell pointer [p]. *)
Definition poke (f : Cell → Cell) (p : cellptr) (w : World) : World :=
  set_pond (alter f p (pond w)) w.

(** [getRandom()] on the global generator. *)
Definition draw (w : World) : Z * World :=
  let '(r, st) := getRandom (prngState w) in (r, set_prngState st w).

Definition getNeighbor (x y dir : Z) : cellptr :=
  match dir with
  | 0 => if nz x then (x - 1, y) else (POND_SIZE_X - 1, y)
  | 1 => if x <? POND_SIZE_X - 1 then (x + 1, y) else (0, y)
  | 2 => if nz y then (x, y - 1) else (x, POND_SIZE_Y - 1)
  | 3 => if y <? POND_SIZE_Y - 1 then (x, y + 1) else (x, 0)
  | _ => (x, y)
  end.

Definition accessAllowed (c2 : cellptr) (c1guess : Z) (sense : Z) (w : World)
  : outcome (bool * World) :=
  let '(r, w1) := draw w in
  g0 ← rd (genome (pond w c2)) 0;
  d ← rd BITS_IN_FOURBIT_WORD (Z.lxor (Z.land g0 0xf) (Z.land c1guess 0xf));
  Done (if nz sense
        then (d <=? Z.land r 0xf) || (parentID (pond w c2) =? 0)
        else (Z.land r 0xf <=? d) || (parentID (pond w c2) =? 0),
        w1).

(* ----------------------------------------------------------------------- *)
(** ** The virtual machine                                                   *)
(* ----------------------------------------------------------------------- *)

(** The locals of [run] that make up the state of the virtual machine.
    The coordinates [x], [y] of the executing cell do not change during an
    execution and are passed alongside. *)
Record VM : Type := mkVM {
  outputBuf : list Z;
  currentWord : Z;
  wordPtr : Z;
  shiftPtr : Z;
  ptr_wordPtr : Z;
  ptr_shiftPtr : Z;
  reg : Z;
  facing : Z;
  loopStack_wordPtr : list Z;
  loopStack_shiftPtr : list Z;
  loopStackPtr : Z;
  falseLoopDepth : Z;
  stop : Z
}.

Definition set_outputBuf (b : list Z) (v : VM) : VM :=
  mkVM b (currentWord v) (wordPtr v) (shiftPtr v) (ptr_wordPtr v)
    (ptr_shiftPtr v) (reg v) (facing v) (loopStack_wordPtr v)
    (loopStack_shiftPtr v) (loopStackPtr v) (falseLoopDepth v) (stop v).
Definition set_currentWord (c : Z) (v : VM) : VM :=
  mkVM (outputBuf v) c (wordPtr v) (shiftPtr v) (ptr_wordPtr v)
    (ptr_shiftPtr v) (reg v) (facing v) (loopStack_wordPtr v)
    (loopStack_shiftPtr v) (loopStackPtr v) (falseLoopDepth v) (stop v).
Definition set_cursor (wp sp : Z) (v : VM) : VM :=
  mkVM (outputBuf v) (currentWord v) wp sp (ptr_wordPtr v)
    (ptr_shiftPtr v) (reg v) (facing v) (loopStack_wordPtr v)
    (loopStack_shiftPtr v) (loopStackPtr v) (falseLoopDepth v) (stop v).
Definition set_ptr (wp sp : Z) (v : VM) : VM :=
  mkVM (outputBuf v) (currentWord v) (wordPtr v) (shiftPtr v) wp sp
    (reg v) (facing v) (loopStack_wordPtr v)
    (loopStack_shiftPtr v) (loopStackPtr v) (falseLoopDepth v) (stop v).
Definition set_reg (r : Z) (v : VM) : VM :=
  mkVM (outputBuf v) (currentWord v) (wordPtr v) (shiftPtr v) (ptr_wordPtr v)
    (ptr_shiftPtr v) r (facing v) (loopStack_wordPtr v)
    (loopStack_shiftPtr v) (loopStackPtr v) (falseLoopDepth v) (stop v).
Definition set_facing (f : Z) (v : VM) : VM :=
  mkVM (outputBuf v) (currentWord v) (wordPtr v) (shiftPtr v) (ptr_wordPtr v)
    (ptr_shiftPtr v) (reg v) f (loopStack_wordPtr v)
    (loopStack_shiftPtr v) (loopStackPtr v) (falseLoopDepth v) (stop v).
Definition set_loopStack (ws ss : list Z) (n : Z) (v : VM) : VM :=
  mkVM (outputBuf v) (currentWord v) (wordPtr v) (shiftPtr v) (ptr_wordPtr v)
    (ptr_shiftPtr v) (reg v) (facing v) ws ss n (falseLoopDepth v) (stop v).
Definition set_falseLoopDepth (d : Z) (v : VM) : VM :=
  mkVM (outputBuf v) (currentWord v) (wordPtr v) (shiftPtr v) (ptr_wordPtr v)
    (ptr_shiftPtr v) (reg v) (facing v) (loopStack_wordPtr v)
    (loopStack_shiftPtr v) (loopStackPtr v) d (stop v).
Definition set_stop (s : Z) (v : VM) : VM :=
  mkVM (outputBuf v) (currentWord v) (wordPtr v) (shiftPtr v) (ptr_wordPtr v)
    (ptr_shiftPtr v) (reg v) (facing v) (loopStack_wordPtr v)
    (loopStack_shiftPtr v) (loopStackPtr v) (falseLoopDepth v) s.

(** The cursor arithmetic shared by XCHG and by the advance at the end of
    the loop body: [if ((shiftPtr += 4) >= SYSWORD_BITS) { if (++wordPtr >=
    POND_DEPTH_SYSWORDS) { wordPtr = EXEC_START_WORD; shiftPtr =
    EXEC_START_BIT; } else shiftPtr = 0; }].  The boolean tells whether the
    outer branch was taken. *)
Definition bump_cursor (wp sp : Z) : Z * Z * bool :=
  let sp := u64 (sp + 4) in
  if SYSWORD_BITS <=? sp then
    let wp := u64 (wp + 1) in
    if POND_DEPTH_SYSWORDS <=? wp
    then (EXEC_START_WORD, EXEC_START_BIT, true)
    else (wp, 0, true)
  else (wp, sp, false).

(** Fetch of the next instruction and the random frob of either the
    instruction or the register. *)
Definition fetch_mutate (w : World) (v : VM) : outcome (Z * World * VM) :=
  s ← shr (currentWord v) (shiftPtr v);
  let inst := Z.land s 0xf in
  let '(r, w1) := draw w in
  if Z.land r 0xffffffff <? MUTATION_RATE then
    let '(tmp, w2) := draw w1 in
    if nz (Z.land tmp 0x80)
    then Done (Z.land tmp 0xf, w2, v)
    else Done (inst, w2, set_reg (Z.land tmp 0xf) v)
  else Done (inst, w1, v).

(** The KILL case of the switch. *)
Definition do_kill (x y : Z) (w : World) (v : VM) : outcome World :=
  let tmpptr := getNeighbor x y (facing v) in
  '(ok, w) ← accessAllowed tmpptr (reg v) 0 w;
  if ok : bool then
    let s := statCounters w in
    let w :=
      if 2 <? generation (pond w tmpptr)
      then set_statCounters
             (mkStats (instructionExecutions s) (cellExecutions s)
                (viableCellsReplaced s) (u64 (viableCellsKilled s + 1))
                (viableCellShares s)) w
      else w in
    g ← wr (genome (pond w tmpptr)) 0 ALL_ONES;
    let w := poke (set_genome g) tmpptr w in
    g ← wr (genome (pond w tmpptr)) 1 ALL_ONES;
    let w := poke (set_genome g) tmpptr w in
    let w := poke (set_ID (cellIdCounter w)) tmpptr w in
    let w := poke (set_parentID 0) tmpptr w in
    let w := poke (set_lineage (cellIdCounter w)) tmpptr w in
    let w := poke (set_generation 0) tmpptr w in
    Done (set_cellIdCounter (u64 (cellIdCounter w + 1)) w)
  else if 2 <? generation (pond w tmpptr) then
    let tmp := energy (pond w (x, y)) / FAILED_KILL_PENALTY in
    if tmp <? energy (pond w (x, y))
    then Done (poke (set_energy (u64 (energy (pond w (x, y)) - tmp))) (x, y) w)
    else Done (poke (set_energy 0) (x, y) w)
  else Done w.

(** The SHARE case of the switch. *)
Definition do_share (x y : Z) (w : World) (v : VM) : outcome World :=
  let tmpptr := getNeighbor x y (facing v) in
  '(ok, w) ← accessAllowed tmpptr (reg v) 1 w;
  if ok : bool then
    let s := statCounters w in
    let w :=
      if 2 <? generation (pond w tmpptr)
      then set_statCounters
             (mkStats (instructionExecutions s) (cellExecutions s)
                (viableCellsReplaced s) (viableCellsKilled s)
                (u64 (viableCellShares s + 1))) w
      else w in
    let tmp := u64 (energy (pond w (x, y)) + energy (pond w tmpptr)) in
    let w := poke (set_energy (tmp / 2)) tmpptr w in
    Done (poke (set_energy (u64 (tmp - energy (pond w tmpptr)))) (x, y) w)
  else Done w.

(** The [switch (inst)] of the loop body.  The boolean is [true] when the
    case ends in [continue], which skips the cursor advance. *)
Definition dispatch (x y inst : Z) (w : World) (v : VM)
  : outcome (World * VM * bool) :=
  match inst with
  | 0x0 => (* ZERO *)
      Done (w, set_facing 0 (set_ptr 0 0 (set_reg 0 v)), false)
  | 0x1 => (* FWD *)
      let sp := u64 (ptr_shiftPtr v + 4) in
      if SYSWORD_BITS <=? sp then
        let wp := u64 (ptr_wordPtr v + 1) in
        let wp := if POND_DEPTH_SYSWORDS <=? wp then 0 else wp in
        Done (w, set_ptr wp 0 v, false)
      else Done (w, set_ptr (ptr_wordPtr v) sp v, false)
  | 0x2 => (* BACK *)
      if nz (ptr_shiftPtr v) then
        Done (w, set_ptr (ptr_wordPtr v) (u64 (ptr_shiftPtr v - 4)) v, false)
      else
        let wp := if nz (ptr_wordPtr v) then u64 (ptr_wordPtr v - 1)
                  else POND_DEPTH_SYSWORDS - 1 in
        Done (w, set_ptr wp (SYSWORD_BITS - 4) v, false)
  | 0x3 => (* INC *)
      Done (w, set_reg (Z.land (u64 (reg v + 1)) 0xf) v, false)
  | 0x4 => (* DEC *)
      Done (w, set_reg (Z.land (u64 (reg v - 1)) 0xf) v, false)
  | 0x5 => (* READG *)
      c ← get_codon (genome (pond w (x, y))) (ptr_wordPtr v) (ptr_shiftPtr v);
      Done (w, set_reg c v, false)
  | 0x6 => (* WRITEG *)
      g ← put_codon (genome (pond w (x, y))) (ptr_wordPtr v) (ptr_shiftPtr v)
            (reg v);
      let w := poke (set_genome g) (x, y) w in
      cw ← rd (genome (pond w (x, y))) (wordPtr v);
      Done (w, set_currentWord cw v, false)
  | 0x7 => (* READB *)
      c ← get_codon (outputBuf v) (ptr_wordPtr v) (ptr_shiftPtr v);
      Done (w, set_reg c v, false)
  | 0x8 => (* WRITEB *)
      b ← put_codon (outputBuf v) (ptr_wordPtr v) (ptr_shiftPtr v) (reg v);
      Done (w, set_outputBuf b v, false)
  | 0x9 => (* LOOP *)
      if nz (reg v) then
        if POND_DEPTH <=? loopStackPtr v then Done (w, set_stop 1 v, false)
        else
          ws ← wr (loopStack_wordPtr v) (loopStackPtr v) (wordPtr v);
          ss ← wr (loopStack_shiftPtr v) (loopStackPtr v) (shiftPtr v);
          Done (w, set_loopStack ws ss (u64 (loopStackPtr v + 1)) v, false)
      else Done (w, set_falseLoopDepth 1 v, false)
  | 0xa => (* REP *)
      if nz (loopStackPtr v) then
        let v := set_loopStack (loopStack_wordPtr v) (loopStack_shiftPtr v)
                   (u64 (loopStackPtr v - 1)) v in
        if nz (reg v) then
          wp ← rd (loopStack_wordPtr v) (loopStackPtr v);
          sp ← rd (loopStack_shiftPtr v) (loopStackPtr v);
          cw ← rd (genome (pond w (x, y))) wp;
          Done (w, set_currentWord cw (set_cursor wp sp v), true)
        else Done (w, v, false)
      else Done (w, v, false)
  | 0xb => (* TURN *)
      Done (w, set_facing (Z.land (reg v) 3) v, false)
  | 0xc => (* XCHG *)
      let '(wp, sp, _) := bump_cursor (wordPtr v) (shiftPtr v) in
      let v := set_cursor wp sp v in
      let tmp := reg v in
      c ← get_codon (genome (pond w (x, y))) wp sp;
      let v := set_reg c v in
      g ← put_codon (genome (pond w (x, y))) wp sp tmp;
      let w := poke (set_genome g) (x, y) w in
      cw ← rd (genome (pond w (x, y))) wp;
      Done (w, set_currentWord cw v, false)
  | 0xd => (* KILL *)
      w ← do_kill x y w v;
      Done (w, v, false)
  | 0xe => (* SHARE *)
      w ← do_share x y w v;
      Done (w, v, false)
  | 0xf => (* STOP *)
      Done (w, set_stop 1 v, false)
  | _ => Done (w, v, false)
  end.

(** [statCounters.instructionExecutions[inst] += 1.0] *)
Definition count_instruction (inst : Z) (w : World) : outcome World :=
  let s := statCounters w in
  n ← rd (instructionExecutions s) inst;
  a ← wr (instructionExecutions s) inst (dbl_add n 1);
  Done (set_statCounters
          (mkStats a (cellExecutions s) (viableCellsReplaced s)
             (viableCellsKilled s) (viableCellShares s)) w).

(** The [if (falseLoopDepth) ... else ...] of the loop body. *)
Definition execute (x y inst : Z) (w : World) (v : VM)
  : outcome (World * VM * bool) :=
  if nz (falseLoopDepth v) then
    if inst =? 0x9 then
      Done (w, set_falseLoopDepth (u64 (falseLoopDepth v + 1)) v, false)
    else if inst =? 0xa then
      Done (w, set_falseLoopDepth (u64 (falseLoopDepth v - 1)) v, false)
    else Done (w, v, false)
  else
    w ← count_instruction inst w;
    dispatch x y inst w v.

(** The advance of the shift and word pointers that ends the loop body. *)
Definition advance (x y : Z) (w : World) (v : VM) : outcome VM :=
  let '(wp, sp, refresh) := bump_cursor (wordPtr v) (shiftPtr v) in
  let v := set_cursor wp sp v in
  if refresh then
    cw ← rd (genome (pond w (x, y))) wp;
    Done (set_currentWord cw v)
  else Done v.

(** One iteration of the core execution loop. *)
Definition step (x y : Z) (w : World) (v : VM) : outcome (World * VM) :=
  '(inst, w, v) ← fetch_mutate w v;
  let w := poke (fun c => set_energy (u64 (energy c - 1)) c) (x, y) w in
  '(w, v, continue) ← execute x y inst w v;
  if continue : bool then Done (w, v)
  else
    v ← advance x y w v;
    Done (w, v).

(** The loop condition [(pptr->energy) && (!stop)]. *)
Definition running (x y : Z) (w : World) (v : VM) : bool :=
  nz (energy (pond w (x, y))) && negb (nz (stop v)).

(** The core execution loop, with the number of iterations it made.
    [Timeout] when [fuel] iterations did not reach the exit. *)
Fixpoint exec_loop (fuel : nat) (x y : Z) (w : World) (v : VM)
  : outcome (World * VM * nat) :=
  if running x y w v then
    match fuel with
    | O => Timeout
    | S fuel =>
        '(w, v) ← step x y w v;
        '(w, v, n) ← exec_loop fuel x y w v;
        Done (w, v, S n)
    end
  else Done (w, v, O).

(** [n] iterations of the loop body, for as long as the loop condition
    holds. *)
Fixpoint iter_step (n : nat) (x y : Z) (w : World) (v : VM)
  : outcome (World * VM) :=
  match n with
  | O => Done (w, v)
  | S n =>
      if running x y w v then
        '(w, v) ← step x y w v;
        iter_step n x y w v
      else Done (w, v)
  end.

(* ----------------------------------------------------------------------- *)
(** ** The scheduler                                                         *)
(* ----------------------------------------------------------------------- *)

(** [for (...; ++i) a[i] = val;], [n] iterations from index [i]. *)
Fixpoint fill_words (n : nat) (i : Z) (val : Z) (a : list Z)
  : outcome (list Z) :=
  match n with
  | O => Done a
  | S n => a ← wr a i val; fill_words n (i + 1) val a
  end.

(** [for (...; ++i) p->genome[i] = getRandom();] *)
Fixpoint fill_random (n : nat) (i : Z) (p : cellptr) (w : World)
  : outcome World :=
  match n with
  | O => Done w
  | S n =>
      let '(r, w) := draw w in
      g ← wr (genome (pond w p)) i r;
      fill_random n (i + 1) p (poke (set_genome g) p w)
  end.

(** [for (...; ++i) p->genome[i] = src[i];] *)
Fixpoint copy_words (n : nat) (i : Z) (src : list Z) (p : cellptr) (w : World)
  : outcome World :=
  match n with
  | O => Done w
  | S n =>
      s ← rd src i;
      g ← wr (genome (pond w p)) i s;
      copy_words n (i + 1) src p (poke (set_genome g) p w)
  end.

(** Seeding: a random cell somewhere receives energy and a random genome. *)
Definition seed (w : World) : outcome World :=
  let '(r, w) := draw w in
  let x := r mod POND_SIZE_X in
  let '(r, w) := draw w in
  let y := r mod POND_SIZE_Y in
  let pptr := (x, y) in
  let w := poke (set_ID (cellIdCounter w)) pptr w in
  let w := poke (set_parentID 0) pptr w in
  let w := poke (set_lineage (cellIdCounter w)) pptr w in
  let w := poke (set_generation 0) pptr w in
  let '(r, w) := draw w in
  let w := poke (fun c => set_energy
             (u64 (energy c + u64 (INFLOW_RATE_BASE + r mod INFLOW_RATE_VARIATION))) c)
             pptr w in
  w ← fill_random (Z.to_nat POND_DEPTH_SYSWORDS) 0 pptr w;
  Done (set_cellIdCounter (u64 (cellIdCounter w + 1)) w).

(** Reset of the virtual machine before the cell at [(x, y)] runs.  The
    loop stack arrays are locals of [run] that are not cleared. *)
Definition vm_reset (x y : Z) (w : World) (v : VM) : outcome VM :=
  b ← fill_words (Z.to_nat POND_DEPTH_SYSWORDS) 0 ALL_ONES (outputBuf v);
  cw ← rd (genome (pond w (x, y))) 0;
  Done (mkVM b cw EXEC_START_WORD EXEC_START_BIT 0 0 0 0
          (loopStack_wordPtr v) (loopStack_shiftPtr v) 0 0 0).

(** The copy of [outputBuf] into the neighbor after the execution. *)
Definition commit (x y : Z) (w : World) (v : VM) : outcome World :=
  b0 ← rd (outputBuf v) 0;
  if negb (Z.land b0 0xff =? 0xff) then
    let tmpptr := getNeighbor x y (facing v) in
    if nz (energy (pond w tmpptr)) then
      '(ok, w) ← accessAllowed tmpptr (reg v) 0 w;
      if ok : bool then
        let s := statCounters w in
        let w :=
          if 2 <? generation (pond w tmpptr)
          then set_statCounters
                 (mkStats (instructionExecutions s) (cellExecutions s)
                    (u64 (viableCellsReplaced s + 1)) (viableCellsKilled s)
                    (viableCellShares s)) w
          else w in
        let w := set_cellIdCounter (u64 (cellIdCounter w + 1)) w in
        let w := poke (set_ID (cellIdCounter w)) tmpptr w in
        let w := poke (set_parentID (ID (pond w (x, y)))) tmpptr w in
        let w := poke (set_lineage (lineage (pond w (x, y)))) tmpptr w in
        let w := poke (set_generation (u64 (generation (pond w (x, y)) + 1)))
                   tmpptr w in
        copy_words (Z.to_nat POND_DEPTH_SYSWORDS) 0 (outputBuf v) tmpptr w
      else Done w
    else Done w
  else Done w.

(* ----------------------------------------------------------------------- *)
(** ** The report                                                            *)
(* ----------------------------------------------------------------------- *)

(** The body of the scan of one cell; the accumulator is
    [(totalActiveCells, totalEnergy, totalViableReplicators,
    maxGeneration)]. *)
Definition scan_cell (acc : Z * Z * Z * Z) (c : Cell) : Z * Z * Z * Z :=
  let '(active, total, viable, maxgen) := acc in
  if nz (energy c) then
    (u64 (active + 1),
     u64 (total + energy c),
     if 2 <? generation c then u64 (viable + 1) else viable,
     if maxgen <? generation c then generation c else maxgen)
  else acc.

Definition scan_pond (p : Pond) : Z * Z * Z * Z :=
  foldl (fun acc x =>
           foldl (fun acc y => scan_cell acc (p (x, y))) acc
             (seqZ 0 POND_SIZE_Y))
    (0, 0, 0, 0) (seqZ 0 POND_SIZE_X).

(** The value printed by one [%.4f]:
    [(statCounters.cellExecutions > 0.0) ? (n / cellExecutions) : 0.0] *)
Definition per_execution (s : StatCounters) (n : Z) : dval :=
  if 0 <? cellExecutions s then DQuot n (cellExecutions s) else DZero.

(** The loop over the 16 instruction counters: accumulates
    [totalMetabolism] and prints one column per counter. *)
Fixpoint report_frequencies (n : nat) (x : Z) (s : StatCounters)
  (totalMetabolism : Z) (out : list item) : outcome (Z * list item) :=
  match n with
  | O => Done (totalMetabolism, out)
  | S n =>
      e ← rd (instructionExecutions s) x;
      report_frequencies n (x + 1) s (dbl_add totalMetabolism e)
        (out ++ [Sep; F4 (per_execution s e)])
  end.

(** What one call of [doReport] writes to standard output. *)
Definition report_row (clock : Z) (w : World) : outcome (list item) :=
  let totals := scan_pond (pond w) in
  let totalActiveCells := totals.1.1.1 in
  let totalEnergy := totals.1.1.2 in
  let totalViableReplicators := totals.1.2 in
  let maxGeneration := totals.2 in
  let s := statCounters w in
  let out : list item :=
    [U64 clock; Sep; U64 totalEnergy; Sep; U64 totalActiveCells; Sep;
     U64 totalViableReplicators; Sep; U64 maxGeneration; Sep;
     U64 (viableCellsReplaced s); Sep; U64 (viableCellsKilled s); Sep;
     U64 (viableCellShares s); Sep] in
  '(totalMetabolism, out) ← report_frequencies 16 0 s 0 out;
  Done (out ++ [Sep; F4 (per_execution s totalMetabolism); Eol]).

Definition doReport (clock : Z) (w : World) : outcome World :=
  row ← report_row clock w;
  let totalViableReplicators := (scan_pond (pond w)).1.2 in
  let last := lastTotalViableReplicators w in
  let ev :=
    if (0 <? last) && (totalViableReplicators =? 0) then [Extinct]
    else if (last =? 0) && (0 <? totalViableReplicators) then [Appeared]
    else [] in
  Done (mkWorld (pond w) (cellIdCounter w) (prngState w)
          (mkStats (replicate 16 0) 0 0 0 0)
          totalViableReplicators (stdout w ++ row) (stderr w ++ ev)).

(** The fields of a row: the pieces between separators, up to the end of
    the line. *)
Fixpoint fields_from (cur : list item) (l : list item) : list (list item) :=
  match l with
  | [] => [cur]
  | Sep :: l => cur :: fields_from [] l
  | Eol :: _ => [cur]
  | i :: l => fields_from (cur ++ [i]) l
  end.
Definition fields (l : list item) : list (list item) := fields_from [] l.

(** One iteration of the main loop of [run]. *)
Definition tick (fuel : nat) (threadNo : Z) (clock : Z) (w : World) (v : VM)
  : outcome (Z * World * VM) :=
  let clock := u64 (clock + 1) in
  w ← (if (threadNo =? 0) && negb (nz (clock mod REPORT_FREQUENCY))
       then doReport clock w else Done w);
  w ← (if negb (nz (clock mod INFLOW_FREQUENCY)) then seed w else Done w);
  let '(i, w) := draw w in
  let x := i mod POND_SIZE_X in
  let y := Z.shiftr (i / POND_SIZE_X) 1 mod POND_SIZE_Y in
  v ← vm_reset x y w v;
  let s := statCounters w in
  let w := set_statCounters
             (mkStats (instructionExecutions s) (dbl_add (cellExecutions s) 1)
                (viableCellsReplaced s) (viableCellsKilled s)
                (viableCellShares s)) w in
  '(w, v, _) ← exec_loop fuel x y w v;
  w ← commit x y w v;
  Done (clock, w, v).

(** The main loop of [run], interrupted by [exitNow] after [ticks]
    iterations; [clock], [w] and [v] are the clock, the globals and the
    locals it starts from. *)
Fixpoint run (ticks fuel : nat) (threadNo clock : Z) (w : World) (v : VM)
  : outcome (Z * World * VM) :=
  match ticks with
  | O => Done (clock, w, v)
  | S ticks =>
      '(clock, w, v) ← tick fuel threadNo clock w v;
      run ticks fuel threadNo clock w v
  end.

(** The state in which [main] calls [run]: every cell zero-valued with an
    all-ones genome, counters cleared, generator seeded with 13 and a
    second word [seed2]. *)
Definition initial_cell : Cell :=
  mkCell 0 0 0 0 0 (replicate (Z.to_nat POND_DEPTH_SYSWORDS) ALL_ONES).
Definition initial_world (seed2 : Z) : World :=
  mkWorld (fun _ => initial_cell) 0 (13, seed2)
    (mkStats (replicate 16 0) 0 0 0 0) 0 [] [].

(* ----------------------------------------------------------------------- *)
(** ** Well-formedness                                                       *)
(* ----------------------------------------------------------------------- *)

(** A machine word. *)
Definition word (z : Z) : Prop := 0 ≤ z < 2 ^ 64.

(** The genome of a cell is an array of [POND_DEPTH_SYSWORDS] words. *)
Definition cell_ok (c : Cell) : Prop :=
  length (genome c) = Z.to_nat POND_DEPTH_SYSWORDS.

Definition pond_ok (p : Pond) : Prop := ∀ q, cell_ok (p q).

(** The coordinates of a cell of the pond. *)
Definition in_pond (x y : Z) : Prop :=
  0 ≤ x < POND_SIZE_X ∧ 0 ≤ y < POND_SIZE_Y.

(** A position of the execution cursor or of the data pointer: a word of
    the genome and a shift that is a multiple of four below the word
    width. *)
Definition codon_pos (wp sp : Z) : Prop :=
  0 ≤ wp < POND_DEPTH_SYSWORDS ∧ 0 ≤ sp < SYSWORD_BITS ∧ sp mod 4 = 0.

(** The invariant of the virtual machine: arrays have their declared
    sizes, cursor and data pointer are positions, the loop stack holds at
    most [POND_DEPTH] entries and those in use are positions. *)
Record vm_ok (v : VM) : Prop := mk_vm_ok {
  ok_outputBuf : length (outputBuf v) = Z.to_nat POND_DEPTH_SYSWORDS;
  ok_cursor : codon_pos (wordPtr v) (shiftPtr v);
  ok_ptr : codon_pos (ptr_wordPtr v) (ptr_shiftPtr v);
  ok_reg : 0 ≤ reg v < 16;
  ok_facing : 0 ≤ facing v < 4;
  ok_stack_w : length (loopStack_wordPtr v) = Z.to_nat POND_DEPTH;
  ok_stack_s : length (loopStack_shiftPtr v) = Z.to_nat POND_DEPTH;
  ok_depth : 0 ≤ loopStackPtr v ≤ POND_DEPTH;
  ok_entries : ∀ i wp sp, 0 ≤ i < loopStackPtr v →
    loopStack_wordPtr v !! Z.to_nat i = Some wp →
    loopStack_shiftPtr v !! Z.to_nat i = Some sp →
    codon_pos wp sp
}.

Definition stats_ok (w : World) : Prop :=
  length (instructionExecutions (statCounters w)) = 16%nat.

Definition world_ok (w : World) : Prop := pond_ok (pond w) ∧ stats_ok w.

(** Number of bits set in a four-bit value. *)
Definition popcount4 (n : Z) : Z :=
  Z.b2z (Z.testbit n 0) + Z.b2z (Z.testbit n 1) +
  Z.b2z (Z.testbit n 2) + Z.b2z (Z.testbit n 3).

(* ----------------------------------------------------------------------- *)
(** ** Notions used to state further properties                              *)
(* ----------------------------------------------------------------------- *)

(** The cells of the pond in the order in which [doReport] visits them. *)
Definition pond_cells (p : Pond) : list Cell :=
  concat (map (fun x => map (fun y => p (x, y)) (seqZ 0 POND_SIZE_Y))
            (seqZ 0 POND_SIZE_X)).

(** Every energy of the pond is a machine word. *)
Definition energies_ok (w : World) : Prop := ∀ q, word (energy (pond w q)).

(** The energy held by a cell and its four neighbors. *)
Definition neighborhood_energy (x y : Z) (w : World) : Z :=
  energy (pond w (x, y))
  + energy (pond w (getNeighbor x y N_LEFT))
  + energy (pond w (getNeighbor x y N_RIGHT))
  + energy (pond w (getNeighbor x y N_UP))
  + energy (pond w (getNeighbor x y N_DOWN)).

(** No cell carries an id above the id counter. *)
Definition ids_bounded (w : World) : Prop :=
  word (cellIdCounter w) ∧ ∀ q, 0 ≤ ID (pond w q) ≤ cellIdCounter w.

(** Two machines that agree on everything but the loop stack entries at
    and above the stack pointer. *)
Definition same_machine (v1 v2 : VM) : Prop :=
  outputBuf v1 = outputBuf v2 ∧ currentWord v1 = currentWord v2 ∧
  wordPtr v1 = wordPtr v2 ∧ shiftPtr v1 = shiftPtr v2 ∧
  ptr_wordPtr v1 = ptr_wordPtr v2 ∧ ptr_shiftPtr v1 = ptr_shiftPtr v2 ∧
  reg v1 = reg v2 ∧ facing v1 = facing v2 ∧
  loopStackPtr v1 = loopStackPtr v2 ∧
  falseLoopDepth v1 = falseLoopDepth v2 ∧ stop v1 = stop v2 ∧
  length (loopStack_wordPtr v1) = length (loopStack_wordPtr v2) ∧
  length (loopStack_shiftPtr v1) = length (loopStack_shiftPtr v2) ∧
  ∀ i, 0 ≤ i < loopStackPtr v1 →
    loopStack_wordPtr v1 !! Z.to_nat i = loopStack_wordPtr v2 !! Z.to_nat i ∧
    loopStack_shiftPtr v1 !! Z.to_nat i = loopStack_shiftPtr v2 !! Z.to_nat i.

(** The cells that an execution at [(x, y)] can touch: the cell itself
    and its four neighbors. *)
Definition reachable (x y : Z) (q : cellptr) : Prop :=
  q = (x, y) ∨ q = getNeighbor x y N_LEFT ∨ q = getNeighbor x y N_RIGHT ∨
  q = getNeighbor x y N_UP ∨ q = getNeighbor x y N_DOWN.

(** The parent id of a cell is zero (the cell was seeded or killed, or is
    untouched) or smaller than the id of the cell. *)
Definition parents_older (w : World) : Prop :=
  ∀ q, parentID (pond w q) = 0 ∨ parentID (pond w q) < ID (pond w q).

Definition ids_ok (w : World) : Prop := ids_bounded w ∧ parents_older w.

(** The cached word is the word of the genome under the execution
    cursor, and neither the cursor nor a loop stack entry in use is the
    first codon of the genome. *)
Definition fetch_ok (x y : Z) (w : World) (v : VM) : Prop :=
  genome (pond w (x, y)) !! Z.to_nat (wordPtr v) = Some (currentWord v) ∧
  (wordPtr v, shiftPtr v) ≠ (0, 0) ∧
  ∀ i wp sp, 0 ≤ i < loopStackPtr v →
    loopStack_wordPtr v !! Z.to_nat i = Some wp →
    loopStack_shiftPtr v !! Z.to_nat i = Some sp →
    (wp, sp) ≠ (0, 0).

(** Two states of the program that agree on the simulation proper: the
    pond, the id counter and the generator.  They may differ in the
    statistics, in what [doReport] remembers and in the output so far. *)
Definition same_simulation (w1 w2 : World) : Prop :=
  pond w1 = pond w2 ∧ cellIdCounter w1 = cellIdCounter w2 ∧
  prngState w1 = prngState w2.

(** The results of [n] successive calls of [getRandom] from the state
    [st], and the state they leave. *)
Fixpoint draws (n : nat) (st : prng) : list Z * prng :=
  match n with
  | O => ([], st)
  | S n =>
      let '(r, st1) := getRandom st in
      let '(rs, st2) := draws n st1 in
      (r :: rs, st2)
  end.

(** No cell of the pond holds more than [B] units of energy. *)
Definition energies_below (B : Z) (w : World) : Prop :=
  ∀ q, 0 ≤ energy (pond w q) ≤ B.

(** A linear form over the 64 bits of a word, written as the mask [m] of
    the bits it adds up: [dotb m y] is the sum modulo 2 of the bits of [y]
    that [m] selects. *)
Definition dotb (m y : Z) : bool :=
  foldr (fun i acc => xorb (Z.testbit m i && Z.testbit y i) acc) false
    (seqZ 0 64).

(** When both state words are [y], [getRandom] leaves [y] xor
    [stuck_map y] in the second state word. *)
Definition stuck_map (y : Z) : Z :=
  let x := Z.lxor y (u64 (Z.shiftl y 23)) in
  Z.lxor (Z.lxor x (Z.shiftr x 17)) (Z.shiftr y 26).

(** Bit [j] of [stuck_map y] as a linear form in the bits of [y]. *)
Definition stuck_row (j : Z) : Z :=
  Z.lxor (Z.lxor (Z.lxor (Z.lxor (2 ^ j)
    (if 23 <=? j then 2 ^ (j - 23) else 0))
    (if j <=? 46 then 2 ^ (j + 17) else 0))
    (if (6 <=? j) && (j <=? 46) then 2 ^ (j - 6) else 0))
    (if j <=? 37 then 2 ^ (j + 26) else 0).

(** The sum of the rows that the mask [s] selects. *)
Definition stuck_comb (s : Z) : Z :=
  foldr (fun j acc => if Z.testbit s j then Z.lxor (stuck_row j) acc else acc)
    0 (seqZ 0 64).

(** The inverse of the matrix of [stuck_map] over the field of two
    elements: entry [i] selects the rows whose sum is bit [i] alone. *)
Definition stuck_inverse : list Z :=
  [
   0xe39c71c0071ffff0; 0x24a4924009200010; 0x4949248012400020; 0x9292490024800040;
   0x2524920049000080; 0x4a49240092000100; 0x9492480124000200; 0x2924900248000400;
   0x5249200490000800; 0xa492400920001000; 0x4924801240002000; 0x9249002480004000;
   0x2d6d3690134124b; 0x23e975f2035cb6dd; 0x820a490400920001; 0x414920801240002;
   0x829241002480004; 0xf3ce39e0038ffff8; 0x2244d1200134924b; 0x62cd7160035db6dd;
   0x42402000900001; 0x26c0536000149249; 0x6bc475e0011db6d9; 0xf1cc38e0030ffff9;
   0x2640d32000349249; 0x6ac57560015db6d9; 0x1052482004900009; 0x6e0436008149259;
   0x2b8455e0111db6f9; 0x92d0092024100049; 0x3e4c160491492d9; 0x218d51e0931db7f9;
   0x86c2012120100249; 0x2bc0d162411496d9; 0x71c571e4831dbff9; 0x2652412900101249;
   0x6ae051720114b6d9; 0xf38471c4031dfff9; 0x494924801240002; 0x929249002480004;
   0xf1ce38e0038ffff8; 0x2644d3200134924b; 0x6acd7560035db6dd; 0x1042482000900001;
   0x6c0436000149249; 0x2bc455e0011db6d9; 0x71cc78e0030ffff9; 0x2640532000349249;
   0x6ac47560015db6d9; 0x1050482004900009; 0x6e4436008149259; 0x2b8c55e0111db6f9;
   0x92c0092024100049; 0x3c4c160491492d9; 0x21cd51e0931db7f9; 0x8642012120100249;
   0x2ac0d162411496d9; 0x73c571e4831dbff9; 0x2252412900101249; 0x62e051720114b6d9;
   0xe38471c4031dfff9; 0x2494924801240002; 0x4929249002480004; 0x71ce38e0038ffff8
  ].

(** The cell that the seeding of the main loop picks: [x] from one call of
    the generator, [y] from the next. *)
Definition seed_cell (w : World) : cellptr :=
  let '(rx, w1) := draw w in
  let '(ry, _) := draw w1 in
  (rx mod POND_SIZE_X, ry mod POND_SIZE_Y).

(** The cell that the main loop picks for execution, from one call of the
    generator. *)
Definition exec_cell (w : World) : cellptr :=
  let '(i, _) := draw w in
  (i mod POND_SIZE_X, Z.shiftr (i / POND_SIZE_X) 1 mod POND_SIZE_Y).

(* ----------------------------------------------------------------------- *)
(** ** Scenarios                                                             *)
(* ----------------------------------------------------------------------- *)

Definition blank_stats : StatCounters := mkStats (replicate 16 0) 0 0 0 0.

(** The locals of [run] before the first iteration of the main loop. *)
Definition fresh_vm : VM :=
  mkVM (replicate 64 0) 0 0 0 0 0 0 0 (replicate 1024 0) (replicate 1024 0)
    0 0 0.

(** A cell whose genome is INC followed by LOOPs only, caught with a full
    loop stack in front of the LOOP at word 0, shift 16. *)
Definition loopy_genome : list Z :=
  0x9999999999999939 :: replicate 63 0x9999999999999999.
Definition loopy_cell : Cell := mkCell 7 0 7 0 474 loopy_genome.
Definition loopy_world : World :=
  mkWorld (<[(10, 20) := loopy_cell]> (fun _ => initial_cell)) 8 (13, 42)
    blank_stats 0 [] [].
Definition full_stack_vm : VM :=
  mkVM (replicate 64 ALL_ONES) 0x9999999999999939 0 16 0 0 2 0
    (replicate 1024 0) (replicate 1024 8) 1024 0 0.

(** A cell with one unit of energy whose first instruction is SHARE, next
    to a seeded cell with energy 10. *)
Definition sharing_genome : list Z :=
  0xffffffffffffffef :: replicate 63 ALL_ONES.
Definition sharing_cell : Cell := mkCell 7 0 7 0 1 sharing_genome.
Definition donor_cell : Cell := mkCell 5 0 5 0 10 (replicate 64 ALL_ONES).
Definition sharing_world : World :=
  mkWorld (<[(10, 20) := sharing_cell]>
             (<[(9, 20) := donor_cell]> (fun _ => initial_cell)))
    8 (13, 42) blank_stats 0 [] [].

(** A cell that writes one codon into the output buffer and stops, next to
    a seeded cell with energy; the generator is about to pick the writer. *)
Definition writer_genome : list Z :=
  0xffffffffffffff8f :: replicate 63 ALL_ONES.
Definition writer_cell : Cell := mkCell 1 0 1 0 50 writer_genome.
Definition target_cell : Cell := mkCell 0 0 0 0 700 (replicate 64 ALL_ONES).
Definition nursery_world : World :=
  mkWorld (<[(17, 358) := writer_cell]>
             (<[(16, 358) := target_cell]> (fun _ => initial_cell)))
    2 (13, 42) blank_stats 0 [] [].

(** A cell with one unit of energy whose genome holds STOP only. *)
Definition lonely_cell : Cell := mkCell 7 0 7 0 1 (replicate 64 ALL_ONES).
Definition lonely_world : World :=
  mkWorld (<[(10, 20) := lonely_cell]> (fun _ => initial_cell)) 8 (13, 42)
    blank_stats 0 [] [].

(** The machine of the writer of [nursery_world] after its execution. *)
Definition emitting_vm : VM :=
  mkVM (0xfffffffffffffff0 :: replicate 63 ALL_ONES) 0xffffffffffffff8f 0 12
    0 0 0 0 (replicate 1024 0) (replicate 1024 0) 0 0 1.

(** A machine at the start of an execution with a nonzero register, and
    the same machine while it skips to a matching REP. *)
Definition armed_vm : VM :=
  mkVM (replicate 64 ALL_ONES) 0x9999999999999939 0 4 0 0 5 0
    (replicate 1024 0) (replicate 1024 0) 0 0 0.
Definition skipping_vm : VM := set_falseLoopDepth 1 armed_vm.

(** [nursery_world] with two more cells: a cell whose genome holds KILL
    and then STOP, at the place the generator picks after the writer's
    execution, and a seeded cell with energy that it faces. *)
Definition killer_genome : list Z :=
  0xffffffffffffffdf :: replicate 63 ALL_ONES.
Definition killer_cell : Cell := mkCell 3 0 3 0 50 killer_genome.
Definition victim_cell : Cell := mkCell 2 0 2 0 300 (replicate 64 ALL_ONES).
Definition crowded_world : World :=
  mkWorld (<[(331, 545) := killer_cell]>
             (<[(330, 545) := victim_cell]>
                (<[(17, 358) := writer_cell]>
                   (<[(16, 358) := target_cell]> (fun _ => initial_cell)))))
    4 (13, 42) blank_stats 0 [] [].

(** [lonely_world] after some instructions and events have been counted. *)
Definition counted_world : World :=
  set_statCounters (mkStats (replicate 16 7) 1 2 3 4) lonely_world.

(* ======================================================================= *)
(** * Properties                                                             *)
(* ======================================================================= *)

(** ** Arrays and words *)

(** Division and remainder by constants are linear arithmetic. *)
Ltac Zify.zify_post_hook ::= Z.to_euclidean_division_equations.

Lemma rd_Done (a : list Z) (i : Z) :
  0 ≤ i < Z.of_nat (length a) →
  ∃ v, rd a i = Done v ∧ a !! Z.to_nat i = Some v.
Proof.
  intros Hi. unfold rd.
  destruct (decide (0 ≤ i)) as [_|]; [|lia].
  destruct (lookup_lt_is_Some_2 a (Z.to_nat i)) as [v Hv]; [lia|].
  exists v. by rewrite Hv.
Qed.

Lemma wr_Done (a : list Z) (i v : Z) :
  0 ≤ i < Z.of_nat (length a) → wr a i v = Done (<[Z.to_nat i := v]> a).
Proof. intros Hi. unfold wr. by destruct (decide _). Qed.

Lemma shl_Done (a s : Z) :
  0 ≤ s < SYSWORD_BITS → shl a s = Done (u64 (Z.shiftl a s)).
Proof. intros Hs. unfold shl. by destruct (decide _). Qed.

Lemma shr_Done (a s : Z) :
  0 ≤ s < SYSWORD_BITS → shr a s = Done (Z.shiftr a s).
Proof. intros Hs. unfold shr. by destruct (decide _). Qed.

Lemma land_0xf_range (a : Z) : 0 ≤ Z.land a 0xf < 16.
Proof.
  change 0xf with (Z.ones 4). rewrite Z.land_ones by lia.
  apply Z.mod_pos_bound. lia.
Qed.

Lemma u64_range (z : Z) : word (u64 z).
Proof. apply Z.mod_pos_bound. lia. Qed.

Lemma u64_small (z : Z) : word z → u64 z = z.
Proof. intros H. apply Z.mod_small. exact H. Qed.

(** Case analysis on a four-bit value. *)
Ltac nibble n H :=
  let E := fresh "E" in
  assert (E : n = 0 ∨ n = 1 ∨ n = 2 ∨ n = 3 ∨ n = 4 ∨ n = 5 ∨ n = 6 ∨ n = 7 ∨
              n = 8 ∨ n = 9 ∨ n = 10 ∨ n = 11 ∨ n = 12 ∨ n = 13 ∨ n = 14 ∨
              n = 15) by lia;
  clear H;
  repeat (destruct E as [E|E]; [subst n|]); [..|subst n].

Lemma lxor_nibble_range (a b : Z) :
  0 ≤ a < 16 → 0 ≤ b < 16 → 0 ≤ Z.lxor a b < 16.
Proof.
  intros Ha Hb. nibble a Ha; nibble b Hb; vm_compute; split; congruence.
Qed.

(** The table of the program is the population count. *)
Lemma BITS_IN_FOURBIT_WORD_popcount (n : Z) :
  0 ≤ n < 16 →
  rd BITS_IN_FOURBIT_WORD n = Done (popcount4 n) ∧ 0 ≤ popcount4 n ≤ 4.
Proof.
  intros Hn. nibble n Hn; vm_compute; (split; [reflexivity|split; congruence]).
Qed.

(** ** The access gate *)

(** C8.  [accessAllowed] makes exactly one draw [r] from the generator and,
    with [d] the number of bits in which the first codon of the target's
    genome differs from the low four bits of the guess, answers: in sense 0
    true iff [r ≤ d] or the target's parent id is 0; in any other sense
    true iff [r ≥ d] or the target's parent id is 0.  In particular it is
    true whenever the parent id is 0. *)
Theorem accessAllowed_spec (w : World) (c2 : cellptr) (c1guess sense : Z) :
  cell_ok (pond w c2) →
  ∃ (g0 : Z) (b : bool),
    let r := Z.land (getRandom (prngState w)).1 0xf in
    let d := popcount4 (Z.lxor (Z.land g0 0xf) (Z.land c1guess 0xf)) in
    genome (pond w c2) !! 0%nat = Some g0 ∧
    accessAllowed c2 c1guess sense w
      = Done (b, set_prngState (getRandom (prngState w)).2 w) ∧
    0 ≤ r < 16 ∧ 0 ≤ d ≤ 4 ∧
    (sense = 0 → (b = true ↔ r ≤ d ∨ parentID (pond w c2) = 0)) ∧
    (sense ≠ 0 → (b = true ↔ d ≤ r ∨ parentID (pond w c2) = 0)) ∧
    (parentID (pond w c2) = 0 → b = true).
Proof.
  intros Hok. red in Hok.
  destruct (rd_Done (genome (pond w c2)) 0) as (g0 & Hrd & Hg0).
  { rewrite Hok. vm_compute. split; congruence. }
  pose proof (land_0xf_range g0) as Hg.
  pose proof (land_0xf_range c1guess) as Hc.
  pose proof (lxor_nibble_range _ _ Hg Hc) as Hx.
  destruct (BITS_IN_FOURBIT_WORD_popcount _ Hx) as [Htab Hd].
  pose proof (land_0xf_range (getRandom (prngState w)).1) as Hr.
  unfold accessAllowed, draw.
  destruct (getRandom (prngState w)) as [r st]. cbn [fst snd] in *.
  exists g0.
  eexists. cbn zeta.
  split; [exact Hg0|].
  split.
  { rewrite Hrd. cbn [mbind outcome_bind]. rewrite Htab.
    cbn [mbind outcome_bind]. reflexivity. }
  split; [exact Hr|]. split; [exact Hd|].
  unfold nz.
  destruct (Z.eqb_spec sense 0) as [->|Hs]; cbn [negb];
    rewrite orb_true_iff, Z.leb_le, Z.eqb_eq;
    (split; [|split]); intros; try split; intros; try lia; tauto.
Qed.

(** ** The pond *)

Arguments u64 : simpl never.
Arguments ALL_ONES : simpl never.

Lemma pond_poke_eq (f : Cell → Cell) (p : cellptr) (w : World) :
  pond (poke f p w) p = f (pond w p).
Proof. unfold poke. cbn. apply fn_lookup_alter. Qed.

Lemma pond_poke_ne (f : Cell → Cell) (p q : cellptr) (w : World) :
  p ≠ q → pond (poke f p w) q = pond w q.
Proof. intros H. unfold poke. cbn. by apply fn_lookup_alter_ne. Qed.

Lemma cellIdCounter_poke (f : Cell → Cell) (p : cellptr) (w : World) :
  cellIdCounter (poke f p w) = cellIdCounter w.
Proof. reflexivity. Qed.

Lemma statCounters_poke (f : Cell → Cell) (p : cellptr) (w : World) :
  statCounters (poke f p w) = statCounters w.
Proof. reflexivity. Qed.

Lemma prngState_poke (f : Cell → Cell) (p : cellptr) (w : World) :
  prngState (poke f p w) = prngState w.
Proof. reflexivity. Qed.

Ltac pond_simpl :=
  repeat (rewrite pond_poke_eq
          || (rewrite pond_poke_ne by (done || congruence))
          || rewrite cellIdCounter_poke
          || rewrite statCounters_poke
          || rewrite prngState_poke).

Lemma getNeighbor_ne (x y dir : Z) :
  in_pond x y → 0 ≤ dir < 4 → getNeighbor x y dir ≠ (x, y).
Proof.
  intros [Hx Hy] Hd. unfold POND_SIZE_X, POND_SIZE_Y in *.
  assert (E : dir = 0 ∨ dir = 1 ∨ dir = 2 ∨ dir = 3) by lia.
  unfold getNeighbor, nz, POND_SIZE_X, POND_SIZE_Y.
  destruct E as [-> | [-> | [-> | ->]]];
    repeat match goal with
           | |- context [?a =? ?b] => destruct (Z.eqb_spec a b)
           | |- context [?a <? ?b] => destruct (Z.ltb_spec a b)
           end; cbn [negb]; intros [=]; lia.
Qed.

Lemma getNeighbor_in_pond (x y dir : Z) :
  in_pond x y → in_pond (getNeighbor x y dir).1 (getNeighbor x y dir).2.
Proof.
  intros [Hx Hy]. unfold in_pond, POND_SIZE_X, POND_SIZE_Y in *.
  unfold getNeighbor, nz, POND_SIZE_X, POND_SIZE_Y.
  destruct dir as [|[[?|?|]|[?|?|]|]|?]; cbv iota;
    repeat match goal with
           | |- context [?a =? ?b] => destruct (Z.eqb_spec a b)
           | |- context [?a <? ?b] => destruct (Z.ltb_spec a b)
           end; cbn [negb fst snd]; lia.
Qed.

Lemma accessAllowed_inv (c2 : cellptr) (g s : Z) (w w1 : World) (b : bool) :
  accessAllowed c2 g s w = Done (b, w1) →
  w1 = set_prngState (getRandom (prngState w)).2 w.
Proof.
  unfold accessAllowed, draw.
  destruct (getRandom (prngState w)) as [r st]. cbn [snd].
  destruct (rd (genome (pond w c2)) 0); cbn [mbind outcome_bind]; try done.
  destruct (rd BITS_IN_FOURBIT_WORD _); cbn [mbind outcome_bind]; try done.
  by intros [= _ <-].
Qed.

(** ** SHARE *)

(** C7.  A SHARE whose access check (sense 1) grants leaves the neighbor
    with half of the summed energy (integer division) and the actor with
    the rest.  The two energies then differ by at most one, the actor holds
    the odd unit, and the pair's energy is conserved whenever the sum is
    representable in a machine word.  The virtual machine registers are
    untouched. *)
Theorem share_granted (x y : Z) (w w1 : World) (v : VM) :
  in_pond x y →
  0 ≤ facing v < 4 →
  word (energy (pond w (x, y))) →
  word (energy (pond w (getNeighbor x y (facing v)))) →
  accessAllowed (getNeighbor x y (facing v)) (reg v) 1 w = Done (true, w1) →
  ∃ w',
    dispatch x y 0xe w v = Done (w', v, false) ∧
    let self := energy (pond w (x, y)) in
    let neighbor := energy (pond w (getNeighbor x y (facing v))) in
    let self' := energy (pond w' (x, y)) in
    let neighbor' := energy (pond w' (getNeighbor x y (facing v))) in
    let total := u64 (self + neighbor) in
    neighbor' = total / 2 ∧
    self' = total - neighbor' ∧
    self' + neighbor' = total ∧
    Z.abs (self' - neighbor') ≤ 1 ∧
    self' = neighbor' + total mod 2 ∧
    (self + neighbor < 2 ^ 64 → self' + neighbor' = self + neighbor).
Proof.
  intros Hxy Hf Hs Hn Hacc.
  pose proof (getNeighbor_ne x y (facing v) Hxy Hf) as Hne.
  pose proof (accessAllowed_inv _ _ _ _ _ _ Hacc) as ->.
  set (nb := getNeighbor x y (facing v)) in *.
  eexists. split.
  { cbn [dispatch]. unfold do_share. fold nb. rewrite Hacc.
    cbn [mbind outcome_bind]. reflexivity. }
  cbn zeta.
  set (w2 := if 2 <? _ then _ else _).
  assert (Hp : pond w2 = pond w) by (subst w2; by destruct (2 <? _)).
  pond_simpl. cbn [energy set_energy]. rewrite !Hp.
  set (total := u64 (energy (pond w (x, y)) + energy (pond w nb))).
  assert (Ht : word total) by apply u64_range.
  red in Ht.
  assert (Hsub : u64 (total - total / 2) = total - total / 2).
  { apply u64_small. red. lia. }
  rewrite Hsub.
  repeat split; try lia.
  intros Hsum. subst total. rewrite u64_small; [lia|]. red in Hs, Hn. red. lia.
Qed.

(** ** KILL *)

(** A KILL whose access check (sense 0) grants fills the first two
    genome words of the neighbor with all-ones, gives it the id held by the
    id counter (which then advances), parent id 0, its own id as lineage
    and generation 0, leaves its energy and every other cell alone, and
    counts one viable kill exactly when the neighbor's generation was above
    2.  When the check denies and the neighbor's generation is above 2 the
    actor loses [energy / FAILED_KILL_PENALTY] of its energy, never going
    below 0, and nothing else changes; when it denies and the neighbor is
    not viable only the generator has advanced. *)
Theorem kill_spec (x y : Z) (w w1 : World) (v : VM) (ok : bool) :
  in_pond x y →
  0 ≤ facing v < 4 →
  cell_ok (pond w (getNeighbor x y (facing v))) →
  word (energy (pond w (x, y))) →
  accessAllowed (getNeighbor x y (facing v)) (reg v) 0 w = Done (ok, w1) →
  ∃ w',
    dispatch x y 0xd w v = Done (w', v, false) ∧
    let nb := getNeighbor x y (facing v) in
    let killed := viableCellsKilled (statCounters w) in
    let e := energy (pond w (x, y)) in
    (ok = true →
       genome (pond w' nb) !! 0%nat = Some ALL_ONES ∧
       genome (pond w' nb) !! 1%nat = Some ALL_ONES ∧
       ID (pond w' nb) = cellIdCounter w ∧
       cellIdCounter w' = u64 (cellIdCounter w + 1) ∧
       parentID (pond w' nb) = 0 ∧
       lineage (pond w' nb) = ID (pond w' nb) ∧
       generation (pond w' nb) = 0 ∧
       energy (pond w' nb) = energy (pond w nb) ∧
       (∀ q, q ≠ nb → pond w' q = pond w q) ∧
       (2 < generation (pond w nb) →
          viableCellsKilled (statCounters w') = u64 (killed + 1)) ∧
       (generation (pond w nb) ≤ 2 →
          viableCellsKilled (statCounters w') = killed)) ∧
    (ok = false → 2 < generation (pond w nb) →
       energy (pond w' (x, y)) = Z.max 0 (e - e / FAILED_KILL_PENALTY) ∧
       energy (pond w' (x, y)) = e - e / FAILED_KILL_PENALTY ∧
       pond w' (x, y) = set_energy (energy (pond w' (x, y))) (pond w (x, y)) ∧
       (∀ q, q ≠ (x, y) → pond w' q = pond w q) ∧
       cellIdCounter w' = cellIdCounter w ∧
       statCounters w' = statCounters w) ∧
    (ok = false → generation (pond w nb) ≤ 2 →
       w' = set_prngState (getRandom (prngState w)).2 w).
Proof.
  intros Hxy Hf Hok He Hacc.
  pose proof (getNeighbor_ne x y (facing v) Hxy Hf) as Hne.
  pose proof (accessAllowed_inv _ _ _ _ _ _ Hacc) as ->.
  set (nb := getNeighbor x y (facing v)) in *.
  set (w1 := set_prngState _ w) in *.
  red in Hok. unfold POND_DEPTH_SYSWORDS, POND_DEPTH, sizeof_uintptr in Hok.
  change (Z.to_nat (1024 / (8 * 2))) with 64%nat in Hok.
  cbn [dispatch]. unfold do_kill. fold nb. rewrite Hacc.
  cbn [mbind outcome_bind].
  destruct ok.
  - set (w2 := if 2 <? _ then _ else _).
    assert (Hp : pond w2 = pond w) by (subst w2; by destruct (2 <? _)).
    assert (Hc : cellIdCounter w2 = cellIdCounter w)
      by (subst w2; by destruct (2 <? _)).
    rewrite wr_Done by (rewrite Hp, Hok; lia).
    cbn [mbind outcome_bind]. pond_simpl. cbn [genome set_genome].
    rewrite wr_Done by (rewrite length_insert, Hp, Hok; lia).
    cbn [mbind outcome_bind].
    eexists. split; [reflexivity|]. cbn zeta.
    split; [intros _|split; [done|done]].
    cbn [pond set_cellIdCounter cellIdCounter statCounters]. pond_simpl.
    cbn [ID parentID lineage generation energy genome set_ID set_parentID
         set_lineage set_generation set_genome].
    rewrite ?Hp, ?Hc.
    change (Z.to_nat 1) with 1%nat. change (Z.to_nat 0) with 0%nat.
    repeat split.
    + rewrite list_lookup_insert_ne by done.
      apply list_lookup_insert_eq. rewrite Hok. lia.
    + apply list_lookup_insert_eq. rewrite length_insert, Hok. lia.
    + intros q Hq. pond_simpl. by rewrite Hp.
    + intros Hg. subst w2. apply Z.ltb_lt in Hg.
      change (pond w1) with (pond w). by rewrite Hg.
    + intros Hg. subst w2. apply Z.ltb_ge in Hg.
      change (pond w1) with (pond w). by rewrite Hg.
  - destruct (Z.ltb_spec 2 (generation (pond w1 nb))) as [Hg|Hg];
      change (pond w1) with (pond w) in *.
    + red in He. unfold FAILED_KILL_PENALTY.
      destruct (Z.ltb_spec (energy (pond w (x, y)) / 3) (energy (pond w (x, y))));
        (eexists; split; [reflexivity|]); cbn zeta;
        (split; [done|]); (split; [intros _ _|intros _ ?; lia]);
        pond_simpl; cbn [energy set_energy];
        rewrite ?u64_small by (red; lia);
        (repeat split; try lia; try done;
         try (intros q Hq; by pond_simpl)).
    + eexists. split; [reflexivity|]. cbn zeta.
      split; [done|]. split; [intros _ ?; lia|done].
Qed.

(** C6.  A granted KILL gives the neighbor the value held by the id
    counter, and that value is not a fresh id when an offspring commit
    came before: the commit leaves the counter at the id it assigned.  In
    two consecutive ticks of [crowded_world], clock 1 and clock 2, the
    writer at (17, 358) places an offspring with id 5 at (16, 358), and the
    cell at (331, 545) then executes KILL on its neighbor (330, 545): the
    access check grants, the neighbor's first two genome words become
    all-ones, its parent id and generation 0, its energy stays 300, and
    its id and lineage become 5, the id of the offspring, which is still in
    the pond with energy 700. *)
Theorem kill_reuses_id :
  match run 1 100 0 0 crowded_world fresh_vm,
        run 2 100 0 0 crowded_world fresh_vm with
  | Done (c1, w1, v1), Done (c2, w2, v2) =>
      c1 = 1 ∧ c2 = 2 ∧
      cellIdCounter crowded_world = 4 ∧
      ID (pond w1 (16, 358)) = 5 ∧
      parentID (pond w1 (16, 358)) = ID (pond crowded_world (17, 358)) ∧
      cellIdCounter w1 = 5 ∧
      pond w1 (331, 545) = killer_cell ∧
      pond w1 (330, 545) = victim_cell ∧
      instructionExecutions (statCounters w1) !! 13%nat = Some 0 ∧
      instructionExecutions (statCounters w2) !! 13%nat = Some 1 ∧
      genome (pond w2 (330, 545)) !! 0%nat = Some ALL_ONES ∧
      genome (pond w2 (330, 545)) !! 1%nat = Some ALL_ONES ∧
      parentID (pond w2 (330, 545)) = 0 ∧
      generation (pond w2 (330, 545)) = 0 ∧
      energy (pond w2 (330, 545)) = 300 ∧
      lineage (pond w2 (330, 545)) = 5 ∧
      ID (pond w2 (330, 545)) = 5 ∧
      ID (pond w2 (16, 358)) = 5 ∧
      energy (pond w2 (16, 358)) = 700 ∧
      cellIdCounter w2 = 6
  | _, _ => False
  end.
Proof. vm_compute. repeat split. Qed.

(** ** Bounds of the virtual machine *)

Lemma depth_syswords : Z.to_nat POND_DEPTH_SYSWORDS = 64%nat.
Proof. reflexivity. Qed.

Lemma depth_stack : Z.to_nat POND_DEPTH = 1024%nat.
Proof. reflexivity. Qed.

Lemma codon_pos_start : codon_pos EXEC_START_WORD EXEC_START_BIT.
Proof. vm_compute. repeat split; congruence. Qed.

Lemma codon_pos_zero : codon_pos 0 0.
Proof. vm_compute. repeat split; congruence. Qed.

Ltac unfold_consts :=
  unfold codon_pos, POND_DEPTH_SYSWORDS, SYSWORD_BITS, POND_DEPTH,
    sizeof_uintptr, EXEC_START_WORD, EXEC_START_BIT, u64, nz in *.

Ltac split_tests :=
  repeat match goal with
         | |- context [?a =? ?b] => destruct (Z.eqb_spec a b)
         | |- context [?a <? ?b] => destruct (Z.ltb_spec a b)
         | |- context [?a <=? ?b] => destruct (Z.leb_spec a b)
         end.

Lemma bump_cursor_pos (wp sp : Z) :
  codon_pos wp sp →
  codon_pos (bump_cursor wp sp).1.1 (bump_cursor wp sp).1.2.
Proof.
  intros H. unfold bump_cursor. unfold_consts.
  change (1024 / (8 * 2)) with 64 in *. change (8 * 8) with 64 in *.
  split_tests; cbn [fst snd]; lia.
Qed.

Lemma get_codon_Done (a : list Z) (wi si : Z) :
  0 ≤ wi < Z.of_nat (length a) → 0 ≤ si < SYSWORD_BITS →
  ∃ c, get_codon a wi si = Done c ∧ 0 ≤ c < 16.
Proof.
  intros Hw Hs. unfold get_codon.
  destruct (rd_Done a wi Hw) as (g & -> & _). cbn [mbind outcome_bind].
  rewrite shr_Done by done. cbn [mbind outcome_bind].
  eexists. split; [reflexivity|]. apply land_0xf_range.
Qed.

Lemma put_codon_Done (a : list Z) (wi si val : Z) :
  0 ≤ wi < Z.of_nat (length a) → 0 ≤ si < SYSWORD_BITS →
  ∃ b, put_codon a wi si val = Done b ∧ length b = length a ∧
       ∀ j, j ≠ Z.to_nat wi → b !! j = a !! j.
Proof.
  intros Hw Hs. unfold put_codon.
  destruct (rd_Done a wi Hw) as (g & -> & _). cbn [mbind outcome_bind].
  rewrite !shl_Done by done. cbn [mbind outcome_bind].
  rewrite wr_Done by done. cbn [mbind outcome_bind].
  destruct (rd_Done (<[Z.to_nat wi := Z.land g (u64 (Z.lnot (u64 (Z.shiftl 15 si))))]> a) wi)
    as (g1 & -> & _); [by rewrite length_insert|].
  cbn [mbind outcome_bind]. rewrite wr_Done by (by rewrite length_insert).
  eexists. split; [reflexivity|]. rewrite !length_insert. split; [done|].
  intros j Hj. by rewrite !list_lookup_insert_ne.
Qed.

Lemma pond_ok_poke (f : Cell → Cell) (p : cellptr) (w : World) :
  pond_ok (pond w) → cell_ok (f (pond w p)) → pond_ok (pond (poke f p w)).
Proof.
  intros Hp Hf q. destruct (decide (p = q)) as [<-|Hne].
  - by rewrite pond_poke_eq.
  - rewrite pond_poke_ne by done. apply Hp.
Qed.

Lemma vm_ok_set_reg (r : Z) (v : VM) :
  vm_ok v → 0 ≤ r < 16 → vm_ok (set_reg r v).
Proof. intros [] ?. by constructor. Qed.

Lemma vm_ok_set_ptr (wp sp : Z) (v : VM) :
  vm_ok v → codon_pos wp sp → vm_ok (set_ptr wp sp v).
Proof. intros [] ?. by constructor. Qed.

Lemma vm_ok_set_cursor (wp sp : Z) (v : VM) :
  vm_ok v → codon_pos wp sp → vm_ok (set_cursor wp sp v).
Proof. intros [] ?. by constructor. Qed.

Lemma vm_ok_set_currentWord (c : Z) (v : VM) :
  vm_ok v → vm_ok (set_currentWord c v).
Proof. intros []. by constructor. Qed.

Lemma vm_ok_set_facing (f : Z) (v : VM) :
  vm_ok v → 0 ≤ f < 4 → vm_ok (set_facing f v).
Proof. intros [] ?. by constructor. Qed.

Lemma vm_ok_set_outputBuf (b : list Z) (v : VM) :
  vm_ok v → length b = length (outputBuf v) → vm_ok (set_outputBuf b v).
Proof. intros [] Hb. constructor; try done. cbn. by rewrite Hb. Qed.

Lemma vm_ok_set_falseLoopDepth (d : Z) (v : VM) :
  vm_ok v → vm_ok (set_falseLoopDepth d v).
Proof. intros []. by constructor. Qed.

Lemma vm_ok_set_stop (s : Z) (v : VM) : vm_ok v → vm_ok (set_stop s v).
Proof. intros []. by constructor. Qed.

(** Pushing the cursor on a loop stack that is not full. *)
Lemma vm_ok_push (v : VM) :
  vm_ok v → loopStackPtr v < POND_DEPTH →
  vm_ok (set_loopStack
           (<[Z.to_nat (loopStackPtr v) := wordPtr v]> (loopStack_wordPtr v))
           (<[Z.to_nat (loopStackPtr v) := shiftPtr v]> (loopStack_shiftPtr v))
           (u64 (loopStackPtr v + 1)) v).
Proof.
  intros [] Hlt.
  assert (Hu : u64 (loopStackPtr v + 1) = loopStackPtr v + 1).
  { apply u64_small. red. unfold POND_DEPTH in *. lia. }
  constructor; cbn; rewrite ?length_insert, ?Hu; try done; try lia.
  intros i wp sp Hi.
  destruct (decide (i = loopStackPtr v)) as [->|Hne].
  - rewrite !list_lookup_insert_eq by lia. by intros [= <-] [= <-].
  - rewrite !list_lookup_insert_ne by lia. apply ok_entries0. lia.
Qed.

(** Popping the loop stack. *)
Lemma vm_ok_pop (v : VM) :
  vm_ok v → loopStackPtr v ≠ 0 →
  vm_ok (set_loopStack (loopStack_wordPtr v) (loopStack_shiftPtr v)
           (u64 (loopStackPtr v - 1)) v).
Proof.
  intros [] Hne.
  assert (Hu : u64 (loopStackPtr v - 1) = loopStackPtr v - 1).
  { apply u64_small. red. unfold POND_DEPTH in *. lia. }
  constructor; cbn; rewrite ?Hu; try done; try lia.
  intros i wp sp Hi. apply ok_entries0. lia.
Qed.

Lemma pond_ok_poke_len (f : Cell → Cell) (p : cellptr) (w : World) :
  pond_ok (pond w) →
  length (genome (f (pond w p))) = length (genome (pond w p)) →
  pond_ok (pond (poke f p w)).
Proof.
  intros Hp Hf. apply pond_ok_poke; [done|]. red. rewrite Hf. apply Hp.
Qed.

Lemma accessAllowed_Done (c2 : cellptr) (g s : Z) (w : World) :
  cell_ok (pond w c2) →
  ∃ b, accessAllowed c2 g s w
       = Done (b, set_prngState (getRandom (prngState w)).2 w).
Proof.
  intros Hok. red in Hok. rewrite depth_syswords in Hok.
  destruct (rd_Done (genome (pond w c2)) 0) as (g0 & Hrd & _); [lia|].
  pose proof (lxor_nibble_range _ _ (land_0xf_range g0) (land_0xf_range g)) as Hx.
  destruct (BITS_IN_FOURBIT_WORD_popcount _ Hx) as [Htab _].
  unfold accessAllowed, draw.
  destruct (getRandom (prngState w)) as [r st]. cbn [snd].
  rewrite Hrd. cbn [mbind outcome_bind]. rewrite Htab.
  cbn [mbind outcome_bind]. eexists. reflexivity.
Qed.

Lemma fetch_mutate_Done (w : World) (v : VM) :
  vm_ok v →
  ∃ inst w1 v1,
    fetch_mutate w v = Done (inst, w1, v1) ∧
    0 ≤ inst < 16 ∧
    pond w1 = pond w ∧
    cellIdCounter w1 = cellIdCounter w ∧
    statCounters w1 = statCounters w ∧
    (v1 = v ∨ ∃ r, 0 ≤ r < 16 ∧ v1 = set_reg r v).
Proof.
  intros Hv. unfold fetch_mutate.
  rewrite shr_Done by apply Hv. cbn [mbind outcome_bind]. unfold draw.
  destruct (getRandom (prngState w)) as [r st]. cbn [prngState set_prngState].
  destruct (getRandom st) as [tmp st2].
  destruct (Z.land r 0xffffffff <? MUTATION_RATE).
  - destruct (nz (Z.land tmp 0x80)).
    + do 3 eexists. split; [reflexivity|].
      split; [apply land_0xf_range|]. repeat split; by left.
    + do 3 eexists. split; [reflexivity|].
      split; [apply land_0xf_range|]. repeat split. right.
      eexists. split; [apply land_0xf_range|reflexivity].
  - do 3 eexists. split; [reflexivity|].
    split; [apply land_0xf_range|]. repeat split; by left.
Qed.

Lemma count_instruction_Done (inst : Z) (w : World) :
  0 ≤ inst < 16 → stats_ok w →
  ∃ w', count_instruction inst w = Done w' ∧
        pond w' = pond w ∧ cellIdCounter w' = cellIdCounter w ∧
        prngState w' = prngState w ∧ stats_ok w'.
Proof.
  intros Hi Hs. red in Hs. unfold count_instruction.
  destruct (rd_Done (instructionExecutions (statCounters w)) inst)
    as (n & -> & _); [lia|].
  cbn [mbind outcome_bind]. rewrite wr_Done by lia.
  cbn [mbind outcome_bind]. eexists. split; [reflexivity|].
  repeat split. red. cbn. by rewrite length_insert.
Qed.

Lemma do_kill_Done (x y : Z) (w : World) (v : VM) :
  world_ok w →
  ∃ w', do_kill x y w v = Done w' ∧ world_ok w'.
Proof.
  intros [Hp Hs]. unfold do_kill.
  set (nb := getNeighbor x y (facing v)).
  destruct (accessAllowed_Done nb (reg v) 0 w (Hp nb)) as [b ->].
  cbn [mbind outcome_bind].
  set (w1 := set_prngState _ w).
  pose proof (Hp nb) as Hnb. red in Hnb. rewrite depth_syswords in Hnb.
  destruct b.
  - set (w2 := if 2 <? _ then _ else _).
    assert (Hp2 : pond w2 = pond w) by (subst w2; by destruct (2 <? _)).
    assert (Hs2 : stats_ok w2) by (subst w2; by destruct (2 <? _)).
    rewrite wr_Done by (rewrite Hp2, Hnb; lia).
    cbn [mbind outcome_bind]. pond_simpl. cbn [genome set_genome].
    rewrite wr_Done by (rewrite length_insert, Hp2, Hnb; lia).
    cbn [mbind outcome_bind]. eexists. split; [reflexivity|].
    split; [|exact Hs2].
    cbn [pond set_cellIdCounter].
    repeat (apply pond_ok_poke_len;
            [|pond_simpl; cbn [genome set_genome set_ID set_parentID
                                 set_lineage set_generation];
              rewrite ?length_insert; try done]).
    by rewrite Hp2.
  - destruct (2 <? generation (pond w1 nb)).
    + destruct (_ <? _); (eexists; split; [reflexivity|]);
        (split; [|exact Hs]); by apply pond_ok_poke_len.
    + eexists. split; [reflexivity|]. by split.
Qed.

Lemma do_share_Done (x y : Z) (w : World) (v : VM) :
  world_ok w →
  ∃ w', do_share x y w v = Done w' ∧ world_ok w'.
Proof.
  intros [Hp Hs]. unfold do_share.
  set (nb := getNeighbor x y (facing v)).
  destruct (accessAllowed_Done nb (reg v) 1 w (Hp nb)) as [b ->].
  cbn [mbind outcome_bind].
  destruct b.
  - set (w2 := if 2 <? _ then _ else _).
    assert (Hp2 : pond w2 = pond w) by (subst w2; by destruct (2 <? _)).
    assert (Hs2 : stats_ok w2) by (subst w2; by destruct (2 <? _)).
    eexists. split; [reflexivity|]. split; [|exact Hs2].
    repeat (apply pond_ok_poke_len; [|done]). by rewrite Hp2.
  - eexists. split; [reflexivity|]. by split.
Qed.

Lemma land_3_range (a : Z) : 0 ≤ Z.land a 3 < 4.
Proof.
  change 3 with (Z.ones 2). rewrite Z.land_ones by lia.
  apply Z.mod_pos_bound. lia.
Qed.

Lemma genome_index_ok (w : World) (p : cellptr) (wp sp : Z) :
  pond_ok (pond w) → codon_pos wp sp →
  0 ≤ wp < Z.of_nat (length (genome (pond w p))).
Proof.
  intros Hp (Hw & _). rewrite (Hp p). unfold POND_DEPTH_SYSWORDS in *.
  rewrite Z2Nat.id; [lia|done].
Qed.

Lemma dispatch_Done (x y inst : Z) (w : World) (v : VM) :
  0 ≤ inst < 16 → world_ok w → vm_ok v →
  ∃ w' v' c, dispatch x y inst w v = Done (w', v', c) ∧
             world_ok w' ∧ vm_ok v'.
Proof.
  intros Hi Hw Hv.
  pose proof Hw as [Hp Hs].
  pose proof (ok_cursor _ Hv) as Hcur.
  pose proof (ok_ptr _ Hv) as Hptr.
  pose proof (genome_index_ok w (x, y) _ _ Hp Hptr) as Hpi.
  pose proof (genome_index_ok w (x, y) _ _ Hp Hcur) as Hci.
  assert (Hbi : 0 ≤ ptr_wordPtr v < Z.of_nat (length (outputBuf v))).
  { rewrite (ok_outputBuf _ Hv). destruct Hptr as (? & _).
    unfold POND_DEPTH_SYSWORDS in *. rewrite Z2Nat.id; [lia|done]. }
  nibble inst Hi; cbn [dispatch].
  - (* ZERO *)
    do 3 eexists. split; [reflexivity|]. split; [done|].
    apply vm_ok_set_facing; [|lia].
    apply vm_ok_set_ptr; [|apply codon_pos_zero].
    apply vm_ok_set_reg; [done|lia].
  - (* FWD *)
    destruct (SYSWORD_BITS <=? u64 (ptr_shiftPtr v + 4)) eqn:E;
      (do 3 eexists; split; [reflexivity|]; split; [done|]);
      apply vm_ok_set_ptr; try done; revert E; unfold_consts;
      change (1024 / (8 * 2)) with 64 in *; change (8 * 8) with 64 in *;
      split_tests; intros; try discriminate; lia.
  - (* BACK *)
    destruct (nz (ptr_shiftPtr v)) eqn:E;
      (do 3 eexists; split; [reflexivity|]; split; [done|]);
      apply vm_ok_set_ptr; try done; revert E; unfold_consts;
      change (1024 / (8 * 2)) with 64 in *; change (8 * 8) with 64 in *;
      split_tests; cbn [negb]; intros; try discriminate; lia.
  - (* INC *)
    do 3 eexists. split; [reflexivity|]. split; [done|].
    apply vm_ok_set_reg; [done|apply land_0xf_range].
  - (* DEC *)
    do 3 eexists. split; [reflexivity|]. split; [done|].
    apply vm_ok_set_reg; [done|apply land_0xf_range].
  - (* READG *)
    destruct (get_codon_Done (genome (pond w (x, y))) (ptr_wordPtr v)
                (ptr_shiftPtr v)) as (c & -> & Hc); [done|apply Hptr|].
    cbn [mbind outcome_bind].
    do 3 eexists. split; [reflexivity|]. split; [done|].
    by apply vm_ok_set_reg.
  - (* WRITEG *)
    destruct (put_codon_Done (genome (pond w (x, y))) (ptr_wordPtr v)
                (ptr_shiftPtr v) (reg v)) as (g & -> & Hg & _);
      [done|apply Hptr|].
    cbn [mbind outcome_bind]. pond_simpl. cbn [genome set_genome].
    destruct (rd_Done g (wordPtr v)) as (cw & -> & _); [by rewrite Hg|].
    cbn [mbind outcome_bind].
    do 3 eexists. split; [reflexivity|]. split.
    + split; [|done]. by apply pond_ok_poke_len.
    + by apply vm_ok_set_currentWord.
  - (* READB *)
    destruct (get_codon_Done (outputBuf v) (ptr_wordPtr v) (ptr_shiftPtr v))
      as (c & -> & Hc); [done|apply Hptr|].
    cbn [mbind outcome_bind].
    do 3 eexists. split; [reflexivity|]. split; [done|].
    by apply vm_ok_set_reg.
  - (* WRITEB *)
    destruct (put_codon_Done (outputBuf v) (ptr_wordPtr v) (ptr_shiftPtr v)
                (reg v)) as (b & -> & Hb & _); [done|apply Hptr|].
    cbn [mbind outcome_bind].
    do 3 eexists. split; [reflexivity|]. split; [done|].
    by apply vm_ok_set_outputBuf.
  - (* LOOP *)
    destruct (nz (reg v)).
    + destruct (Z.leb_spec POND_DEPTH (loopStackPtr v)) as [Hfull|Hroom].
      * do 3 eexists. split; [reflexivity|]. split; [done|].
        by apply vm_ok_set_stop.
      * pose proof (ok_depth _ Hv) as Hd.
        rewrite (wr_Done (loopStack_wordPtr v))
          by (rewrite (ok_stack_w _ Hv), depth_stack; unfold POND_DEPTH in *; lia).
        cbn [mbind outcome_bind].
        rewrite (wr_Done (loopStack_shiftPtr v))
          by (rewrite (ok_stack_s _ Hv), depth_stack; unfold POND_DEPTH in *; lia).
        cbn [mbind outcome_bind].
        do 3 eexists. split; [reflexivity|]. split; [done|].
        by apply vm_ok_push.
    + do 3 eexists. split; [reflexivity|]. split; [done|].
      by apply vm_ok_set_falseLoopDepth.
  - (* REP *)
    destruct (Z.eqb_spec (loopStackPtr v) 0) as [Hz|Hnz]; unfold nz at 1.
    + apply Z.eqb_eq in Hz. rewrite Hz. cbn [negb].
      do 3 eexists. split; [reflexivity|]. by split.
    + pose proof (vm_ok_pop v Hv Hnz) as Hpop.
      pose proof (ok_depth _ Hv) as Hd.
      apply Z.eqb_neq in Hnz. rewrite Hnz. cbn [negb].
      cbn [reg set_loopStack loopStack_wordPtr loopStack_shiftPtr loopStackPtr].
      destruct (nz (reg v)).
      * apply Z.eqb_neq in Hnz.
        assert (Hu : u64 (loopStackPtr v - 1) = loopStackPtr v - 1).
        { apply u64_small. red. unfold POND_DEPTH in *. lia. }
        destruct (rd_Done (loopStack_wordPtr v) (u64 (loopStackPtr v - 1)))
          as (wp & -> & Hwp).
        { rewrite Hu, (ok_stack_w _ Hv), depth_stack.
          unfold POND_DEPTH in *. lia. }
        destruct (rd_Done (loopStack_shiftPtr v) (u64 (loopStackPtr v - 1)))
          as (sp & -> & Hsp).
        { rewrite Hu, (ok_stack_s _ Hv), depth_stack.
          unfold POND_DEPTH in *. lia. }
        cbn [mbind outcome_bind].
        assert (Hpos : codon_pos wp sp).
        { apply (ok_entries _ Hv (loopStackPtr v - 1)); [lia|..];
            by rewrite <- Hu. }
        destruct (rd_Done (genome (pond w (x, y))) wp) as (cw & -> & _).
        { by apply (genome_index_ok w (x, y) wp sp). }
        cbn [mbind outcome_bind].
        do 3 eexists. split; [reflexivity|]. split; [done|].
        apply vm_ok_set_currentWord. by apply vm_ok_set_cursor.
      * do 3 eexists. split; [reflexivity|]. by split.
  - (* TURN *)
    do 3 eexists. split; [reflexivity|]. split; [done|].
    apply vm_ok_set_facing; [done|apply land_3_range].
  - (* XCHG *)
    pose proof (bump_cursor_pos _ _ Hcur) as Hb.
    destruct (bump_cursor (wordPtr v) (shiftPtr v)) as [[wp sp] r].
    cbn [fst snd] in Hb.
    pose proof (genome_index_ok w (x, y) _ _ Hp Hb) as Hbi'.
    destruct (get_codon_Done (genome (pond w (x, y))) wp sp)
      as (c & -> & Hc); [done|apply Hb|].
    cbn [mbind outcome_bind]. cbn [reg set_cursor].
    destruct (put_codon_Done (genome (pond w (x, y))) wp sp (reg v))
      as (g & -> & Hg & _); [done|apply Hb|].
    cbn [mbind outcome_bind]. pond_simpl. cbn [genome set_genome].
    destruct (rd_Done g wp) as (cw & -> & _); [by rewrite Hg|].
    cbn [mbind outcome_bind].
    do 3 eexists. split; [reflexivity|]. split.
    + split; [|done]. by apply pond_ok_poke_len.
    + apply vm_ok_set_currentWord. apply vm_ok_set_reg; [|done].
      by apply vm_ok_set_cursor.
  - (* KILL *)
    destruct (do_kill_Done x y w v Hw) as (w' & -> & Hw').
    cbn [mbind outcome_bind]. do 3 eexists. by split.
  - (* SHARE *)
    destruct (do_share_Done x y w v Hw) as (w' & -> & Hw').
    cbn [mbind outcome_bind]. do 3 eexists. by split.
  - (* STOP *)
    do 3 eexists. split; [reflexivity|]. split; [done|].
    by apply vm_ok_set_stop.
Qed.

Lemma execute_Done (x y inst : Z) (w : World) (v : VM) :
  0 ≤ inst < 16 → world_ok w → vm_ok v →
  ∃ w' v' c, execute x y inst w v = Done (w', v', c) ∧
             world_ok w' ∧ vm_ok v'.
Proof.
  intros Hi Hw Hv. unfold execute.
  destruct (nz (falseLoopDepth v)).
  - destruct (inst =? 9); [|destruct (inst =? 10)];
      (do 3 eexists; split; [reflexivity|]; split; [done|]);
      try done; by apply vm_ok_set_falseLoopDepth.
  - destruct Hw as [Hp Hs].
    destruct (count_instruction_Done inst w Hi Hs)
      as (w1 & -> & Hp1 & _ & _ & Hs1).
    cbn [mbind outcome_bind].
    apply dispatch_Done; [done| |done]. split; [by rewrite Hp1|done].
Qed.

Lemma advance_Done (x y : Z) (w : World) (v : VM) :
  pond_ok (pond w) → vm_ok v →
  ∃ v', advance x y w v = Done v' ∧ vm_ok v'.
Proof.
  intros Hp Hv. unfold advance.
  pose proof (bump_cursor_pos _ _ (ok_cursor _ Hv)) as Hb.
  destruct (bump_cursor (wordPtr v) (shiftPtr v)) as [[wp sp] r].
  cbn [fst snd] in Hb.
  destruct r.
  - destruct (rd_Done (genome (pond w (x, y))) wp) as (cw & -> & _).
    { by apply (genome_index_ok w (x, y) wp sp). }
    cbn [mbind outcome_bind]. eexists. split; [reflexivity|].
    apply vm_ok_set_currentWord. by apply vm_ok_set_cursor.
  - eexists. split; [reflexivity|]. by apply vm_ok_set_cursor.
Qed.

Lemma step_Done (x y : Z) (w : World) (v : VM) :
  world_ok w → vm_ok v →
  ∃ w' v', step x y w v = Done (w', v') ∧ world_ok w' ∧ vm_ok v'.
Proof.
  intros [Hp Hs] Hv. unfold step.
  destruct (fetch_mutate_Done w v Hv)
    as (inst & w1 & v1 & -> & Hi & Hp1 & _ & Hs1 & Hv1).
  cbn [mbind outcome_bind].
  assert (Hv1' : vm_ok v1).
  { destruct Hv1 as [->|(r & Hr & ->)]; [done|by apply vm_ok_set_reg]. }
  set (w2 := poke _ (x, y) w1).
  assert (Hw2 : world_ok w2).
  { split.
    - apply pond_ok_poke_len; [by rewrite Hp1|done].
    - red. subst w2. pond_simpl. by rewrite Hs1. }
  destruct (execute_Done x y inst w2 v1 Hi Hw2 Hv1')
    as (w3 & v3 & c & -> & Hw3 & Hv3).
  cbn [mbind outcome_bind].
  destruct c.
  - do 2 eexists. by split.
  - destruct (advance_Done x y w3 v3 (proj1 Hw3) Hv3) as (v4 & -> & Hv4).
    cbn [mbind outcome_bind]. do 2 eexists. by split.
Qed.

Lemma iter_step_Done (n : nat) (x y : Z) (w : World) (v : VM) :
  world_ok w → vm_ok v →
  ∃ w' v', iter_step n x y w v = Done (w', v') ∧ world_ok w' ∧ vm_ok v'.
Proof.
  revert w v. induction n as [|n IH]; intros w v Hw Hv; cbn [iter_step].
  - do 2 eexists. by split.
  - destruct (running x y w v).
    + destruct (step_Done x y w v Hw Hv) as (w1 & v1 & -> & Hw1 & Hv1).
      cbn [mbind outcome_bind]. by apply IH.
    + do 2 eexists. by split.
Qed.

Lemma exec_loop_sound (fuel : nat) (x y : Z) (w : World) (v : VM) :
  world_ok w → vm_ok v →
  exec_loop fuel x y w v = Timeout ∨
  ∃ w' v' k, exec_loop fuel x y w v = Done (w', v', k) ∧
             world_ok w' ∧ vm_ok v' ∧ running x y w' v' = false.
Proof.
  revert w v. induction fuel as [|fuel IH]; intros w v Hw Hv; cbn [exec_loop].
  - destruct (running x y w v) eqn:E; [by left|].
    right. do 3 eexists. split; [reflexivity|]. split; [done|]. by split.
  - destruct (running x y w v) eqn:E.
    + destruct (step_Done x y w v Hw Hv) as (w1 & v1 & -> & Hw1 & Hv1).
      cbn [mbind outcome_bind].
      destruct (IH w1 v1 Hw1 Hv1) as [->|(w' & v' & k & -> & ? & ? & ?)].
      * by left.
      * right. cbn [mbind outcome_bind]. do 3 eexists. split; [reflexivity|]. split; [done|]. by split.
    + right. do 3 eexists. split; [reflexivity|]. split; [done|]. by split.
Qed.

Lemma fill_words_Done (n : nat) (i val : Z) (a : list Z) :
  0 ≤ i → i + Z.of_nat n ≤ Z.of_nat (length a) →
  ∃ b, fill_words n i val a = Done b ∧ length b = length a.
Proof.
  revert i a. induction n as [|n IH]; intros i a Hi Hn; cbn [fill_words].
  - by eexists.
  - rewrite wr_Done by lia. cbn [mbind outcome_bind].
    destruct (IH (i + 1) (<[Z.to_nat i := val]> a)) as (b & -> & Hb);
      [lia|rewrite length_insert; lia|].
    eexists. split; [reflexivity|]. by rewrite Hb, length_insert.
Qed.

Lemma vm_reset_Done (x y : Z) (w : World) (v0 : VM) :
  pond_ok (pond w) →
  length (outputBuf v0) = Z.to_nat POND_DEPTH_SYSWORDS →
  length (loopStack_wordPtr v0) = Z.to_nat POND_DEPTH →
  length (loopStack_shiftPtr v0) = Z.to_nat POND_DEPTH →
  ∃ v, vm_reset x y w v0 = Done v ∧ vm_ok v ∧
       wordPtr v = EXEC_START_WORD ∧ shiftPtr v = EXEC_START_BIT ∧
       loopStackPtr v = 0 ∧ falseLoopDepth v = 0 ∧ stop v = 0 ∧ reg v = 0 ∧
       facing v = 0 ∧
       currentWord v = default 0 (genome (pond w (x, y)) !! 0%nat).
Proof.
  intros Hp Hb Hsw Hss. unfold vm_reset.
  destruct (fill_words_Done (Z.to_nat POND_DEPTH_SYSWORDS) 0 ALL_ONES
              (outputBuf v0)) as (b & -> & Hlen); [lia|rewrite Hb; lia|].
  cbn [mbind outcome_bind].
  destruct (rd_Done (genome (pond w (x, y))) 0) as (cw & -> & Hcw).
  { rewrite (Hp (x, y)), depth_syswords. lia. }
  cbn [mbind outcome_bind]. eexists. split; [reflexivity|].
  split.
  - constructor; cbn; try done; lia.
  - cbn. change (Z.to_nat 0) with 0%nat in Hcw. by rewrite Hcw.
Qed.

(** C9.  Started from the reset state on a pond whose genomes have their
    declared size, any number of iterations of the execution loop completes
    without an access outside an array or a shift by the word width or
    more, and arrives in a state that satisfies [vm_ok]: data pointer and
    execution cursor address a word below [POND_DEPTH_SYSWORDS] with a
    shift that is a multiple of 4 below [SYSWORD_BITS], and the loop stack
    holds at most [POND_DEPTH] entries.  The loop as a whole never faults
    either. *)
Theorem vm_indices_in_bounds (n fuel : nat) (x y : Z) (w : World) (v0 : VM) :
  world_ok w →
  length (outputBuf v0) = Z.to_nat POND_DEPTH_SYSWORDS →
  length (loopStack_wordPtr v0) = Z.to_nat POND_DEPTH →
  length (loopStack_shiftPtr v0) = Z.to_nat POND_DEPTH →
  ∃ v, vm_reset x y w v0 = Done v ∧ vm_ok v ∧
    (∃ w' v', iter_step n x y w v = Done (w', v') ∧ world_ok w' ∧ vm_ok v' ∧
       0 ≤ ptr_wordPtr v' < POND_DEPTH_SYSWORDS ∧
       0 ≤ wordPtr v' < POND_DEPTH_SYSWORDS ∧
       0 ≤ ptr_shiftPtr v' < SYSWORD_BITS ∧ ptr_shiftPtr v' mod 4 = 0 ∧
       0 ≤ shiftPtr v' < SYSWORD_BITS ∧ shiftPtr v' mod 4 = 0 ∧
       0 ≤ loopStackPtr v' ≤ POND_DEPTH ∧
       ∃ w'' v'', step x y w' v' = Done (w'', v'')) ∧
    exec_loop fuel x y w v ≠ Fault.
Proof.
  intros Hw Hb Hsw Hss.
  destruct (vm_reset_Done x y w v0 (proj1 Hw) Hb Hsw Hss) as (v & Hr & Hv & _).
  exists v. split; [done|]. split; [done|]. split.
  - destruct (iter_step_Done n x y w v Hw Hv) as (w' & v' & Hi & Hw' & Hv').
    exists w', v'. split; [done|]. split; [done|]. split; [done|].
    destruct (ok_ptr _ Hv') as (? & ? & ?).
    destruct (ok_cursor _ Hv') as (? & ? & ?).
    pose proof (ok_depth _ Hv').
    repeat (split; [lia|]).
    destruct (step_Done x y w' v' Hw' Hv') as (w'' & v'' & Hs & _).
    by exists w'', v''.
  - destruct (exec_loop_sound fuel x y w v Hw Hv)
      as [->|(? & ? & ? & -> & _)]; done.
Qed.

(** ** Offspring commit *)

Lemma copy_words_Done (n : nat) (i : Z) (src : list Z) (p : cellptr) (w : World) :
  0 ≤ i →
  i + Z.of_nat n ≤ Z.of_nat (length src) →
  i + Z.of_nat n ≤ Z.of_nat (length (genome (pond w p))) →
  ∃ w', copy_words n i src p w = Done w' ∧
    (∀ q, q ≠ p → pond w' q = pond w q) ∧
    pond w' p = set_genome (genome (pond w' p)) (pond w p) ∧
    length (genome (pond w' p)) = length (genome (pond w p)) ∧
    (∀ j : nat, genome (pond w' p) !! j =
       if decide (Z.to_nat i ≤ j < Z.to_nat i + n)%nat then src !! j
       else genome (pond w p) !! j) ∧
    cellIdCounter w' = cellIdCounter w ∧
    statCounters w' = statCounters w ∧
    prngState w' = prngState w.
Proof.
  revert i w. induction n as [|n IH]; intros i w Hi Hs Hg; cbn [copy_words].
  - eexists. split; [reflexivity|]. repeat split; try done.
    + by destruct (pond w p).
    + intros j. destruct (decide _); [lia|done].
  - destruct (rd_Done src i) as (s & -> & Hsi); [lia|].
    cbn [mbind outcome_bind]. rewrite wr_Done by lia.
    cbn [mbind outcome_bind].
    set (w1 := poke _ p w).
    assert (Hg1 : genome (pond w1 p) = <[Z.to_nat i := s]> (genome (pond w p)))
      by (subst w1; by pond_simpl).
    destruct (IH (i + 1) w1) as (w' & -> & Hq & Hp & Hl & Hj & Hc & Hst & Hr);
      [lia|lia|rewrite Hg1, length_insert; lia|].
    eexists. split; [reflexivity|]. repeat split; try done.
    + intros q Hne. rewrite Hq by done. subst w1. by pond_simpl.
    + rewrite Hp. subst w1. by pond_simpl.
    + by rewrite Hl, Hg1, length_insert.
    + intros j. rewrite Hj, Hg1.
      destruct (decide (Z.to_nat (i + 1) ≤ j < Z.to_nat (i + 1) + n)%nat).
      * destruct (decide _); [done|lia].
      * destruct (decide (j = Z.to_nat i)) as [->|Hne].
        -- rewrite list_lookup_insert_eq by lia.
           destruct (decide _); [done|lia].
        -- rewrite list_lookup_insert_ne by done.
           destruct (decide _); [lia|done].
Qed.

(** C5.  The copy of the output buffer into the neighbor happens exactly
    when the low byte of [outputBuf[0]] is not 0xff, the neighbor the cell
    faces has nonzero energy, and the access check (sense 0, made only
    under the first two conditions) grants.  It then gives the neighbor the
    incremented id counter as id, the actor's id as parent id, the actor's
    lineage, the actor's generation plus one and a copy of the output
    buffer as genome, keeps its energy and every other cell, and counts a
    replaced viable cell exactly when the neighbor's generation was above
    2.  Otherwise pond, id counter and counters are unchanged. *)
Theorem commit_spec (x y : Z) (w : World) (v : VM) :
  in_pond x y →
  0 ≤ facing v < 4 →
  pond_ok (pond w) →
  length (outputBuf v) = Z.to_nat POND_DEPTH_SYSWORDS →
  ∃ (b0 : Z) (granted : bool) (w' : World),
    let nb := getNeighbor x y (facing v) in
    let self := pond w (x, y) in
    let replaced := viableCellsReplaced (statCounters w) in
    let attempted := Z.land b0 0xff ≠ 0xff ∧ energy (pond w nb) ≠ 0 in
    outputBuf v !! 0%nat = Some b0 ∧
    commit x y w v = Done w' ∧
    (attempted →
       accessAllowed nb (reg v) 0 w
       = Done (granted, set_prngState (getRandom (prngState w)).2 w)) ∧
    (attempted ∧ granted = true →
       ID (pond w' nb) = u64 (cellIdCounter w + 1) ∧
       cellIdCounter w' = u64 (cellIdCounter w + 1) ∧
       parentID (pond w' nb) = ID self ∧
       lineage (pond w' nb) = lineage self ∧
       generation (pond w' nb) = u64 (generation self + 1) ∧
       genome (pond w' nb) = outputBuf v ∧
       energy (pond w' nb) = energy (pond w nb) ∧
       (∀ q, q ≠ nb → pond w' q = pond w q) ∧
       (2 < generation (pond w nb) →
          viableCellsReplaced (statCounters w') = u64 (replaced + 1)) ∧
       (generation (pond w nb) ≤ 2 →
          viableCellsReplaced (statCounters w') = replaced)) ∧
    (¬ (attempted ∧ granted = true) →
       pond w' = pond w ∧ cellIdCounter w' = cellIdCounter w ∧
       statCounters w' = statCounters w).
Proof.
  intros Hxy Hf Hp Hb.
  pose proof (getNeighbor_ne x y (facing v) Hxy Hf) as Hne.
  set (nb := getNeighbor x y (facing v)) in *.
  destruct (rd_Done (outputBuf v) 0) as (b0 & Hrd & Hb0);
    [rewrite Hb, depth_syswords; lia|].
  change (Z.to_nat 0) with 0%nat in Hb0.
  destruct (accessAllowed_Done nb (reg v) 0 w (Hp nb)) as [granted Hacc].
  unfold commit. fold nb. rewrite Hrd. cbn [mbind outcome_bind].
  destruct (Z.eqb_spec (Z.land b0 0xff) 0xff) as [He|He]; cbn [negb].
  { exists b0, granted. eexists. cbn zeta.
    split; [done|]. split; [reflexivity|].
    split; [tauto|]. split; [tauto|done]. }
  unfold nz. destruct (Z.eqb_spec (energy (pond w nb)) 0) as [Hz|Hz]; cbn [negb].
  { exists b0, granted. eexists. cbn zeta.
    split; [done|]. split; [reflexivity|].
    split; [tauto|]. split; [tauto|done]. }
  rewrite Hacc. cbn [mbind outcome_bind].
  set (w1 := set_prngState _ w) in *.
  destruct granted.
  2: { exists b0, false. eexists. cbn zeta.
       split; [done|]. split; [reflexivity|].
       split; [done|]. split; [intros [_ ?]; done|done]. }
  set (w2 := if 2 <? _ then _ else _).
  assert (Hp2 : pond w2 = pond w) by (subst w2; by destruct (2 <? _)).
  assert (Hc2 : cellIdCounter w2 = cellIdCounter w)
    by (subst w2; by destruct (2 <? _)).
  set (w3 := poke (set_generation _) nb _).
  assert (Hg3 : genome (pond w3 nb) = genome (pond w nb)).
  { subst w3. pond_simpl. cbn [pond set_cellIdCounter]. by rewrite Hp2. }
  destruct (copy_words_Done (Z.to_nat POND_DEPTH_SYSWORDS) 0 (outputBuf v) nb w3)
    as (w' & -> & Hq & Hpn & Hl & Hj & Hc & Hst & _);
    [lia|rewrite Hb; lia|rewrite Hg3, (Hp nb); lia|].
  exists b0, true, w'. cbn zeta.
  split; [done|]. split; [reflexivity|]. split; [done|].
  split; [intros _|intros H; exfalso; apply H; done].
  rewrite Hpn, Hc, Hst. cbn [ID parentID lineage generation energy genome set_genome].
  subst w3. pond_simpl.
  cbn [ID parentID lineage generation energy genome set_ID set_parentID
       set_lineage set_generation pond cellIdCounter statCounters
       set_cellIdCounter].
  rewrite ?Hp2, ?Hc2.
  repeat split.
  - apply list_eq. intros j. rewrite Hj, Hg3.
    destruct (decide _) as [|Hn]; [done|].
    rewrite !lookup_ge_None_2; [done|rewrite Hb|rewrite (Hp nb)];
      rewrite depth_syswords in *; lia.
  - intros q Hqn. rewrite Hq by done. pond_simpl.
    cbn [pond set_cellIdCounter]. by rewrite Hp2.
  - intros Hg. subst w2. apply Z.ltb_lt in Hg.
    change (pond w1) with (pond w). by rewrite Hg.
  - intros Hg. subst w2. apply Z.ltb_ge in Hg.
    change (pond w1) with (pond w). by rewrite Hg.
Qed.

(** ** What one instruction does to the pond *)

Ltac inv_bind H :=
  repeat match type of H with
         | mbind _ ?m = Done _ =>
             let E := fresh "E" in
             destruct m eqn:E; cbn [mbind outcome_bind] in H;
             [|discriminate H..]
         | (let '(_, _) := ?p in _) = Done _ => destruct p
         | (if ?b then _ else _) = Done _ => destruct b eqn:?
         end.

Lemma dispatch_world (x y inst : Z) (w w' : World) (v v' : VM) (c : bool) :
  0 ≤ inst < 16 →
  dispatch x y inst w v = Done (w', v', c) →
  (inst = 6 ∨ inst = 12 → ∃ g, w' = poke (set_genome g) (x, y) w) ∧
  (inst = 13 → do_kill x y w v = Done w') ∧
  (inst = 14 → do_share x y w v = Done w') ∧
  (inst ≠ 6 → inst ≠ 12 → inst ≠ 13 → inst ≠ 14 → w' = w).
Proof.
  intros Hi H.
  nibble inst Hi; cbn [dispatch] in H; inv_bind H;
    try (injection H as <- <- <-);
    (split; [intros [?|?]; try discriminate; eauto|]);
    (split; [intros ?; try discriminate; eauto|]);
    (split; [intros ?; try discriminate; eauto|]);
    try (intros; try done; lia).
Qed.

Lemma genome_poke_energy (e : Z) (p q : cellptr) (w : World) :
  genome (pond (poke (set_energy e) p w) q) = genome (pond w q).
Proof. destruct (decide (p = q)) as [<-|?]; by pond_simpl. Qed.

Lemma do_kill_frame (x y : Z) (w w' : World) (v : VM) :
  do_kill x y w v = Done w' →
  (∀ q, q ≠ getNeighbor x y (facing v) → genome (pond w' q) = genome (pond w q)) ∧
  (energy (pond w (x, y)) = 0 → energy (pond w' (x, y)) = 0).
Proof.
  unfold do_kill. set (nb := getNeighbor x y (facing v)). intros H.
  destruct (accessAllowed nb (reg v) 0 w) as [[b w1]| |] eqn:Hacc;
    cbn [mbind outcome_bind] in H; try discriminate.
  apply accessAllowed_inv in Hacc. subst w1.
  set (w1 := set_prngState _ w) in *.
  destruct b.
  - set (w2 := if 2 <? _ then _ else _) in *.
    assert (Hp2 : pond w2 = pond w) by (subst w2; by destruct (2 <? _)).
    inv_bind H. injection H as <-. cbn [pond set_cellIdCounter].
    split.
    + intros q Hq. pond_simpl. by rewrite Hp2.
    + intros He. destruct (decide (nb = (x, y))) as [Heq|Hne].
      * rewrite <- Heq in *. pond_simpl. cbn. by rewrite Hp2.
      * pond_simpl. by rewrite Hp2.
  - change (pond w1) with (pond w) in H.
    destruct (2 <? generation (pond w nb)).
    + destruct (_ <? _) eqn:Ht; injection H as <-; split.
      * intros q _. destruct (decide ((x, y) = q)) as [<-|?]; by pond_simpl.
      * intros He. rewrite He in Ht. discriminate.
      * intros q _. destruct (decide ((x, y) = q)) as [<-|?]; by pond_simpl.
      * intros _. by pond_simpl.
    + injection H as <-. by split.
Qed.

Lemma do_share_frame (x y : Z) (w w' : World) (v : VM) :
  do_share x y w v = Done w' →
  ∀ q, genome (pond w' q) = genome (pond w q).
Proof.
  unfold do_share. set (nb := getNeighbor x y (facing v)). intros H q.
  destruct (accessAllowed nb (reg v) 1 w) as [[b w1]| |] eqn:Hacc;
    cbn [mbind outcome_bind] in H; try discriminate.
  apply accessAllowed_inv in Hacc. subst w1.
  destruct b.
  - set (w2 := if 2 <? _ then _ else _) in *.
    assert (Hp2 : pond w2 = pond w) by (subst w2; by destruct (2 <? _)).
    injection H as <-. by rewrite !genome_poke_energy, Hp2.
  - by injection H as <-.
Qed.

(** The effect of one instruction on the genomes of the pond. *)
Lemma dispatch_genome (x y inst : Z) (w w' : World) (v v' : VM) (c : bool) :
  0 ≤ inst < 16 →
  dispatch x y inst w v = Done (w', v', c) →
  (inst ≠ 6 → inst ≠ 12 → inst ≠ 13 →
     ∀ q, genome (pond w' q) = genome (pond w q)) ∧
  (inst = 6 ∨ inst = 12 →
     ∀ q, q ≠ (x, y) → genome (pond w' q) = genome (pond w q)) ∧
  (inst = 13 →
     ∀ q, q ≠ getNeighbor x y (facing v) →
          genome (pond w' q) = genome (pond w q)).
Proof.
  intros Hi H.
  destruct (dispatch_world _ _ _ _ _ _ _ _ Hi H) as (Hg & Hk & Hs & Hn).
  split; [|split].
  - intros H6 H12 H13 q. destruct (decide (inst = 14)) as [E|E].
    + by apply (do_share_frame x y w w' v); auto.
    + by rewrite (Hn H6 H12 H13 E).
  - intros E q Hq. destruct (Hg E) as [g ->]. by pond_simpl.
  - intros E q Hq. by apply (do_kill_frame x y w w' v); auto.
Qed.

(** ** One iteration of the execution loop *)



Lemma step_unfold (x y inst : Z) (w w1 : World) (v v1 : VM) :
  fetch_mutate w v = Done (inst, w1, v1) →
  step x y w v =
    '(w2, v2, continue) ←
       execute x y inst
         (poke (fun c => set_energy (u64 (energy c - 1)) c) (x, y) w1) v1;
    if continue : bool then Done (w2, v2)
    else v3 ← advance x y w2 v2; Done (w2, v3).
Proof. intros H. unfold step. by rewrite H. Qed.

(** Mutation changes the register or nothing in the machine state, and
    nothing in the world but the generator. *)
Lemma fetch_mutate_inv (w w1 : World) (v v1 : VM) (inst : Z) :
  fetch_mutate w v = Done (inst, w1, v1) →
  0 ≤ inst < 16 ∧
  pond w1 = pond w ∧ cellIdCounter w1 = cellIdCounter w ∧
  statCounters w1 = statCounters w ∧
  (v1 = v ∨ ∃ r, 0 ≤ r < 16 ∧ v1 = set_reg r v).
Proof.
  unfold fetch_mutate, draw. intros H.
  destruct (shr (currentWord v) (shiftPtr v)); cbn [mbind outcome_bind] in H;
    try discriminate.
  destruct (getRandom (prngState w)) as [r st]. cbn [prngState set_prngState] in H.
  destruct (getRandom st) as [tmp st2].
  destruct (Z.land r 0xffffffff <? MUTATION_RATE);
    [destruct (nz (Z.land tmp 0x80))|]; injection H as <- <- <-;
    (split; [apply land_0xf_range|]); repeat split; try by left.
  right. eexists. split; [apply land_0xf_range|done].
Qed.

Lemma vm_ok_fetch_mutate (w w1 : World) (v v1 : VM) (inst : Z) :
  fetch_mutate w v = Done (inst, w1, v1) → vm_ok v → vm_ok v1.
Proof.
  intros H Hv. destruct (fetch_mutate_inv _ _ _ _ _ H) as (_ & _ & _ & _ & Hr).
  destruct Hr as [->|(r & Hr & ->)]; [done|by apply vm_ok_set_reg].
Qed.

(** The world and the machine as the switch finds them. *)
Lemma world_ok_spend (x y : Z) (w w1 : World) :
  world_ok w → pond w1 = pond w → statCounters w1 = statCounters w →
  world_ok (poke (fun c => set_energy (u64 (energy c - 1)) c) (x, y) w1).
Proof.
  intros [Hp Hs] Hp1 Hs1. split.
  - apply pond_ok_poke_len; [by rewrite Hp1|done].
  - red. pond_simpl. by rewrite Hs1.
Qed.


(** The answer of the access gate depends on the world only through the
    generator and the target's first genome word and parent id. *)
Lemma accessAllowed_indep (c2 : cellptr) (g s : Z) (w1 w2 u1 : World) (b : bool) :
  prngState w2 = prngState w1 →
  genome (pond w2 c2) = genome (pond w1 c2) →
  parentID (pond w2 c2) = parentID (pond w1 c2) →
  accessAllowed c2 g s w1 = Done (b, u1) →
  accessAllowed c2 g s w2
  = Done (b, set_prngState (getRandom (prngState w2)).2 w2).
Proof.
  unfold accessAllowed, draw. intros -> -> -> H.
  destruct (getRandom (prngState w1)) as [r st]. cbn [snd].
  destruct (rd (genome (pond w1 c2)) 0); cbn [mbind outcome_bind] in *;
    try discriminate.
  destruct (rd BITS_IN_FOURBIT_WORD _); cbn [mbind outcome_bind] in *;
    try discriminate.
  by injection H as -> _.
Qed.

Lemma do_share_starved (x y : Z) (w w' : World) (v : VM) :
  do_share x y w v = Done w' →
  energy (pond w (x, y)) = 0 →
  energy (pond w (getNeighbor x y (facing v))) = 0 ∨
  (∃ u, accessAllowed (getNeighbor x y (facing v)) (reg v) 1 w = Done (false, u)) →
  energy (pond w' (x, y)) = 0.
Proof.
  unfold do_share. set (nb := getNeighbor x y (facing v)). intros H He Hc.
  destruct (accessAllowed nb (reg v) 1 w) as [[b w1]| |] eqn:Hacc;
    cbn [mbind outcome_bind] in H; try discriminate.
  apply accessAllowed_inv in Hacc as Hw1. subst w1.
  destruct b.
  - destruct Hc as [Hn|[u Hu]]; [|discriminate].
    set (w2 := if 2 <? _ then _ else _) in *.
    assert (Hp2 : pond w2 = pond w) by (subst w2; by destruct (2 <? _)).
    injection H as <-.
    destruct (decide (nb = (x, y))) as [Heq|Hne].
    + rewrite Heq. pond_simpl. cbn [energy set_energy].
      rewrite !Hp2, He. rewrite ?fn_lookup_alter. reflexivity.
    + pond_simpl. cbn [energy set_energy]. rewrite !Hp2, He, Hn.
      rewrite ?fn_lookup_alter. cbn [energy set_energy]. reflexivity.
  - injection H as <-. exact He.
Qed.

(** An instruction other than a SHARE that succeeds against a neighbor
    with energy leaves a cell without energy without energy. *)
Lemma dispatch_starved (x y inst : Z) (w w' : World) (v v' : VM) (c : bool) :
  0 ≤ inst < 16 →
  dispatch x y inst w v = Done (w', v', c) →
  energy (pond w (x, y)) = 0 →
  (inst = 14 →
     energy (pond w (getNeighbor x y (facing v))) = 0 ∨
     ∃ u, accessAllowed (getNeighbor x y (facing v)) (reg v) 1 w
          = Done (false, u)) →
  energy (pond w' (x, y)) = 0.
Proof.
  intros Hi H He Hc.
  destruct (dispatch_world _ _ _ _ _ _ _ _ Hi H) as (Hg & Hk & Hs & Hn).
  destruct (decide (inst = 6 ∨ inst = 12)) as [E|E].
  { destruct (Hg E) as [g ->]. by pond_simpl. }
  destruct (decide (inst = 13)) as [E13|E13].
  { by apply (do_kill_frame x y w w' v); auto. }
  destruct (decide (inst = 14)) as [E14|E14].
  { apply (do_share_starved x y w w' v); auto. }
  rewrite Hn; [done|lia..].
Qed.

Lemma parentID_poke_energy (f : Z → Z) (p q : cellptr) (w : World) :
  parentID (pond (poke (fun c => set_energy (f (energy c)) c) p w) q)
  = parentID (pond w q).
Proof. destruct (decide (p = q)) as [<-|?]; by pond_simpl. Qed.

Lemma genome_poke_spend (f : Z → Z) (p q : cellptr) (w : World) :
  genome (pond (poke (fun c => set_energy (f (energy c)) c) p w) q)
  = genome (pond w q).
Proof. destruct (decide (p = q)) as [<-|?]; by pond_simpl. Qed.

(** C4 (amended).  A cell that starts its execution with energy 1 spends
    that unit on its first instruction.  Unless that instruction is a
    SHARE that is granted against a neighbor holding energy, the cell's
    energy is then 0 and the execution loop makes exactly one iteration. *)
Theorem one_energy_unit_one_step (fuel : nat) (x y : Z) (w : World) (v0 : VM) :
  world_ok w →
  length (outputBuf v0) = Z.to_nat POND_DEPTH_SYSWORDS →
  length (loopStack_wordPtr v0) = Z.to_nat POND_DEPTH →
  length (loopStack_shiftPtr v0) = Z.to_nat POND_DEPTH →
  energy (pond w (x, y)) = 1 →
  ∃ v inst w1 v1,
    vm_reset x y w v0 = Done v ∧
    fetch_mutate w v = Done (inst, w1, v1) ∧
    let nb := getNeighbor x y (facing v1) in
    ((inst = 14 →
        energy (pond w nb) = 0 ∨
        ∃ u, accessAllowed nb (reg v1) 1 w1 = Done (false, u)) →
     ∃ w' v',
       step x y w v = Done (w', v') ∧
       energy (pond w' (x, y)) = 0 ∧
       exec_loop (S fuel) x y w v = Done (w', v', 1%nat)).
Proof.
  intros Hw Hb Hsw Hss He.
  destruct (vm_reset_Done x y w v0 (proj1 Hw) Hb Hsw Hss)
    as (v & Hr & Hv & _ & _ & _ & Hfl & Hst & _).
  destruct (fetch_mutate_Done w v Hv)
    as (inst & w1 & v1 & Hfm & Hi & Hp1 & _ & Hs1 & Hv1).
  exists v, inst, w1, v1. split; [done|]. split; [done|].
  cbn zeta. intros Hc.
  pose proof (vm_ok_fetch_mutate _ _ _ _ _ Hfm Hv) as Hv1'.
  pose proof (world_ok_spend x y w w1 Hw Hp1 Hs1) as Hw2.
  set (w2 := poke _ (x, y) w1) in Hw2.
  assert (He2 : energy (pond w2 (x, y)) = 0).
  { subst w2. pond_simpl. cbn [energy set_energy]. by rewrite Hp1, He. }
  assert (Hf1 : falseLoopDepth v1 = 0).
  { destruct Hv1 as [->|(r & _ & ->)]; done. }
  destruct (count_instruction_Done inst w2 Hi (proj2 Hw2))
    as (w3 & Hcnt & Hp3 & _ & Hr3 & Hs3).
  assert (Hw3 : world_ok w3) by (split; [by rewrite Hp3; apply Hw2|done]).
  destruct (dispatch_Done x y inst w3 v1 Hi Hw3 Hv1')
    as (w4 & v4 & c & Hd & Hw4 & Hv4).
  assert (He4 : energy (pond w4 (x, y)) = 0).
  { apply (dispatch_starved x y inst w3 w4 v1 v4 c Hi Hd).
    - by rewrite Hp3.
    - intros E. destruct (Hc E) as [Hn|[u Hu]].
      + left. rewrite Hp3.
        destruct (decide (getNeighbor x y (facing v1) = (x, y))) as [->|Hne];
          [done|].
        subst w2. pond_simpl. by rewrite Hp1.
      + right. eexists.
        apply (accessAllowed_indep _ _ _ w1 w3 u false); [by rewrite Hr3|..|done];
          rewrite Hp3; subst w2.
        * apply genome_poke_spend with (f := fun e => u64 (e - 1)).
        * apply parentID_poke_energy with (f := fun e => u64 (e - 1)). }
  assert (Hstep : ∃ v', step x y w v = Done (w4, v')).
  { rewrite (step_unfold x y inst w w1 v v1 Hfm). fold w2.
    unfold execute, nz. rewrite Hf1. cbn [Z.eqb negb].
    rewrite Hcnt. cbn [mbind outcome_bind]. rewrite Hd.
    cbn [mbind outcome_bind]. destruct c; [by eexists|].
    destruct (advance_Done x y w4 v4 (proj1 Hw4) Hv4) as (v5 & -> & _).
    cbn [mbind outcome_bind]. by eexists. }
  destruct Hstep as [v' Hstep].
  assert (Hrun : running x y w v = true).
  { unfold running, nz. by rewrite He, Hst. }
  assert (Hend : running x y w4 v' = false).
  { unfold running, nz. by rewrite He4. }
  exists w4, v'. split; [done|]. split; [done|].
  cbn [exec_loop]. rewrite Hrun, Hstep. cbn [mbind outcome_bind].
  destruct fuel; cbn [exec_loop]; by rewrite Hend.
Qed.

(** ** Mutation and the genome *)

Lemma count_instruction_inv (inst : Z) (w w' : World) :
  count_instruction inst w = Done w' → pond w' = pond w.
Proof. unfold count_instruction. intros H. inv_bind H. by injection H as <-. Qed.

Lemma execute_genome (x y inst : Z) (w w' : World) (v v' : VM) (c : bool) :
  0 ≤ inst < 16 →
  execute x y inst w v = Done (w', v', c) →
  (falseLoopDepth v ≠ 0 ∨ (inst ≠ 6 ∧ inst ≠ 12 ∧ inst ≠ 13) →
     ∀ q, genome (pond w' q) = genome (pond w q)) ∧
  (inst = 6 ∨ inst = 12 →
     ∀ q, q ≠ (x, y) → genome (pond w' q) = genome (pond w q)) ∧
  (inst = 13 →
     ∀ q, q ≠ getNeighbor x y (facing v) →
          genome (pond w' q) = genome (pond w q)).
Proof.
  intros Hi. unfold execute, nz.
  destruct (Z.eqb_spec (falseLoopDepth v) 0) as [Hz|Hnz]; cbn [negb]; intros H.
  - destruct (count_instruction inst w) as [w1| |] eqn:Hc;
      cbn [mbind outcome_bind] in H; try discriminate.
    apply count_instruction_inv in Hc.
    destruct (dispatch_genome x y inst w1 w' v v' c Hi H) as (H1 & H2 & H3).
    rewrite Hc in *. split; [|by split].
    intros [?|(? & ? & ?)]; [done|by apply H1].
  - assert (w' = w) as ->.
    { destruct (inst =? 9); [|destruct (inst =? 10)]; by injection H as <- _ _. }
    by repeat split.
Qed.

Lemma step_genome (x y inst : Z) (w w1 w' : World) (v v1 v' : VM) :
  fetch_mutate w v = Done (inst, w1, v1) →
  step x y w v = Done (w', v') →
  (falseLoopDepth v ≠ 0 ∨ (inst ≠ 6 ∧ inst ≠ 12 ∧ inst ≠ 13) →
     ∀ q, genome (pond w' q) = genome (pond w q)) ∧
  (inst = 6 ∨ inst = 12 →
     ∀ q, q ≠ (x, y) → genome (pond w' q) = genome (pond w q)) ∧
  (inst = 13 →
     ∀ q, q ≠ getNeighbor x y (facing v) →
          genome (pond w' q) = genome (pond w q)).
Proof.
  intros Hfm Hs.
  destruct (fetch_mutate_inv _ _ _ _ _ Hfm) as (Hi & Hp1 & _ & _ & Hr).
  assert (Hsame : falseLoopDepth v1 = falseLoopDepth v ∧ facing v1 = facing v).
  { destruct Hr as [->|(r & _ & ->)]; by split. }
  destruct Hsame as [Hfl Hfa].
  rewrite (step_unfold x y inst w w1 v v1 Hfm) in Hs.
  set (w2 := poke _ (x, y) w1) in Hs.
  destruct (execute x y inst w2 v1) as [[[w3 v3] c]| |] eqn:He;
    cbn [mbind outcome_bind] in Hs; try discriminate.
  assert (w' = w3) as ->.
  { destruct c; [by injection Hs as <- _|]. inv_bind Hs. by injection Hs as <- _. }
  destruct (execute_genome x y inst w2 w3 v1 v3 c Hi He) as (H1 & H2 & H3).
  assert (Hg2 : ∀ q, genome (pond w2 q) = genome (pond w q)).
  { intros q. subst w2.
    rewrite (genome_poke_spend (fun e => u64 (e - 1))). by rewrite Hp1. }
  rewrite Hfl, Hfa in *.
  split; [|split].
  - intros Hc q. rewrite <- Hg2. by apply H1.
  - intros Hc q Hq. rewrite <- Hg2. by apply H2.
  - intros Hc q Hq. rewrite <- Hg2. by apply H3.
Qed.

Lemma fetch_mutate_cases (w : World) (v : VM) :
  vm_ok v →
  let r := (getRandom (prngState w)).1 in
  let st1 := (getRandom (prngState w)).2 in
  let tmp := (getRandom st1).1 in
  let st2 := (getRandom st1).2 in
  let fetched := Z.land (Z.shiftr (currentWord v) (shiftPtr v)) 0xf in
  fetch_mutate w v =
    if Z.land r 0xffffffff <? MUTATION_RATE then
      if nz (Z.land tmp 0x80)
      then Done (Z.land tmp 0xf, set_prngState st2 w, v)
      else Done (fetched, set_prngState st2 w, set_reg (Z.land tmp 0xf) v)
    else Done (fetched, set_prngState st1 w, v).
Proof.
  intros Hv. cbn zeta. unfold fetch_mutate.
  rewrite shr_Done by apply Hv. cbn [mbind outcome_bind]. unfold draw.
  destruct (getRandom (prngState w)) as [r st]. cbn [prngState set_prngState fst snd].
  destruct (getRandom st) as [tmp st2]. cbn [fst snd].
  destruct (_ <? _); [destruct (nz _)|]; reflexivity.
Qed.

(** C10.  The random frob of an iteration never writes to the pond: it
    replaces either the instruction about to be executed or the register,
    and leaves every genome, the cached word and the rest of the machine
    as they were.  Over the whole iteration the genomes of the pond are
    unchanged unless the instruction executed is WRITEG or XCHG, which
    change the executing cell's genome only, or KILL, which changes the
    genome of the neighbor faced only.  The report leaves the pond alone
    as well, so that seeding and the offspring copy are the only other
    writers of genomes in a tick. *)
Theorem mutation_leaves_genome (x y : Z) (w : World) (v : VM) :
  world_ok w → vm_ok v →
  ∃ inst w1 v1 w' v',
    fetch_mutate w v = Done (inst, w1, v1) ∧
    step x y w v = Done (w', v') ∧
    let r := (getRandom (prngState w)).1 in
    let tmp := (getRandom (getRandom (prngState w)).2).1 in
    let fetched := Z.land (Z.shiftr (currentWord v) (shiftPtr v)) 0xf in
    pond w1 = pond w ∧
    (Z.land r 0xffffffff < MUTATION_RATE → Z.land tmp 0x80 ≠ 0 →
       inst = Z.land tmp 0xf ∧ v1 = v) ∧
    (Z.land r 0xffffffff < MUTATION_RATE → Z.land tmp 0x80 = 0 →
       inst = fetched ∧ v1 = set_reg (Z.land tmp 0xf) v) ∧
    (MUTATION_RATE ≤ Z.land r 0xffffffff → inst = fetched ∧ v1 = v) ∧
    (falseLoopDepth v ≠ 0 ∨ (inst ≠ 6 ∧ inst ≠ 12 ∧ inst ≠ 13) →
       ∀ q, genome (pond w' q) = genome (pond w q)) ∧
    (inst = 6 ∨ inst = 12 →
       ∀ q, q ≠ (x, y) → genome (pond w' q) = genome (pond w q)) ∧
    (inst = 13 →
       ∀ q, q ≠ getNeighbor x y (facing v) →
            genome (pond w' q) = genome (pond w q)) ∧
    (∀ clock u, doReport clock w = Done u → pond u = pond w).
Proof.
  intros Hw Hv.
  destruct (step_Done x y w v Hw Hv) as (w' & v' & Hs & _).
  pose proof (fetch_mutate_cases w v Hv) as Hfm. cbn zeta in Hfm.
  destruct (fetch_mutate_Done w v Hv)
    as (inst & w1 & v1 & Hfm' & _ & Hp1 & _).
  exists inst, w1, v1, w', v'. split; [done|]. split; [done|].
  cbn zeta. split; [done|].
  rewrite Hfm' in Hfm. unfold nz in Hfm.
  split; [|split; [|split]].
  - intros Hr Ht. apply Z.ltb_lt in Hr. rewrite Hr in Hfm.
    apply Z.eqb_neq in Ht. rewrite Ht in Hfm. by injection Hfm as -> _ ->.
  - intros Hr Ht. apply Z.ltb_lt in Hr. rewrite Hr in Hfm.
    apply Z.eqb_eq in Ht. rewrite Ht in Hfm. by injection Hfm as -> _ ->.
  - intros Hr. apply Z.ltb_ge in Hr. rewrite Hr in Hfm.
    by injection Hfm as -> _ ->.
  - destruct (step_genome x y inst w w1 w' v v1 v' Hfm' Hs) as (H1 & H2 & H3).
    repeat (split; [assumption|]).
    intros clock u Hu. unfold doReport in Hu.
    destruct (report_row clock w) as [row| |]; [|discriminate Hu..].
    cbn [mbind outcome_bind] in Hu.
    apply (f_equal (fun o => match o with Done a => pond a | _ => pond w end))
      in Hu.
    symmetry. exact Hu.
Qed.

(** ** Seeding and the id counter *)

Lemma fill_random_Done (n : nat) (i : Z) (p : cellptr) (w : World) :
  0 ≤ i →
  i + Z.of_nat n ≤ Z.of_nat (length (genome (pond w p))) →
  ∃ w', fill_random n i p w = Done w' ∧
    (∀ q, q ≠ p → pond w' q = pond w q) ∧
    pond w' p = set_genome (genome (pond w' p)) (pond w p) ∧
    length (genome (pond w' p)) = length (genome (pond w p)) ∧
    cellIdCounter w' = cellIdCounter w ∧
    statCounters w' = statCounters w.
Proof.
  revert i w. induction n as [|n IH]; intros i w Hi Hg; cbn [fill_random].
  - eexists. split; [reflexivity|]. repeat split; try done.
    by destruct (pond w p).
  - unfold draw. destruct (getRandom (prngState w)) as [r st].
    set (w0 := set_prngState st w).
    change (pond w0) with (pond w).
    rewrite wr_Done by lia. cbn [mbind outcome_bind].
    set (w1 := poke _ p w0).
    assert (Hg1 : genome (pond w1 p) = <[Z.to_nat i := r]> (genome (pond w p)))
      by (subst w1; by pond_simpl).
    destruct (IH (i + 1) w1) as (w' & -> & Hq & Hp & Hl & Hc & Hs);
      [lia|rewrite Hg1, length_insert; lia|].
    eexists. split; [reflexivity|]. repeat split; try done.
    + intros q Hne. rewrite Hq by done. subst w1. by pond_simpl.
    + rewrite Hp. subst w1. by pond_simpl.
    + by rewrite Hl, Hg1, length_insert.
Qed.

Ltac seed_simpl :=
  repeat (progress
            (pond_simpl;
             cbn [pond cellIdCounter set_prngState set_cellIdCounter
                  ID parentID lineage generation genome set_genome set_energy
                  set_generation set_lineage set_parentID set_ID])).

(** Seeding gives the cell it picks the current value of the id counter
    and advances the counter afterwards. *)
Lemma seed_assigns_counter (w : World) :
  pond_ok (pond w) →
  ∃ p w',
    seed w = Done w' ∧
    in_pond p.1 p.2 ∧
    ID (pond w' p) = cellIdCounter w ∧
    parentID (pond w' p) = 0 ∧
    lineage (pond w' p) = cellIdCounter w ∧
    generation (pond w' p) = 0 ∧
    cellIdCounter w' = u64 (cellIdCounter w + 1) ∧
    (∀ q, q ≠ p → pond w' q = pond w q).
Proof.
  intros Hp. unfold seed, draw.
  destruct (getRandom (prngState w)) as [r1 st1]. cbn [prngState set_prngState].
  destruct (getRandom st1) as [r2 st2]. cbn [prngState set_prngState].
  set (p := (r1 mod POND_SIZE_X, r2 mod POND_SIZE_Y)).
  rewrite !prngState_poke. cbn [prngState cellIdCounter set_prngState].
  destruct (getRandom st2) as [r3 st3].
  match goal with
  | |- context [fill_random ?n 0 p ?W] =>
      set (w4 := W);
      destruct (fill_random_Done n 0 p w4) as (w' & -> & Hq & Hpp & _ & Hc & _)
  end.
  { lia. }
  { subst w4. seed_simpl. rewrite (Hp p). lia. }
  cbn [mbind outcome_bind]. exists p. eexists. split; [reflexivity|].
  split.
  { subst p. cbn [fst snd]. unfold in_pond, POND_SIZE_X, POND_SIZE_Y. lia. }
  cbn [pond cellIdCounter set_cellIdCounter]. rewrite Hpp, Hc.
  subst w4. seed_simpl.
  repeat split.
  intros q Hne. rewrite Hq by done. by seed_simpl.
Qed.

(** C2.  The offspring commit assigns the incremented id counter and
    leaves the counter at the value it assigned; the seeding (and the KILL)
    that follows assigns the counter's value before incrementing it.  In
    two consecutive ticks of [nursery_world], clock 99 and clock 100, the
    offspring placed at (16, 358) and the cell seeded at (331, 315) both
    receive id 3. *)
Theorem cell_ids_collide :
  match run 1 100 0 98 nursery_world fresh_vm,
        run 2 100 0 98 nursery_world fresh_vm with
  | Done (c1, w1, v1), Done (c2, w2, v2) =>
      c1 = 99 ∧ c2 = 100 ∧
      cellIdCounter nursery_world = 2 ∧
      ID (pond w1 (16, 358)) = 3 ∧
      parentID (pond w1 (16, 358)) = ID (pond nursery_world (17, 358)) ∧
      generation (pond w1 (16, 358)) = 1 ∧
      cellIdCounter w1 = 3 ∧
      energy (pond w1 (331, 315)) = 0 ∧
      energy (pond w2 (331, 315)) = 687 ∧
      parentID (pond w2 (331, 315)) = 0 ∧
      ID (pond w2 (331, 315)) = 3 ∧
      ID (pond w2 (16, 358)) = 3 ∧
      cellIdCounter w2 = 4
  | _, _ => False
  end.
Proof. vm_compute. repeat split. Qed.


(** C4, as stated, fails: the cell at (10, 20) of [sharing_world] starts
    with energy 1, its first instruction is a SHARE that is granted against
    the neighbor at (9, 20), which holds 10; the cell leaves that iteration
    with energy 5 and the loop makes a second iteration. *)
Lemma one_energy_unit_two_steps :
  energy (pond sharing_world (10, 20)) = 1 ∧
  match vm_reset 10 20 sharing_world fresh_vm with
  | Done v =>
      match step 10 20 sharing_world v, exec_loop 10 10 20 sharing_world v with
      | Done (w1, v1), Done (w', v', n) =>
          energy (pond w1 (10, 20)) = 5 ∧ energy (pond w1 (9, 20)) = 5 ∧
          running 10 20 w1 v1 = true ∧
          n = 2%nat ∧ n ≠ 1%nat
      | _, _ => False
      end
  | _ => False
  end.
Proof. vm_compute. repeat split. intros [=]. Qed.

(** ** The report row *)

(** C1.  A report row is made of 26 comma-separated fields, not 25: the
    first [printf] ends its eight integers with a comma and every
    frequency is printed with a leading comma, so the ninth field is
    empty.  The eight integers come first (clock, total energy, active
    cells, viable replicators, maximal generation, viable cells replaced,
    killed and shared), then the empty field, then the sixteen
    per-instruction frequencies and the metabolism, each the quotient by
    [cellExecutions] or 0.0 when that is not positive. *)
Theorem report_row_fields (clock : Z) (w : World) :
  stats_ok w →
  ∃ row,
    report_row clock w = Done row ∧
    let totals := scan_pond (pond w) in
    let s := statCounters w in
    fields row =
      [[U64 clock]; [U64 totals.1.1.2]; [U64 totals.1.1.1]; [U64 totals.1.2];
       [U64 totals.2]; [U64 (viableCellsReplaced s)];
       [U64 (viableCellsKilled s)]; [U64 (viableCellShares s)]; []]
      ++ map (fun e => [F4 (per_execution s e)]) (instructionExecutions s)
      ++ [[F4 (per_execution s (foldl dbl_add 0 (instructionExecutions s)))]] ∧
    length (fields row) = 26%nat ∧
    fields row !! 8%nat = Some [].
Proof.
  intros Hs. red in Hs. unfold report_row. cbn zeta.
  generalize (scan_pond (pond w)). intros totals.
  destruct (statCounters w) as [es ce vr vk vs]. cbn [instructionExecutions] in *.
  do 16 (destruct es as [|? es]; [discriminate Hs|]).
  destruct es; [|discriminate Hs].
  cbn [report_frequencies rd mbind outcome_bind instructionExecutions].
  eexists. split; [reflexivity|].
  cbn [fields fields_from app map foldl instructionExecutions].
  split; [reflexivity|]. split; reflexivity.
Qed.

(** ** The scenarios are well formed *)

Lemma pond_ok_initial : pond_ok (fun _ => initial_cell).
Proof. intros q. reflexivity. Qed.

Lemma pond_ok_insert (p : Pond) (q : cellptr) (c : Cell) :
  pond_ok p → cell_ok c → pond_ok (<[q := c]> p).
Proof.
  intros Hp Hc r. destruct (decide (q = r)) as [<-|Hne].
  - by rewrite fn_lookup_insert.
  - by rewrite fn_lookup_insert_ne.
Qed.

Lemma world_ok_loopy : world_ok loopy_world.
Proof.
  split; [|reflexivity]. apply pond_ok_insert; [apply pond_ok_initial|reflexivity].
Qed.

Lemma world_ok_lonely : world_ok lonely_world.
Proof.
  split; [|reflexivity]. apply pond_ok_insert; [apply pond_ok_initial|reflexivity].
Qed.

Lemma world_ok_sharing : world_ok sharing_world.
Proof.
  split; [|reflexivity].
  repeat (apply pond_ok_insert; [|reflexivity]). apply pond_ok_initial.
Qed.

Lemma world_ok_nursery : world_ok nursery_world.
Proof.
  split; [|reflexivity].
  repeat (apply pond_ok_insert; [|reflexivity]). apply pond_ok_initial.
Qed.

Lemma vm_ok_full_stack : vm_ok full_stack_vm.
Proof.
  constructor; try reflexivity; try (vm_compute; repeat split; congruence).
  intros i wp sp Hi. cbn [full_stack_vm loopStack_wordPtr loopStack_shiftPtr].
  rewrite !lookup_replicate. intros [-> _] [-> _].
  vm_compute. repeat split; congruence.
Qed.

(** ** The theorems at the scenarios *)

Lemma accessAllowed_spec_witness :
  cell_ok (pond sharing_world (9, 20)) ∧
  ∃ w', accessAllowed (9, 20) 0 1 sharing_world = Done (true, w').
Proof.
  assert (Hok : cell_ok (pond sharing_world (9, 20))) by reflexivity.
  split; [exact Hok|].
  destruct (accessAllowed_spec sharing_world (9, 20) 0 1 Hok)
    as (g0 & b & _ & Hacc & _ & _ & _ & _ & Hp).
  rewrite Hacc, (Hp eq_refl). eexists. reflexivity.
Defined.

Lemma share_granted_witness :
  in_pond 10 20 ∧
  0 ≤ facing fresh_vm < 4 ∧
  word (energy (pond sharing_world (10, 20))) ∧
  word (energy (pond sharing_world (getNeighbor 10 20 (facing fresh_vm)))) ∧
  accessAllowed (getNeighbor 10 20 (facing fresh_vm)) (reg fresh_vm) 1
    sharing_world
  = Done (true, set_prngState (42, 109052775) sharing_world) ∧
  ∃ w', dispatch 10 20 0xe sharing_world fresh_vm = Done (w', fresh_vm, false) ∧
        energy (pond w' (10, 20)) = 6 ∧ energy (pond w' (9, 20)) = 5.
Proof.
  assert (H1 : in_pond 10 20) by (vm_compute; repeat split; congruence).
  assert (H2 : 0 ≤ facing fresh_vm < 4) by (vm_compute; repeat split; congruence).
  assert (H3 : word (energy (pond sharing_world (10, 20))))
    by (vm_compute; repeat split; congruence).
  assert (H4 : word (energy (pond sharing_world (getNeighbor 10 20 (facing fresh_vm)))))
    by (vm_compute; repeat split; congruence).
  assert (H5 : accessAllowed (getNeighbor 10 20 (facing fresh_vm)) (reg fresh_vm) 1
                 sharing_world
               = Done (true, set_prngState (42, 109052775) sharing_world))
    by (vm_compute; reflexivity).
  repeat (split; [assumption|]).
  destruct (share_granted 10 20 sharing_world _ fresh_vm H1 H2 H3 H4 H5)
    as (w' & Hd & Hn & Hs & _).
  change (getNeighbor 10 20 (facing fresh_vm)) with (9, 20) in Hn, Hs.
  exists w'. split; [exact Hd|].
  rewrite Hs, Hn. split; reflexivity.
Defined.

Lemma kill_spec_witness :
  in_pond 10 20 ∧
  0 ≤ facing fresh_vm < 4 ∧
  cell_ok (pond sharing_world (getNeighbor 10 20 (facing fresh_vm))) ∧
  word (energy (pond sharing_world (10, 20))) ∧
  accessAllowed (getNeighbor 10 20 (facing fresh_vm)) (reg fresh_vm) 0
    sharing_world
  = Done (true, set_prngState (42, 109052775) sharing_world) ∧
  ∃ w', dispatch 10 20 0xd sharing_world fresh_vm = Done (w', fresh_vm, false) ∧
        ID (pond w' (9, 20)) = 8 ∧ parentID (pond w' (9, 20)) = 0 ∧
        generation (pond w' (9, 20)) = 0 ∧ energy (pond w' (9, 20)) = 10 ∧
        cellIdCounter w' = 9.
Proof.
  assert (H1 : in_pond 10 20) by (vm_compute; repeat split; congruence).
  assert (H2 : 0 ≤ facing fresh_vm < 4) by (vm_compute; repeat split; congruence).
  assert (H3 : cell_ok (pond sharing_world (getNeighbor 10 20 (facing fresh_vm))))
    by reflexivity.
  assert (H4 : word (energy (pond sharing_world (10, 20))))
    by (vm_compute; repeat split; congruence).
  assert (H5 : accessAllowed (getNeighbor 10 20 (facing fresh_vm)) (reg fresh_vm) 0
                 sharing_world
               = Done (true, set_prngState (42, 109052775) sharing_world))
    by (vm_compute; reflexivity).
  repeat (split; [assumption|]).
  destruct (kill_spec 10 20 sharing_world _ fresh_vm true H1 H2 H3 H4 H5)
    as (w' & Hd & Hg & _).
  destruct (Hg eq_refl) as (_ & _ & Hid & Hc & Hp & _ & Hgen & He & _).
  change (getNeighbor 10 20 (facing fresh_vm)) with (9, 20) in *.
  exists w'. split; [exact Hd|].
  rewrite Hid, Hc, Hp, Hgen, He. repeat split.
Defined.

Lemma vm_indices_in_bounds_witness :
  world_ok sharing_world ∧
  length (outputBuf fresh_vm) = Z.to_nat POND_DEPTH_SYSWORDS ∧
  length (loopStack_wordPtr fresh_vm) = Z.to_nat POND_DEPTH ∧
  length (loopStack_shiftPtr fresh_vm) = Z.to_nat POND_DEPTH ∧
  ∃ v, vm_reset 10 20 sharing_world fresh_vm = Done v ∧ vm_ok v ∧
       exec_loop 5 10 20 sharing_world v ≠ Fault.
Proof.
  split; [exact world_ok_sharing|]. do 3 (split; [reflexivity|]).
  destruct (vm_indices_in_bounds 3 5 10 20 sharing_world fresh_vm
              world_ok_sharing eq_refl eq_refl eq_refl)
    as (v & Hr & Hv & _ & Hl).
  exists v. split; [exact Hr|]. split; [exact Hv|exact Hl].
Defined.

Lemma commit_spec_witness :
  in_pond 17 358 ∧
  0 ≤ facing emitting_vm < 4 ∧
  pond_ok (pond nursery_world) ∧
  length (outputBuf emitting_vm) = Z.to_nat POND_DEPTH_SYSWORDS ∧
  ∃ w', commit 17 358 nursery_world emitting_vm = Done w' ∧
        ID (pond w' (16, 358)) = 3 ∧ parentID (pond w' (16, 358)) = 1 ∧
        lineage (pond w' (16, 358)) = 1 ∧ generation (pond w' (16, 358)) = 1 ∧
        genome (pond w' (16, 358)) = outputBuf emitting_vm ∧
        energy (pond w' (16, 358)) = 700.
Proof.
  assert (H1 : in_pond 17 358) by (vm_compute; repeat split; congruence).
  assert (H2 : 0 ≤ facing emitting_vm < 4)
    by (vm_compute; repeat split; congruence).
  pose proof (proj1 world_ok_nursery) as H3.
  assert (H4 : length (outputBuf emitting_vm) = Z.to_nat POND_DEPTH_SYSWORDS)
    by reflexivity.
  repeat (split; [assumption|]).
  destruct (commit_spec 17 358 nursery_world emitting_vm H1 H2 H3 H4)
    as (b0 & granted & w' & Hb & Hc & Ha & Hy & _).
  change (getNeighbor 17 358 (facing emitting_vm)) with (16, 358) in *.
  injection Hb as <-.
  assert (Hatt : Z.land 0xfffffffffffffff0 0xff ≠ 0xff ∧
                 energy (pond nursery_world (16, 358)) ≠ 0)
    by (vm_compute; split; congruence).
  specialize (Ha Hatt). vm_compute in Ha. injection Ha as <-.
  destruct (Hy (conj Hatt eq_refl)) as (Hid & _ & Hp & Hl & Hg & Hge & He & _).
  exists w'. split; [exact Hc|].
  rewrite Hid, Hp, Hl, Hg, Hge, He. repeat split.
Defined.


Lemma one_energy_unit_one_step_witness :
  world_ok lonely_world ∧
  length (outputBuf fresh_vm) = Z.to_nat POND_DEPTH_SYSWORDS ∧
  length (loopStack_wordPtr fresh_vm) = Z.to_nat POND_DEPTH ∧
  length (loopStack_shiftPtr fresh_vm) = Z.to_nat POND_DEPTH ∧
  energy (pond lonely_world (10, 20)) = 1 ∧
  ∃ v w' v', vm_reset 10 20 lonely_world fresh_vm = Done v ∧
             exec_loop 6 10 20 lonely_world v = Done (w', v', 1%nat) ∧
             energy (pond w' (10, 20)) = 0.
Proof.
  split; [exact world_ok_lonely|]. do 4 (split; [reflexivity|]).
  destruct (one_energy_unit_one_step 5 10 20 lonely_world fresh_vm
              world_ok_lonely eq_refl eq_refl eq_refl eq_refl)
    as (v & inst & w1 & v1 & Hr & Hfm & H).
  vm_compute in Hr. injection Hr as <-.
  vm_compute in Hfm. injection Hfm as <- <- <-.
  destruct H as (w' & v' & _ & He & Hl); [intros [=]|].
  eexists. exists w', v'. split; [reflexivity|]. split; [exact Hl|exact He].
Defined.

Lemma mutation_leaves_genome_witness :
  world_ok loopy_world ∧ vm_ok full_stack_vm ∧
  ∃ w' v', step 10 20 loopy_world full_stack_vm = Done (w', v') ∧
           ∀ q, genome (pond w' q) = genome (pond loopy_world q).
Proof.
  split; [exact world_ok_loopy|]. split; [exact vm_ok_full_stack|].
  destruct (mutation_leaves_genome 10 20 loopy_world full_stack_vm
              world_ok_loopy vm_ok_full_stack)
    as (inst & w1 & v1 & w' & v' & Hfm & Hs & _ & _ & _ & _ & Hg & _).
  vm_compute in Hfm. injection Hfm as <- _ _.
  exists w', v'. split; [exact Hs|].
  apply Hg. right. repeat split; intros [=].
Defined.

Lemma report_row_fields_witness :
  stats_ok (initial_world 42) ∧
  ∃ row, report_row 200000 (initial_world 42) = Done row ∧
         length (fields row) = 26%nat ∧ fields row !! 8%nat = Some [].
Proof.
  assert (H : stats_ok (initial_world 42)) by reflexivity.
  split; [exact H|].
  destruct (report_row_fields 200000 (initial_world 42) H)
    as (row & Hr & _ & Hl & He).
  exists row. split; [exact Hr|]. split; [exact Hl|exact He].
Defined.

(* ======================================================================= *)
(** * Further properties of the program                                      *)
(* ======================================================================= *)

(** ** The torus *)

(** X1.  The neighbor of a cell of the pond in any of the four directions
    is a cell of the pond other than the cell itself, one column or one row
    away modulo the size of the pond; any other direction yields the cell
    itself. *)
Theorem getNeighbor_torus (x y dir : Z) :
  in_pond x y →
  in_pond (getNeighbor x y dir).1 (getNeighbor x y dir).2 ∧
  (0 ≤ dir < 4 → getNeighbor x y dir ≠ (x, y)) ∧
  (¬ 0 ≤ dir < 4 → getNeighbor x y dir = (x, y)) ∧
  getNeighbor x y N_LEFT = ((x - 1) mod POND_SIZE_X, y) ∧
  getNeighbor x y N_RIGHT = ((x + 1) mod POND_SIZE_X, y) ∧
  getNeighbor x y N_UP = (x, (y - 1) mod POND_SIZE_Y) ∧
  getNeighbor x y N_DOWN = (x, (y + 1) mod POND_SIZE_Y).
Proof.
  intros Hxy. split; [by apply getNeighbor_in_pond|].
  split; [by apply getNeighbor_ne|].
  destruct Hxy as [Hx Hy]. unfold POND_SIZE_X, POND_SIZE_Y in *.
  split.
  { intros Hd. unfold getNeighbor.
    destruct dir as [|[[?|?|]|[?|?|]|]|?]; try reflexivity; lia. }
  unfold getNeighbor, N_LEFT, N_RIGHT, N_UP, N_DOWN, nz, POND_SIZE_X,
    POND_SIZE_Y.
  split_tests; cbn [negb]; repeat split; f_equal; lia.
Qed.

(** X2.  Opposite directions cancel: going left then right, right then
    left, up then down or down then up from a cell of the pond leads back
    to it, also across the edges. *)
Theorem getNeighbor_opposite (x y : Z) :
  in_pond x y →
  let go d p := getNeighbor p.1 p.2 d in
  go N_RIGHT (go N_LEFT (x, y)) = (x, y) ∧
  go N_LEFT (go N_RIGHT (x, y)) = (x, y) ∧
  go N_DOWN (go N_UP (x, y)) = (x, y) ∧
  go N_UP (go N_DOWN (x, y)) = (x, y).
Proof.
  intros [Hx Hy]. unfold POND_SIZE_X, POND_SIZE_Y in *. cbn zeta.
  unfold getNeighbor, N_LEFT, N_RIGHT, N_UP, N_DOWN, nz, POND_SIZE_X,
    POND_SIZE_Y. cbn [fst snd].
  repeat split.
  all: repeat match goal with
         | |- context [if negb (?a =? ?b) then _ else _] =>
             destruct (Z.eqb_spec a b); cbn [negb fst snd]
         | |- context [if ?a <? ?b then _ else _] =>
             destruct (Z.ltb_spec a b); cbn [fst snd]
         end; cbn [fst snd] in *; f_equal; lia.
Qed.

(** ** The generator *)

Lemma lxor_word (a b : Z) : word a → word b → word (Z.lxor a b).
Proof.
  unfold word. intros Ha Hb.
  assert (Hn : 0 ≤ Z.lxor a b) by (apply Z.lxor_nonneg; lia).
  split; [done|].
  apply (Z.bounded_iff_bits_nonneg 64); [lia|done|].
  intros l Hl. rewrite Z.lxor_spec.
  rewrite (proj1 (Z.bounded_iff_bits_nonneg 64 a ltac:(lia) ltac:(lia))) by lia.
  rewrite (proj1 (Z.bounded_iff_bits_nonneg 64 b ltac:(lia) ltac:(lia))) by lia.
  reflexivity.
Qed.

Lemma shiftr_word (a k : Z) : word a → 0 ≤ k → word (Z.shiftr a k).
Proof.
  unfold word. intros Ha Hk. rewrite Z.shiftr_div_pow2 by done.
  assert (0 < 2 ^ k) by (apply Z.pow_pos_nonneg; lia).
  split.
  - apply Z.div_pos; lia.
  - apply Z.le_lt_trans with a; [|lia].
    apply Z.div_le_upper_bound; [lia|]. nia.
Qed.

(** A word that equals itself shifted left by 23 bits is zero. *)
Lemma shift_fixpoint_zero (x : Z) :
  word x → Z.lxor x (u64 (Z.shiftl x 23)) = 0 → x = 0.
Proof.
  intros Hx H. apply Z.lxor_eq in H.
  apply Z.bits_inj'. intros n Hn. rewrite Z.bits_0.
  induction (Z.lt_wf 0 n) as [i _ IH].
  rewrite H. unfold u64.
  rewrite Z.testbit_mod_pow2 by lia.
  destruct (i <? 64); [|reflexivity]. cbn [andb].
  rewrite Z.shiftl_spec by done.
  destruct (decide (i < 23)) as [Hlt|Hge].
  - apply Z.testbit_neg_r. lia.
  - apply IH; lia.
Qed.

(** A nonzero word xored with itself shifted right by 17 bits, and then
    with a zero word, is nonzero. *)
Lemma shiftr_xor_nonzero (x : Z) :
  word x → x ≠ 0 → Z.lxor x (Z.shiftr x 17) ≠ 0.
Proof.
  intros Hx Hne H. red in Hx.
  assert (Hpos : 0 < x) by lia.
  pose proof (Z.bit_log2 x Hpos) as Hb.
  apply (f_equal (fun z => Z.testbit z (Z.log2 x))) in H.
  rewrite Z.lxor_spec, Hb, Z.bits_0 in H.
  rewrite Z.shiftr_spec in H by apply Z.log2_nonneg.
  rewrite Z.bits_above_log2 in H; [discriminate|lia|lia].
Qed.

Lemma word_high_bits (g i : Z) : word g → 64 ≤ i → Z.testbit g i = false.
Proof.
  intros Hg Hi. red in Hg.
  apply (proj1 (Z.bounded_iff_bits_nonneg 64 g ltac:(lia) ltac:(lia))); [lia|done].
Qed.

Lemma dotb_fold_lxor (l : list Z) (a b y : Z) :
  foldr (fun i acc => xorb (Z.testbit (Z.lxor a b) i && Z.testbit y i) acc)
    false l
  = xorb
      (foldr (fun i acc => xorb (Z.testbit a i && Z.testbit y i) acc) false l)
      (foldr (fun i acc => xorb (Z.testbit b i && Z.testbit y i) acc) false l).
Proof.
  induction l as [|i l IH]; [done|]. cbn [foldr]. rewrite IH, Z.lxor_spec.
  generalize (foldr (fun i acc => xorb (Z.testbit a i && Z.testbit y i) acc)
                false l)
    (foldr (fun i acc => xorb (Z.testbit b i && Z.testbit y i) acc) false l).
  intros p q.
  by destruct (Z.testbit a i), (Z.testbit b i), (Z.testbit y i), p, q.
Qed.

Lemma dotb_lxor (a b y : Z) :
  dotb (Z.lxor a b) y = xorb (dotb a y) (dotb b y).
Proof. apply dotb_fold_lxor. Qed.

Lemma dotb_0 (y : Z) : dotb 0 y = false.
Proof.
  unfold dotb. induction (seqZ 0 64) as [|i l IH]; [done|].
  cbn [foldr]. by rewrite IH, Z.bits_0.
Qed.

Lemma dotb_pow2 (k y : Z) : 0 ≤ k < 64 → dotb (2 ^ k) y = Z.testbit y k.
Proof.
  intros Hk. unfold dotb.
  assert (H : ∀ l : list Z, NoDup l →
            foldr (fun i acc => xorb (Z.testbit (2 ^ k) i && Z.testbit y i) acc)
              false l
            = if decide (k ∈ l) then Z.testbit y k else false).
  { induction l as [|i l IH]; intros Hl; [done|].
    apply list.NoDup_cons in Hl as [Hi Hl]. cbn [foldr]. rewrite (IH Hl).
    rewrite Z.pow2_bits_eqb by lia.
    destruct (Z.eqb_spec k i) as [->|Hne].
    - rewrite (decide_False (P := i ∈ l)) by done.
      rewrite decide_True by left. by destruct (Z.testbit y i).
    - destruct (decide (k ∈ l)) as [Hin|Hin].
      + rewrite (decide_True (P := k ∈ i :: l)) by (by right). done.
      + rewrite (decide_False (P := k ∈ i :: l)); [done|].
        intros [?|?]%elem_of_cons; done. }
  rewrite H by apply NoDup_seqZ.
  rewrite decide_True; [done|]. apply elem_of_seqZ. lia.
Qed.

Lemma dotb_comb (s y : Z) :
  (∀ j, 0 ≤ j < 64 → dotb (stuck_row j) y = false) →
  dotb (stuck_comb s) y = false.
Proof.
  intros H. unfold stuck_comb.
  assert (G : ∀ l : list Z, (∀ j, j ∈ l → 0 ≤ j < 64) →
            dotb (foldr (fun j acc => if Z.testbit s j
                                      then Z.lxor (stuck_row j) acc else acc)
                    0 l) y = false).
  { induction l as [|j l IH]; intros Hl; cbn [foldr]; [apply dotb_0|].
    assert (Hr : dotb (foldr (fun j acc => if Z.testbit s j
                                then Z.lxor (stuck_row j) acc else acc) 0 l) y
                 = false).
    { apply IH. intros k Hk. apply Hl. by right. }
    destruct (Z.testbit s j); [|done].
    rewrite dotb_lxor, Hr, H; [done|]. apply Hl. by left. }
  apply G. intros j Hj. apply elem_of_seqZ in Hj. lia.
Qed.

Lemma stuck_row_spec (j y : Z) :
  word y → 0 ≤ j < 64 →
  Z.testbit (stuck_map y) j = dotb (stuck_row j) y.
Proof.
  intros Hy Hj. unfold stuck_map, stuck_row, u64.
  rewrite !dotb_lxor.
  rewrite !Z.lxor_spec, !Z.shiftr_spec, !Z.lxor_spec by lia.
  rewrite !Z.testbit_mod_pow2, !Z.shiftl_spec by lia.
  rewrite dotb_pow2 by lia.
  replace (j + 17 - 23) with (j - 6) by lia.
  destruct (Z.leb_spec 23 j) as [H23|H23];
    destruct (Z.leb_spec j 46) as [H46|H46];
    destruct (Z.leb_spec 6 j) as [H6|H6];
    destruct (Z.leb_spec j 37) as [H37|H37]; try lia; cbn [andb];
    rewrite ?dotb_pow2, ?dotb_0 by lia;
    repeat match goal with
      | |- context [?a <? 64] => destruct (Z.ltb_spec a 64); try lia
      end; cbn [andb];
    rewrite ?(Z.testbit_neg_r y (j - 23)), ?(Z.testbit_neg_r y (j - 6)),
      ?(word_high_bits y (j + 17)), ?(word_high_bits y (j + 26)) by (done || lia);
    by destruct (Z.testbit y j), (Z.testbit y (j - 23)), (Z.testbit y (j + 17)),
      (Z.testbit y (j - 6)), (Z.testbit y (j + 26)).
Qed.

Lemma stuck_inverse_ok (i : Z) :
  0 ≤ i < 64 →
  stuck_comb (default 0 (stuck_inverse !! Z.to_nat i)) = 2 ^ i.
Proof.
  intros Hi.
  assert (H : forallb (fun i => stuck_comb (default 0 (stuck_inverse !! Z.to_nat i))
                                =? 2 ^ i) (seqZ 0 64) = true)
    by (vm_compute; reflexivity).
  rewrite forallb_forall in H. apply Z.eqb_eq, H.
  apply list_elem_of_In, elem_of_seqZ. lia.
Qed.

(** The only word that [stuck_map] sends to zero is zero. *)
Lemma stuck_map_kernel (y : Z) : word y → stuck_map y = 0 → y = 0.
Proof.
  intros Hy H. apply Z.bits_inj'. intros i Hi. rewrite Z.bits_0.
  destruct (decide (i < 64)) as [Hlt|Hge]; [|apply word_high_bits; [done|lia]].
  rewrite <- (dotb_pow2 i y) by lia.
  rewrite <- (stuck_inverse_ok i) by lia.
  apply dotb_comb. intros j Hj.
  rewrite <- stuck_row_spec by done. rewrite H. apply Z.bits_0.
Qed.

(** X3.  The generator keeps its state and its output within 64 bits,
    moves the second state word into the first, and never leaves the set of
    nonzero states: from the state set up by [main], whose first word is
    13, it cannot reach the all-zero state.  The all-zero state is the
    only state in which the generator is stuck: there it returns 0 and
    stays, and every other state is followed by a different state. *)
Theorem getRandom_state (st : prng) :
  word st.1 → word st.2 →
  let r := (getRandom st).1 in
  let st' := (getRandom st).2 in
  word r ∧ word st'.1 ∧ word st'.2 ∧
  st'.1 = st.2 ∧
  r = u64 (st'.2 + st'.1) ∧
  (st ≠ (0, 0) → st' ≠ (0, 0)) ∧
  (st = (0, 0) → r = 0 ∧ st' = (0, 0)) ∧
  (st' = st ↔ st = (0, 0)).
Proof.
  destruct st as [x y]. cbn [fst snd]. intros Hx Hy. cbn zeta.
  unfold getRandom. cbn [fst snd].
  set (x' := Z.lxor x (u64 (Z.shiftl x 23))).
  assert (Hx' : word x') by (apply lxor_word; [done|apply u64_range]).
  set (z := Z.lxor (Z.lxor (Z.lxor x' y) (Z.shiftr x' 17)) (Z.shiftr y 26)).
  assert (Hz : word z).
  { subst z.
    apply lxor_word; [apply lxor_word; [by apply lxor_word|]|];
      apply shiftr_word; done || lia. }
  split; [apply u64_range|]. split; [done|]. split; [done|].
  split; [done|]. split; [done|]. split; [|split].
  - intros Hne [= Hy0 Hz0]. subst y. apply Hne. f_equal.
    subst z. rewrite Z.lxor_0_r in Hz0. change (Z.shiftr 0 26) with 0 in Hz0.
    rewrite Z.lxor_0_r in Hz0.
    destruct (decide (x' = 0)) as [E|E].
    + by apply shift_fixpoint_zero.
    + by apply shiftr_xor_nonzero in Hz0.
  - intros [= -> ->]. by vm_compute.
  - split; [|intros [= -> ->]; by vm_compute].
    intros [= Hyx Hzy]. subst y.
    assert (Hk : stuck_map x = 0).
    { transitivity (Z.lxor z x); [|rewrite Hzy; apply Z.lxor_nilpotent].
      unfold stuck_map. fold x'. subst z.
      apply Z.bits_inj'. intros n _. rewrite !Z.lxor_spec.
      by destruct (Z.testbit x' n), (Z.testbit x n),
        (Z.testbit (Z.shiftr x' 17) n), (Z.testbit (Z.shiftr x 26) n). }
    by rewrite (stuck_map_kernel x Hx Hk).
Qed.

Lemma getRandom_state_witness :
  word (13, 42).1 ∧ word (13, 42).2 ∧
  (getRandom (13, 42)).2 ≠ (0, 0) ∧ word (getRandom (13, 42)).1 ∧
  (getRandom (13, 42)).2 ≠ (13, 42).
Proof.
  assert (H1 : word (13, 42).1) by (vm_compute; split; congruence).
  assert (H2 : word (13, 42).2) by (vm_compute; split; congruence).
  split; [exact H1|]. split; [exact H2|].
  destruct (getRandom_state (13, 42) H1 H2)
    as (Hr & _ & _ & _ & _ & Hn & _ & Hs).
  split; [apply Hn; intros [=]|]. split; [exact Hr|].
  intros E. apply Hs in E. discriminate E.
Defined.

(** ** Codons *)

Lemma nibble_high_bits (val i : Z) : 0 ≤ val < 16 → 4 ≤ i → Z.testbit val i = false.
Proof.
  intros Hv Hi.
  apply (proj1 (Z.bounded_iff_bits_nonneg 4 val ltac:(lia) ltac:(lia))); [lia|done].
Qed.

(** The bits of a word after the two statements of [put_codon]. *)
Lemma codon_update_bits (g val si i : Z) :
  word g → 0 ≤ val < 16 → 0 ≤ si → si + 4 ≤ 64 → 0 ≤ i →
  Z.testbit
    (Z.lor (Z.land g (u64 (Z.lnot (u64 (Z.shiftl 0xf si)))))
       (u64 (Z.shiftl val si))) i
  = if decide (si ≤ i < si + 4) then Z.testbit val (i - si) else Z.testbit g i.
Proof.
  intros Hg Hv Hs Hs4 Hi. unfold u64.
  rewrite Z.lor_spec, Z.land_spec, !Z.testbit_mod_pow2 by lia.
  rewrite Z.lnot_spec, Z.testbit_mod_pow2, !Z.shiftl_spec by lia.
  change 0xf with (Z.ones 4). rewrite Z.testbit_ones by lia.
  destruct (Z.ltb_spec i 64) as [H64|H64]; cbn [andb].
  - destruct (decide (si ≤ i < si + 4)) as [Hin|Hout].
    + replace (0 <=? i - si) with true by (symmetry; apply Z.leb_le; lia).
      replace (i - si <? 4) with true by (symmetry; apply Z.ltb_lt; lia).
      cbn [andb negb]. by rewrite andb_false_r.
    + destruct (Z.leb_spec 0 (i - si)); cbn [andb negb].
      * replace (i - si <? 4) with false by (symmetry; apply Z.ltb_ge; lia).
        cbn [negb]. rewrite andb_true_r.
        rewrite (nibble_high_bits val (i - si)) by lia. apply orb_false_r.
      * rewrite andb_true_r, (Z.testbit_neg_r val) by lia. apply orb_false_r.
  - rewrite andb_false_r. cbn [orb].
    destruct (decide _); [lia|]. symmetry. by apply word_high_bits.
Qed.

Lemma codon_update_word (g val si : Z) :
  word g →
  word (Z.lor (Z.land g (u64 (Z.lnot (u64 (Z.shiftl 0xf si)))))
          (u64 (Z.shiftl val si))).
Proof.
  intros Hg. red in Hg.
  pose proof (u64_range (Z.lnot (u64 (Z.shiftl 0xf si)))) as H1.
  pose proof (u64_range (Z.shiftl val si)) as H2. red in H1, H2.
  assert (Hn : 0 ≤ Z.lor (Z.land g (u64 (Z.lnot (u64 (Z.shiftl 0xf si)))))
                      (u64 (Z.shiftl val si))).
  { apply Z.lor_nonneg. split; [apply Z.land_nonneg; lia|lia]. }
  split; [done|].
  apply (Z.bounded_iff_bits_nonneg 64); [lia|done|].
  intros l Hl. rewrite Z.lor_spec, Z.land_spec.
  rewrite (word_high_bits g l), (word_high_bits (u64 (Z.shiftl val si)) l);
    try done; by apply u64_range || lia.
Qed.

(** X4.  Writing a codon and reading it back: after the two statements
    that store the four-bit value [val] at word [wi], shift [si] of an
    array of words, the codon read at that position is [val], the codon at
    every other position is what it was, and the array still holds words
    only. *)
Theorem codon_round_trip (a : list Z) (wi si val : Z) :
  Forall word a →
  0 ≤ wi < Z.of_nat (length a) →
  0 ≤ si < SYSWORD_BITS → si mod 4 = 0 →
  0 ≤ val < 16 →
  ∃ b,
    put_codon a wi si val = Done b ∧
    length b = length a ∧
    Forall word b ∧
    get_codon b wi si = Done val ∧
    ∀ wj sj, 0 ≤ sj < SYSWORD_BITS → sj mod 4 = 0 → (wj, sj) ≠ (wi, si) →
             get_codon b wj sj = get_codon a wj sj.
Proof.
  intros Ha Hw Hs Hs4 Hv. unfold SYSWORD_BITS, sizeof_uintptr in *.
  destruct (rd_Done a wi Hw) as (g & Hrd & Hg).
  assert (Hgw : word g).
  { rewrite Forall_lookup in Ha. by apply (Ha (Z.to_nat wi)). }
  set (g' := Z.lor (Z.land g (u64 (Z.lnot (u64 (Z.shiftl 0xf si)))))
               (u64 (Z.shiftl val si))).
  assert (Hput : put_codon a wi si val = Done (<[Z.to_nat wi := g']> a)).
  { unfold put_codon. rewrite Hrd. cbn [mbind outcome_bind].
    rewrite !shl_Done by (unfold SYSWORD_BITS, sizeof_uintptr; lia).
    cbn [mbind outcome_bind]. rewrite wr_Done by done.
    cbn [mbind outcome_bind]. unfold rd at 1.
    destruct (decide (0 ≤ wi)); [|lia].
    rewrite list_lookup_insert_eq by lia. cbn [mbind outcome_bind].
    rewrite wr_Done by (rewrite length_insert; lia).
    by rewrite list_insert_insert_eq. }
  exists (<[Z.to_nat wi := g']> a). split; [done|].
  split; [by rewrite length_insert|]. split.
  { apply Forall_insert; [done|]. by apply codon_update_word. }
  assert (Hbits : ∀ sj, 0 ≤ sj < 64 → sj mod 4 = 0 →
            Z.land (Z.shiftr g' sj) 0xf =
            if decide (sj = si) then val else Z.land (Z.shiftr g sj) 0xf).
  { intros sj Hj Hj4. apply Z.bits_inj'. intros k Hk.
    change 0xf with (Z.ones 4).
    rewrite Z.land_spec, Z.testbit_ones, Z.shiftr_spec by lia.
    subst g'. rewrite codon_update_bits by (done || lia).
    destruct (decide (sj = si)) as [->|Hne].
    - destruct (Z.ltb_spec k 4); replace (0 <=? k) with true
        by (symmetry; apply Z.leb_le; lia); cbn [andb].
      + destruct (decide _); [|lia]. rewrite andb_true_r. f_equal. lia.
      + rewrite andb_false_r. symmetry. by apply nibble_high_bits.
    - rewrite Z.land_spec, Z.testbit_ones, Z.shiftr_spec by lia.
      destruct (Z.ltb_spec k 4); replace (0 <=? k) with true
        by (symmetry; apply Z.leb_le; lia); cbn [andb];
        [|by rewrite !andb_false_r].
      destruct (decide _); [lia|done]. }
  split.
  - unfold get_codon, rd. destruct (decide (0 ≤ wi)); [|lia].
    rewrite list_lookup_insert_eq by lia. cbn [mbind outcome_bind].
    rewrite shr_Done by (unfold SYSWORD_BITS, sizeof_uintptr; lia).
    cbn [mbind outcome_bind]. rewrite Hbits by done.
    destruct (decide _); done.
  - intros wj sj Hj Hj4 Hne. unfold get_codon, rd.
    destruct (decide (0 ≤ wj)); [|done].
    destruct (decide (Z.to_nat wi = Z.to_nat wj)) as [E|E].
    + assert (wj = wi) as -> by lia.
      rewrite list_lookup_insert_eq, Hg by lia. cbn [mbind outcome_bind].
      rewrite !shr_Done by (unfold SYSWORD_BITS, sizeof_uintptr; lia).
      cbn [mbind outcome_bind]. rewrite Hbits by done.
      destruct (decide (sj = si)) as [->|?]; [done|reflexivity].
    + by rewrite list_lookup_insert_ne.
Qed.

Lemma codon_round_trip_witness :
  Forall word [0xffffffffffffffff; 0x123456789abcdef0] ∧
  0 ≤ 1 < Z.of_nat (length [0xffffffffffffffff; 0x123456789abcdef0]) ∧
  0 ≤ 60 < SYSWORD_BITS ∧ 60 mod 4 = 0 ∧ 0 ≤ 7 < 16 ∧
  ∃ b, put_codon [0xffffffffffffffff; 0x123456789abcdef0] 1 60 7 = Done b ∧
       get_codon b 1 60 = Done 7 ∧ get_codon b 1 56 = Done 2.
Proof.
  assert (H1 : Forall word [0xffffffffffffffff; 0x123456789abcdef0])
    by (repeat constructor; vm_compute; congruence).
  assert (H2 : 0 ≤ 1 < Z.of_nat (length [0xffffffffffffffff; 0x123456789abcdef0]))
    by (vm_compute; split; congruence).
  assert (H3 : 0 ≤ 60 < SYSWORD_BITS) by (vm_compute; split; congruence).
  assert (H4 : 60 mod 4 = 0) by reflexivity.
  assert (H5 : 0 ≤ 7 < 16) by lia.
  repeat (split; [assumption|]).
  destruct (codon_round_trip _ 1 60 7 H1 H2 H3 H4 H5)
    as (b & Hp & _ & _ & Hg & Ho).
  exists b. split; [exact Hp|]. split; [exact Hg|].
  rewrite (Ho 1 56); [reflexivity|vm_compute; split; congruence|reflexivity|].
  intros [=].
Defined.

(** ** Energy and termination *)

Lemma getNeighbor_inj (x y d d' : Z) :
  in_pond x y → 0 ≤ d < 4 → 0 ≤ d' < 4 →
  getNeighbor x y d = getNeighbor x y d' → d = d'.
Proof.
  intros [Hx Hy] Hd Hd'. unfold POND_SIZE_X, POND_SIZE_Y in *.
  assert (E : d = 0 ∨ d = 1 ∨ d = 2 ∨ d = 3) by lia.
  assert (E' : d' = 0 ∨ d' = 1 ∨ d' = 2 ∨ d' = 3) by lia.
  unfold getNeighbor, nz, POND_SIZE_X, POND_SIZE_Y.
  destruct E as [-> | [-> | [-> | ->]]];
    destruct E' as [-> | [-> | [-> | ->]]]; try reflexivity;
    split_tests; cbn [negb]; intros [=]; lia.
Qed.

Lemma energies_ok_poke (f : Cell → Cell) (p : cellptr) (w : World) :
  energies_ok w → word (energy (f (pond w p))) → energies_ok (poke f p w).
Proof.
  intros Hw Hf q. destruct (decide (p = q)) as [<-|Hne].
  - by rewrite pond_poke_eq.
  - rewrite pond_poke_ne by done. apply Hw.
Qed.

Lemma energy_poke_keep (f : Cell → Cell) (p q : cellptr) (w : World) :
  (∀ c, energy (f c) = energy c) →
  energy (pond (poke f p w) q) = energy (pond w q).
Proof.
  intros Hf. destruct (decide (p = q)) as [<-|?]; pond_simpl; [apply Hf|done].
Qed.

Lemma do_kill_energy (x y : Z) (w w' : World) (v : VM) :
  do_kill x y w v = Done w' →
  energies_ok w →
  energies_ok w' ∧
  (∀ q, q ≠ (x, y) → energy (pond w' q) = energy (pond w q)) ∧
  energy (pond w' (x, y)) ≤ energy (pond w (x, y)).
Proof.
  unfold do_kill. set (nb := getNeighbor x y (facing v)). intros H Hok.
  destruct (accessAllowed nb (reg v) 0 w) as [[b w1]| |] eqn:Hacc;
    cbn [mbind outcome_bind] in H; try discriminate.
  apply accessAllowed_inv in Hacc. subst w1.
  set (w1 := set_prngState _ w) in *.
  destruct b.
  - set (w2 := if 2 <? _ then _ else _) in *.
    assert (Hp2 : pond w2 = pond w) by (subst w2; by destruct (2 <? _)).
    inv_bind H. injection H as <-. cbn [pond set_cellIdCounter].
    split; [|split]; [intros q; cbn [pond set_cellIdCounter]|intros q _|];
      rewrite !energy_poke_keep by done; rewrite Hp2; [apply Hok|done|lia].
  - change (pond w1) with (pond w) in H.
    pose proof (Hok (x, y)) as Hs. red in Hs.
    destruct (2 <? generation (pond w nb)).
    + destruct (Z.ltb_spec (energy (pond w (x, y)) / FAILED_KILL_PENALTY)
                  (energy (pond w (x, y)))) as [Ht|Ht];
        unfold FAILED_KILL_PENALTY in *; injection H as <-.
      * assert (Hu : u64 (energy (pond w (x, y)) - energy (pond w (x, y)) / 3)
                     = energy (pond w (x, y)) - energy (pond w (x, y)) / 3)
          by (apply u64_small; red; lia).
        split; [|split].
        -- apply energies_ok_poke; [done|]. cbn [energy set_energy].
           rewrite Hu. red. change (pond w1) with (pond w). lia.
        -- intros q Hq. by pond_simpl.
        -- pond_simpl. cbn [energy set_energy]. rewrite Hu. lia.
      * split; [|split].
        -- apply energies_ok_poke; [done|]. cbn. red. lia.
        -- intros q Hq. by pond_simpl.
        -- pond_simpl. cbn [energy set_energy]. lia.
    + injection H as <-. split; [done|]. split; [done|]. change (pond w1) with (pond w). lia.
Qed.

Lemma do_share_energy (x y : Z) (w w' : World) (v : VM) :
  do_share x y w v = Done w' →
  getNeighbor x y (facing v) ≠ (x, y) →
  energies_ok w →
  energy (pond w (x, y)) + energy (pond w (getNeighbor x y (facing v))) < 2 ^ 64 →
  energies_ok w' ∧
  (∀ q, q ≠ (x, y) → q ≠ getNeighbor x y (facing v) →
        energy (pond w' q) = energy (pond w q)) ∧
  energy (pond w' (x, y)) + energy (pond w' (getNeighbor x y (facing v)))
  = energy (pond w (x, y)) + energy (pond w (getNeighbor x y (facing v))).
Proof.
  unfold do_share. set (nb := getNeighbor x y (facing v)). intros H Hne Hok Hsum.
  destruct (accessAllowed nb (reg v) 1 w) as [[b w1]| |] eqn:Hacc;
    cbn [mbind outcome_bind] in H; try discriminate.
  apply accessAllowed_inv in Hacc. subst w1.
  destruct b;
    [|injection H as <-; split; [exact Hok|split; [done|reflexivity]]].
  set (w2 := if 2 <? _ then _ else _) in *.
  assert (Hp2 : pond w2 = pond w) by (subst w2; by destruct (2 <? _)).
  pose proof (Hok (x, y)) as Hs. pose proof (Hok nb) as Hn. red in Hs, Hn.
  set (total := u64 (energy (pond w2 (x, y)) + energy (pond w2 nb))) in *.
  assert (Ht : total = energy (pond w (x, y)) + energy (pond w nb)).
  { subst total. rewrite Hp2. apply u64_small. red. lia. }
  injection H as <-.
  assert (Hn' : energy (alter (set_energy (total / 2)) nb (pond w2) nb)
                = total / 2) by (by rewrite fn_lookup_alter).
  rewrite Hn'.
  assert (Hu : u64 (total - total / 2) = total - total / 2)
    by (apply u64_small; red; lia).
  split; [|split].
  - apply energies_ok_poke.
    + apply energies_ok_poke; [by intros q; rewrite Hp2|].
      cbn [energy set_energy]. red. lia.
    + cbn [energy set_energy]. rewrite Hu. red. lia.
  - intros q Hq1 Hq2. pond_simpl. by rewrite Hp2.
  - pond_simpl. cbn [energy set_energy]. rewrite Hu. lia.
Qed.

Lemma dispatch_energy (x y inst : Z) (w w' : World) (v v' : VM) (c : bool) :
  0 ≤ inst < 16 →
  dispatch x y inst w v = Done (w', v', c) →
  getNeighbor x y (facing v) ≠ (x, y) →
  energies_ok w →
  energy (pond w (x, y)) + energy (pond w (getNeighbor x y (facing v))) < 2 ^ 64 →
  energies_ok w' ∧
  (∀ q, q ≠ (x, y) → q ≠ getNeighbor x y (facing v) →
        energy (pond w' q) = energy (pond w q)) ∧
  energy (pond w' (x, y)) + energy (pond w' (getNeighbor x y (facing v)))
  ≤ energy (pond w (x, y)) + energy (pond w (getNeighbor x y (facing v))).
Proof.
  intros Hi H Hne Hok Hsum.
  destruct (dispatch_world _ _ _ _ _ _ _ _ Hi H) as (Hg & Hk & Hs & Hn).
  destruct (decide (inst = 6 ∨ inst = 12)) as [E|E].
  { destruct (Hg E) as [g ->]. split; [|split].
    - intros q. rewrite energy_poke_keep by done. apply Hok.
    - intros q _ _. by rewrite energy_poke_keep.
    - rewrite !energy_poke_keep by done. lia. }
  destruct (decide (inst = 13)) as [E13|E13].
  { destruct (do_kill_energy x y w w' v (Hk E13) Hok) as (Hok' & Hq & Hself).
    split; [done|]. split; [by intros q ? _; apply Hq|].
    rewrite (Hq (getNeighbor x y (facing v))) by done. lia. }
  destruct (decide (inst = 14)) as [E14|E14].
  { destruct (do_share_energy x y w w' v (Hs E14) Hne Hok Hsum)
      as (Hok' & Hq & Hpair).
    split; [done|]. split; [done|]. lia. }
  rewrite Hn by lia. split; [done|]. split; [done|]. lia.
Qed.

Lemma step_energy (x y : Z) (w w' : World) (v v' : VM) :
  in_pond x y → vm_ok v → energies_ok w →
  energy (pond w (x, y)) ≠ 0 →
  energy (pond w (x, y)) + energy (pond w (getNeighbor x y (facing v))) < 2 ^ 64 →
  step x y w v = Done (w', v') →
  energies_ok w' ∧
  (∀ q, q ≠ (x, y) → q ≠ getNeighbor x y (facing v) →
        energy (pond w' q) = energy (pond w q)) ∧
  energy (pond w' (x, y)) + energy (pond w' (getNeighbor x y (facing v))) + 1
  ≤ energy (pond w (x, y)) + energy (pond w (getNeighbor x y (facing v))).
Proof.
  intros Hxy Hv Hok He Hsum Hs.
  destruct (fetch_mutate_Done w v Hv)
    as (inst & w1 & v1 & Hfm & Hi & Hp1 & _ & _ & Hr).
  assert (Hfa : facing v1 = facing v ∧ falseLoopDepth v1 = falseLoopDepth v).
  { destruct Hr as [->|(r & _ & ->)]; by split. }
  destruct Hfa as [Hfa Hfl].
  pose proof (getNeighbor_ne x y (facing v) Hxy (ok_facing _ Hv)) as Hne.
  set (nb := getNeighbor x y (facing v)) in *.
  rewrite (step_unfold x y inst w w1 v v1 Hfm) in Hs.
  set (w2 := poke _ (x, y) w1) in Hs.
  pose proof (Hok (x, y)) as Hse. pose proof (Hok nb) as Hne'. red in Hse, Hne'.
  assert (Hu : u64 (energy (pond w (x, y)) - 1) = energy (pond w (x, y)) - 1)
    by (apply u64_small; red; lia).
  assert (He2 : energy (pond w2 (x, y)) = energy (pond w (x, y)) - 1).
  { subst w2. pond_simpl. cbn [energy set_energy]. by rewrite Hp1. }
  assert (Hq2 : ∀ q, q ≠ (x, y) → energy (pond w2 q) = energy (pond w q)).
  { intros q Hq. subst w2. pond_simpl. by rewrite Hp1. }
  assert (Hok2 : energies_ok w2).
  { intros q. destruct (decide (q = (x, y))) as [->|Hq].
    - rewrite He2. red. lia.
    - rewrite Hq2 by done. apply Hok. }
  destruct (execute x y inst w2 v1) as [[[w3 v3] c]| |] eqn:Hex;
    cbn [mbind outcome_bind] in Hs; try discriminate.
  assert (w' = w3) as ->.
  { destruct c; [by injection Hs as <- _|]. inv_bind Hs. by injection Hs as <- _. }
  clear Hs. unfold execute, nz in Hex. rewrite Hfl in Hex.
  destruct (falseLoopDepth v =? 0); cbn [negb] in Hex.
  - destruct (count_instruction inst w2) as [w2'| |] eqn:Hc;
      cbn [mbind outcome_bind] in Hex; try discriminate.
    apply count_instruction_inv in Hc.
    assert (Hok2' : energies_ok w2') by (intros q; rewrite Hc; apply Hok2).
    destruct (dispatch_energy x y inst w2' w3 v1 v3 c Hi Hex) as (Hok3 & Hq3 & Hp3);
      rewrite ?Hfa, ?Hc; fold nb; try done.
    { rewrite He2, Hq2 by done. lia. }
    rewrite Hfa in Hq3, Hp3. fold nb in Hq3, Hp3. rewrite Hc in Hq3, Hp3.
    split; [done|]. split.
    + intros q Hq Hqn. rewrite Hq3, Hq2 by done. done.
    + rewrite He2, Hq2 in Hp3 by done. lia.
  - assert (w3 = w2) as ->.
    { destruct (inst =? 9); [|destruct (inst =? 10)]; by injection Hex as <- _ _. }
    split; [done|]. split.
    + intros q Hq _. by apply Hq2.
    + rewrite He2, Hq2 by done. lia.
Qed.

Lemma neighborhood_energy_nonneg (x y : Z) (w : World) :
  energies_ok w →
  0 ≤ energy (pond w (x, y)) ≤ neighborhood_energy x y w.
Proof.
  intros Hok. unfold neighborhood_energy.
  pose proof (Hok (x, y)) as H0.
  pose proof (Hok (getNeighbor x y N_LEFT)) as H1.
  pose proof (Hok (getNeighbor x y N_RIGHT)) as H2.
  pose proof (Hok (getNeighbor x y N_UP)) as H3.
  pose proof (Hok (getNeighbor x y N_DOWN)) as H4.
  unfold word in *. lia.
Qed.

Lemma step_neighborhood (x y : Z) (w w' : World) (v v' : VM) :
  in_pond x y → vm_ok v → energies_ok w →
  energy (pond w (x, y)) ≠ 0 →
  neighborhood_energy x y w < 2 ^ 64 →
  step x y w v = Done (w', v') →
  energies_ok w' ∧
  neighborhood_energy x y w' + 1 ≤ neighborhood_energy x y w.
Proof.
  intros Hxy Hv Hok He Hsum Hs.
  pose proof (ok_facing _ Hv) as Hf.
  pose proof (Hok (x, y)) as H0.
  pose proof (Hok (getNeighbor x y 0)) as H1.
  pose proof (Hok (getNeighbor x y 1)) as H2.
  pose proof (Hok (getNeighbor x y 2)) as H3.
  pose proof (Hok (getNeighbor x y 3)) as H4.
  unfold neighborhood_energy, N_LEFT, N_RIGHT, N_UP, N_DOWN in *.
  unfold word in *.
  assert (Hd : ∀ d d', 0 ≤ d < 4 → 0 ≤ d' < 4 → d ≠ d' →
                 getNeighbor x y d ≠ getNeighbor x y d').
  { intros d d' ? ? Hdd E. by apply Hdd, (getNeighbor_inj x y). }
  assert (Hn : ∀ d, 0 ≤ d < 4 → getNeighbor x y d ≠ (x, y))
    by (intros; by apply getNeighbor_ne).
  destruct (step_energy x y w w' v v' Hxy Hv Hok He) as (Hok' & Hq & Hp);
    [|done|].
  { assert (E : facing v = 0 ∨ facing v = 1 ∨ facing v = 2 ∨ facing v = 3) by lia.
    destruct E as [-> | [-> | [-> | ->]]]; lia. }
  split; [done|].
  assert (E : facing v = 0 ∨ facing v = 1 ∨ facing v = 2 ∨ facing v = 3) by lia.
  destruct E as [E | [E | [E | E]]]; rewrite E in *.
  - rewrite (Hq (getNeighbor x y 1)), (Hq (getNeighbor x y 2)),
      (Hq (getNeighbor x y 3)); try (apply Hn; lia); try (apply Hd; lia). lia.
  - rewrite (Hq (getNeighbor x y 0)), (Hq (getNeighbor x y 2)),
      (Hq (getNeighbor x y 3)); try (apply Hn; lia); try (apply Hd; lia). lia.
  - rewrite (Hq (getNeighbor x y 0)), (Hq (getNeighbor x y 1)),
      (Hq (getNeighbor x y 3)); try (apply Hn; lia); try (apply Hd; lia). lia.
  - rewrite (Hq (getNeighbor x y 0)), (Hq (getNeighbor x y 1)),
      (Hq (getNeighbor x y 2)); try (apply Hn; lia); try (apply Hd; lia). lia.
Qed.

(** X5.  The execution loop terminates.  Every iteration takes at least
    one unit out of the energy held by the executing cell and its four
    neighbors (SHARE only moves energy between the cell and a neighbor,
    a failed KILL only removes some), so with that much fuel the loop
    reaches its exit, after at most that many iterations, without having
    left the bounds of an array, and with the invariants of pond and
    machine intact. *)
Theorem exec_loop_terminates (fuel : nat) (x y : Z) (w : World) (v : VM) :
  in_pond x y → world_ok w → vm_ok v → energies_ok w →
  neighborhood_energy x y w < 2 ^ 64 →
  (Z.to_nat (neighborhood_energy x y w) ≤ fuel)%nat →
  ∃ w' v' n,
    exec_loop fuel x y w v = Done (w', v', n) ∧
    running x y w' v' = false ∧
    neighborhood_energy x y w' + Z.of_nat n ≤ neighborhood_energy x y w ∧
    world_ok w' ∧ vm_ok v' ∧ energies_ok w'.
Proof.
  intros Hxy. revert w v.
  induction fuel as [|fuel IH]; intros w v Hw Hv Hok Hsum Hfuel;
    pose proof (neighborhood_energy_nonneg x y w Hok) as Hnn;
    cbn [exec_loop]; destruct (running x y w v) eqn:Hrun.
  - exfalso. unfold running, nz in Hrun.
    apply andb_true_iff in Hrun as [Hrun _].
    apply negb_true_iff, Z.eqb_neq in Hrun. lia.
  - exists w, v, 0%nat. split; [done|]. split; [done|]. split; [lia|done].
  - unfold running, nz in Hrun. apply andb_true_iff in Hrun as [He _].
    apply negb_true_iff, Z.eqb_neq in He.
    destruct (step_Done x y w v Hw Hv) as (w1 & v1 & Hs & Hw1 & Hv1).
    destruct (step_neighborhood x y w w1 v v1 Hxy Hv Hok He Hsum Hs)
      as (Hok1 & Hdec).
    rewrite Hs. cbn [mbind outcome_bind].
    destruct (IH w1 v1 Hw1 Hv1 Hok1) as (w' & v' & n & -> & Hr & Hm & Hrest);
      [lia|lia|].
    cbn [mbind outcome_bind]. exists w', v', (S n).
    split; [done|]. split; [done|]. split; [lia|done].
  - exists w, v, 0%nat. split; [done|]. split; [done|]. split; [lia|done].
Qed.

(** ** The steps of an iteration complete *)

Lemma report_frequencies_Done (n : nat) (x : Z) (s : StatCounters)
  (tm : Z) (out : list item) :
  0 ≤ x → x + Z.of_nat n ≤ Z.of_nat (length (instructionExecutions s)) →
  ∃ r, report_frequencies n x s tm out = Done r.
Proof.
  revert x tm out. induction n as [|n IH]; intros x tm out Hx Hn;
    cbn [report_frequencies].
  - by eexists.
  - destruct (rd_Done (instructionExecutions s) x) as (e & -> & _); [lia|].
    cbn [mbind outcome_bind]. apply IH; lia.
Qed.

Lemma doReport_Done (clock : Z) (w : World) :
  stats_ok w →
  ∃ row w',
    report_row clock w = Done row ∧
    doReport clock w = Done w' ∧
    pond w' = pond w ∧ cellIdCounter w' = cellIdCounter w ∧
    prngState w' = prngState w ∧
    statCounters w' = mkStats (replicate 16 0) 0 0 0 0 ∧
    stdout w' = stdout w ++ row ∧
    lastTotalViableReplicators w' = (scan_pond (pond w)).1.2 ∧
    stderr w' =
      stderr w ++
      (if (0 <? lastTotalViableReplicators w) && ((scan_pond (pond w)).1.2 =? 0)
       then [Extinct]
       else if (lastTotalViableReplicators w =? 0) && (0 <? (scan_pond (pond w)).1.2)
            then [Appeared] else []).
Proof.
  intros Hs. red in Hs. unfold doReport.
  assert (Hrow : ∃ row, report_row clock w = Done row).
  { unfold report_row. cbn zeta.
    match goal with
    | |- context [report_frequencies 16 0 ?s 0 ?out] =>
        destruct (report_frequencies_Done 16 0 s 0 out) as ([tm o] & ->);
          [lia|rewrite Hs; lia|]
    end.
    cbn [mbind outcome_bind]. by eexists. }
  destruct Hrow as [row Hrow]. rewrite Hrow. cbn [mbind outcome_bind].
  exists row. eexists. split; [done|]. split; [reflexivity|].
  by repeat split.
Qed.

Lemma seed_Done_ok (w : World) :
  world_ok w → ∃ w', seed w = Done w' ∧ world_ok w'.
Proof.
  intros [Hp Hs]. unfold seed, draw.
  destruct (getRandom (prngState w)) as [r1 st1]. cbn [prngState set_prngState].
  destruct (getRandom st1) as [r2 st2]. cbn [prngState set_prngState].
  set (p := (r1 mod POND_SIZE_X, r2 mod POND_SIZE_Y)).
  rewrite !prngState_poke. cbn [prngState cellIdCounter set_prngState].
  destruct (getRandom st2) as [r3 st3].
  match goal with
  | |- context [fill_random ?n 0 p ?W] =>
      set (w4 := W);
      assert (Hp4 : pond_ok (pond w4));
      [|destruct (fill_random_Done n 0 p w4) as (w' & -> & Hq & Hpp & Hl & _ & Hst)]
  end.
  { subst w4. repeat (apply pond_ok_poke_len; [|done]). exact Hp. }
  { lia. }
  { rewrite (Hp4 p). lia. }
  cbn [mbind outcome_bind]. eexists. split; [reflexivity|]. split.
  - cbn [pond set_cellIdCounter]. intros q. destruct (decide (q = p)) as [->|Hne].
    + red. rewrite Hl. apply Hp4.
    + rewrite Hq by done. apply Hp4.
  - red. cbn [statCounters set_cellIdCounter]. rewrite Hst. exact Hs.
Qed.

Lemma commit_Done_ok (x y : Z) (w : World) (v : VM) :
  world_ok w →
  length (outputBuf v) = Z.to_nat POND_DEPTH_SYSWORDS →
  ∃ w', commit x y w v = Done w' ∧ world_ok w'.
Proof.
  intros [Hp Hs] Hb. unfold commit.
  destruct (rd_Done (outputBuf v) 0) as (b0 & -> & _);
    [rewrite Hb, depth_syswords; lia|].
  cbn [mbind outcome_bind].
  destruct (negb _); [|by eexists].
  set (nb := getNeighbor x y (facing v)).
  destruct (nz _); [|by eexists].
  destruct (accessAllowed_Done nb (reg v) 0 w (Hp nb)) as [granted ->].
  cbn [mbind outcome_bind].
  destruct granted; [|by eexists].
  set (w2 := if 2 <? _ then _ else _).
  assert (Hp2 : pond w2 = pond w) by (subst w2; by destruct (2 <? _)).
  assert (Hs2 : stats_ok w2) by (subst w2; by destruct (2 <? _)).
  set (w3 := poke (set_generation _) nb _).
  assert (Hp3 : pond_ok (pond w3)).
  { subst w3. repeat (apply pond_ok_poke_len; [|done]).
    cbn [pond set_cellIdCounter]. by rewrite Hp2. }
  destruct (copy_words_Done (Z.to_nat POND_DEPTH_SYSWORDS) 0 (outputBuf v) nb w3)
    as (w' & -> & Hq & _ & Hl & _ & _ & Hst & _);
    [lia|rewrite Hb; lia|rewrite (Hp3 nb); lia|].
  eexists. split; [reflexivity|]. split.
  - intros q. destruct (decide (q = nb)) as [->|Hne].
    + red. rewrite Hl. apply Hp3.
    + rewrite Hq by done. apply Hp3.
  - red. rewrite Hst. exact Hs2.
Qed.

Lemma tick_sound (fuel : nat) (threadNo clock : Z) (w : World) (v : VM) :
  world_ok w →
  length (outputBuf v) = Z.to_nat POND_DEPTH_SYSWORDS →
  length (loopStack_wordPtr v) = Z.to_nat POND_DEPTH →
  length (loopStack_shiftPtr v) = Z.to_nat POND_DEPTH →
  tick fuel threadNo clock w v = Timeout ∨
  ∃ w' v', tick fuel threadNo clock w v = Done (u64 (clock + 1), w', v') ∧
           world_ok w' ∧ vm_ok v'.
Proof.
  intros Hw Hb Hsw Hss. unfold tick.
  assert (H1 : ∃ w1, (if (threadNo =? 0) && negb (nz (u64 (clock + 1) mod REPORT_FREQUENCY))
                      then doReport (u64 (clock + 1)) w else Done w) = Done w1
                     ∧ world_ok w1).
  { destruct (_ && _); [|by eexists].
    destruct (doReport_Done (u64 (clock + 1)) w (proj2 Hw))
      as (row & w1 & _ & -> & Hp & _ & _ & Hst & _).
    eexists. split; [reflexivity|]. split; [by rewrite Hp; apply Hw|].
    red. by rewrite Hst. }
  destruct H1 as (w1 & -> & Hw1). cbn [mbind outcome_bind].
  assert (H2 : ∃ w2, (if negb (nz (u64 (clock + 1) mod INFLOW_FREQUENCY))
                      then seed w1 else Done w1) = Done w2 ∧ world_ok w2).
  { destruct (negb _); [by apply seed_Done_ok|by eexists]. }
  destruct H2 as (w2 & -> & Hw2). cbn [mbind outcome_bind].
  unfold draw. destruct (getRandom (prngState w2)) as [i st].
  set (w3 := set_prngState st w2).
  set (x := i mod POND_SIZE_X). set (y := Z.shiftr (i / POND_SIZE_X) 1 mod POND_SIZE_Y).
  assert (Hw3 : world_ok w3) by exact Hw2.
  destruct (vm_reset_Done x y w3 v (proj1 Hw3) Hb Hsw Hss) as (v0 & -> & Hv0 & _).
  cbn [mbind outcome_bind].
  set (w4 := set_statCounters _ w3).
  assert (Hw4 : world_ok w4) by (split; [apply Hw3|exact (proj2 Hw3)]).
  destruct (exec_loop_sound fuel x y w4 v0 Hw4 Hv0)
    as [->|(w5 & v5 & k & -> & Hw5 & Hv5 & _)]; [by left|].
  cbn [mbind outcome_bind].
  destruct (commit_Done_ok x y w5 v5 Hw5 (ok_outputBuf _ Hv5)) as (w6 & -> & Hw6).
  cbn [mbind outcome_bind]. right. by exists w6, v5.
Qed.


(** ** What the report counts *)

Lemma scan_pond_cells (p : Pond) :
  scan_pond p = foldl scan_cell (0, 0, 0, 0) (pond_cells p).
Proof.
  unfold scan_pond, pond_cells.
  generalize (0, 0, 0, 0) as acc. generalize (seqZ 0 POND_SIZE_Y) as ys.
  intros ys. induction (seqZ 0 POND_SIZE_X) as [|x xs IH]; intros acc;
    [done|].
  cbn [map concat foldl]. rewrite foldl_app, <- IH. f_equal.
  clear. revert acc. induction ys as [|y ys IH]; intros acc; [done|].
  cbn [map foldl]. apply IH.
Qed.

Lemma pond_cells_length (p : Pond) :
  Z.of_nat (length (pond_cells p)) = POND_SIZE_X * POND_SIZE_Y.
Proof.
  unfold pond_cells.
  assert (H : ∀ xs : list Z,
             length (concat (map (fun x => map (fun y => p (x, y))
                                            (seqZ 0 POND_SIZE_Y)) xs))
             = (length xs * Z.to_nat POND_SIZE_Y)%nat).
  { induction xs as [|x xs IH]; [done|].
    cbn [map concat]. rewrite length_app, IH, length_map, length_seqZ.
    cbn [length]. lia. }
  rewrite H, length_seqZ. unfold POND_SIZE_X, POND_SIZE_Y. lia.
Qed.

Lemma pond_cells_elem (p : Pond) (c : Cell) :
  c ∈ pond_cells p ↔ ∃ x y, in_pond x y ∧ c = p (x, y).
Proof.
  unfold pond_cells, in_pond. rewrite list_elem_of_In, in_concat. split.
  - intros (l & Hl & Hc). apply in_map_iff in Hl as (x & <- & Hx).
    apply in_map_iff in Hc as (y & <- & Hy).
    apply list_elem_of_In, elem_of_seqZ in Hx.
    apply list_elem_of_In, elem_of_seqZ in Hy.
    exists x, y. split; [lia|done].
  - intros (x & y & [Hx Hy] & ->).
    exists (map (fun y => p (x, y)) (seqZ 0 POND_SIZE_Y)). split.
    + apply in_map_iff. exists x. split; [done|].
      apply list_elem_of_In, elem_of_seqZ. lia.
    + apply in_map_iff. exists y. split; [done|].
      apply list_elem_of_In, elem_of_seqZ. lia.
Qed.

Lemma scan_cells_counts (l : list Cell) :
  Z.of_nat (length l) < 2 ^ 64 →
  let alive := filter (fun c => energy c ≠ 0) l in
  let r := foldl scan_cell (0, 0, 0, 0) l in
  r.1.1.1 = Z.of_nat (length alive) ∧
  r.1.1.2 = u64 (foldr (fun c s => energy c + s) 0 alive) ∧
  r.1.2 = Z.of_nat (length (filter (fun c => 2 < generation c) alive)) ∧
  (∀ c, c ∈ alive → generation c ≤ r.2) ∧
  (r.2 = 0 ∨ ∃ c, c ∈ alive ∧ r.2 = generation c).
Proof.
  cbn zeta. induction l as [|c l IH] using rev_ind; intros Hlen.
  { cbn. repeat split; try done. - intros c Hc. by apply elem_of_nil in Hc.
    - by left. }
  rewrite length_app in Hlen. cbn [length] in Hlen.
  destruct IH as (Ha & Ht & Hv & Hub & Hm); [lia|].
  rewrite foldl_app, list.filter_app. cbn [foldl].
  destruct (foldl scan_cell (0, 0, 0, 0) l) as [[[a t] vi] m].
  cbn [fst snd] in *. unfold scan_cell, nz.
  pose proof (length_filter (fun c => energy c ≠ 0) l) as Hfl.
  pose proof (length_filter (fun c => 2 < generation c)
                (filter (fun c => energy c ≠ 0) l)) as Hfv.
  destruct (Z.eqb_spec (energy c) 0) as [E|E]; cbn [negb fst snd].
  - rewrite filter_cons_False, filter_nil, app_nil_r by (cbn; lia).
    by repeat split.
  - rewrite filter_cons_True, filter_nil by done.
    rewrite length_app, list.filter_app, length_app. cbn [length].
    split; [subst a; rewrite u64_small by (unfold word; lia); lia|].
    split.
    { subst t. rewrite foldr_app. cbn [foldr].
      clear. generalize (filter (fun c0 => energy c0 ≠ 0) l) as k.
      intros k. unfold u64.
      assert (G : ∀ z, foldr (fun c0 s => energy c0 + s) z k
                       = foldr (fun c0 s => energy c0 + s) 0 k + z).
      { induction k as [|d k IH]; intros z; cbn [foldr]; [lia|].
        rewrite IH. lia. }
      rewrite (G (energy c + 0)), Z.add_0_r, Zplus_mod_idemp_l. done. }
    split.
    { destruct (Z.ltb_spec 2 (generation c)) as [G|G].
      - rewrite filter_cons_True, filter_nil by done. cbn [length].
        subst vi. rewrite u64_small by (unfold word; lia). lia.
      - rewrite filter_cons_False, filter_nil by lia. cbn [length]. lia. }
    split.
    { intros d Hd. apply elem_of_app in Hd as [Hd|Hd].
      - specialize (Hub d Hd). destruct (Z.ltb_spec m (generation c)); lia.
      - apply list_elem_of_singleton in Hd as ->.
        destruct (Z.ltb_spec m (generation c)); lia. }
    destruct (Z.ltb_spec m (generation c)) as [G|G].
    + right. exists c. split; [|done]. apply elem_of_app. right.
      by apply list_elem_of_singleton.
    + destruct Hm as [Hm|(d & Hd & Hm)]; [by left|right].
      exists d. split; [|done]. apply elem_of_app. by left.
Qed.

(** X7.  What the report counts.  The scan of [doReport] visits every cell
    of the pond once; over the cells with nonzero energy it returns their
    number, the sum of their energies modulo 2^64, the number of those
    whose generation exceeds two, and the largest generation among them
    (zero when that is larger).  The two counts are exact: they cannot
    wrap around. *)
Theorem scan_pond_counts (p : Pond) :
  let alive := filter (fun c => energy c ≠ 0) (pond_cells p) in
  let totalActiveCells := (scan_pond p).1.1.1 in
  let totalEnergy := (scan_pond p).1.1.2 in
  let totalViableReplicators := (scan_pond p).1.2 in
  let maxGeneration := (scan_pond p).2 in
  (∀ c, c ∈ pond_cells p ↔ ∃ x y, in_pond x y ∧ c = p (x, y)) ∧
  Z.of_nat (length (pond_cells p)) = 480000 ∧
  totalActiveCells = Z.of_nat (length alive) ∧
  totalEnergy = u64 (foldr (fun c s => energy c + s) 0 alive) ∧
  totalViableReplicators
  = Z.of_nat (length (filter (fun c => 2 < generation c) alive)) ∧
  totalViableReplicators ≤ totalActiveCells ≤ 480000 ∧
  (∀ c, c ∈ alive → generation c ≤ maxGeneration) ∧
  (maxGeneration = 0 ∨ ∃ c, c ∈ alive ∧ maxGeneration = generation c).
Proof.
  cbn zeta. pose proof (pond_cells_length p) as Hlen.
  change (POND_SIZE_X * POND_SIZE_Y) with 480000 in Hlen.
  split; [apply pond_cells_elem|]. split; [exact Hlen|].
  rewrite scan_pond_cells. revert Hlen.
  generalize (pond_cells p) as l. intros l Hlen.
  destruct (scan_cells_counts l) as (Ha & Ht & Hv & Hub & Hm); [lia|].
  pose proof (length_filter (fun c => energy c ≠ 0) l) as Hfl.
  pose proof (length_filter (fun c => 2 < generation c)
                (filter (fun c => energy c ≠ 0) l)) as Hfv.
  split; [exact Ha|]. split; [exact Ht|]. split; [exact Hv|].
  split; [lia|]. split; [exact Hub|exact Hm].
Qed.

(** ** Stale contents of the machine arrays *)

Ltac same_fields H :=
  let Hob := fresh "Hob" in
  destruct H as (Hob & Hcw & Hwp & Hsp & Hpw & Hps & Hr & Hf & Hn & Hfd & Hst
                 & Hlw & Hls & Hent).

Ltac to_first :=
  match goal with
  | Hob : outputBuf ?a = outputBuf ?b, Hcw : currentWord ?a = currentWord ?b,
    Hwp : wordPtr ?a = wordPtr ?b, Hsp : shiftPtr ?a = shiftPtr ?b,
    Hpw : ptr_wordPtr ?a = ptr_wordPtr ?b,
    Hps : ptr_shiftPtr ?a = ptr_shiftPtr ?b,
    Hr : reg ?a = reg ?b, Hf : facing ?a = facing ?b,
    Hn : loopStackPtr ?a = loopStackPtr ?b,
    Hfd : falseLoopDepth ?a = falseLoopDepth ?b,
    Hst : stop ?a = stop ?b |- _ =>
      rewrite <- ?Hob, <- ?Hcw, <- ?Hwp, <- ?Hsp, <- ?Hpw, <- ?Hps, <- ?Hr,
        <- ?Hf, <- ?Hn, <- ?Hfd, <- ?Hst
  end.

Ltac vm_cbn :=
  cbn [outputBuf currentWord wordPtr shiftPtr ptr_wordPtr ptr_shiftPtr
       reg facing loopStack_wordPtr loopStack_shiftPtr loopStackPtr
       falseLoopDepth stop set_outputBuf set_currentWord set_cursor
       set_ptr set_reg set_facing set_loopStack set_falseLoopDepth
       set_stop].

Ltac same_solve :=
  red; vm_cbn; repeat (split; [assumption || congruence|]); assumption.

Lemma same_machine_sym (v1 v2 : VM) : same_machine v1 v2 → same_machine v2 v1.
Proof.
  intros H. same_fields H. red.
  repeat (split; [congruence|]).
  intros i Hi. rewrite <- Hn in Hi. destruct (Hent i Hi). by split.
Qed.

Lemma fetch_mutate_same (w w' : World) (v1 v2 v1' : VM) (inst : Z) :
  same_machine v1 v2 →
  fetch_mutate w v1 = Done (inst, w', v1') →
  ∃ v2', fetch_mutate w v2 = Done (inst, w', v2') ∧ same_machine v1' v2' ∧
         loopStackPtr v1' = loopStackPtr v1.
Proof.
  intros H. same_fields H. unfold fetch_mutate, draw. to_first.
  destruct (shr (currentWord v1) (shiftPtr v1)); cbn [mbind outcome_bind];
    try discriminate.
  destruct (getRandom (prngState w)) as [r st]. cbn [prngState set_prngState].
  destruct (getRandom st) as [tmp st2].
  destruct (Z.land r 0xffffffff <? MUTATION_RATE);
    [destruct (nz (Z.land tmp 0x80))|]; intros [= <- <- <-];
    (eexists; split; [reflexivity|]); (split; [same_solve|done]).
Qed.

Lemma advance_same (x y : Z) (w : World) (v1 v2 v1' : VM) :
  same_machine v1 v2 →
  advance x y w v1 = Done v1' →
  ∃ v2', advance x y w v2 = Done v2' ∧ same_machine v1' v2' ∧
         loopStackPtr v1' = loopStackPtr v1.
Proof.
  intros H. same_fields H. unfold advance. to_first.
  destruct (bump_cursor (wordPtr v1) (shiftPtr v1)) as [[wp sp] [|]].
  - destruct (rd _ _); cbn [mbind outcome_bind]; try discriminate.
    intros [= <-]. eexists. split; [reflexivity|]. split; [same_solve|done].
  - intros [= <-]. eexists. split; [reflexivity|]. split; [same_solve|done].
Qed.

Lemma push_same (v1 v2 : VM) (a1 b1 : list Z) (wp sp : Z) :
  same_machine v1 v2 →
  wr (loopStack_wordPtr v1) (loopStackPtr v1) wp = Done a1 →
  wr (loopStack_shiftPtr v1) (loopStackPtr v1) sp = Done b1 →
  ∃ a2 b2,
    wr (loopStack_wordPtr v2) (loopStackPtr v1) wp = Done a2 ∧
    wr (loopStack_shiftPtr v2) (loopStackPtr v1) sp = Done b2 ∧
    same_machine (set_loopStack a1 b1 (u64 (loopStackPtr v1 + 1)) v1)
                 (set_loopStack a2 b2 (u64 (loopStackPtr v1 + 1)) v2).
Proof.
  intros H. same_fields H. unfold wr. rewrite <- Hlw, <- Hls.
  destruct (decide _) as [Hi|]; [|discriminate]. intros [= <-].
  destruct (decide _) as [Hj|]; [|discriminate]. intros [= <-].
  eexists _, _. split; [reflexivity|]. split; [reflexivity|].
  red. vm_cbn.
  repeat (split; [assumption || congruence|]).
  rewrite !length_insert. repeat (split; [assumption|]).
  intros i Hi'.
  assert (i ≤ loopStackPtr v1) by (unfold u64 in Hi'; lia).
  destruct (decide (i = loopStackPtr v1)) as [->|Hne].
  - rewrite !list_lookup_insert_eq by lia. done.
  - rewrite !list_lookup_insert_ne by lia. apply Hent. lia.
Qed.

Lemma dispatch_same (x y inst : Z) (w w' : World) (v1 v2 v1' : VM) (c : bool) :
  0 ≤ inst < 16 →
  same_machine v1 v2 →
  0 ≤ loopStackPtr v1 →
  dispatch x y inst w v1 = Done (w', v1', c) →
  ∃ v2', dispatch x y inst w v2 = Done (w', v2', c) ∧ same_machine v1' v2' ∧
         0 ≤ loopStackPtr v1'.
Proof.
  intros Hi H Hp.
  destruct (decide (inst = 9)) as [->|N9].
  { cbn [dispatch]. pose proof H as H'. same_fields H. to_first.
    destruct (nz (reg v1)).
    - destruct (Z.leb_spec POND_DEPTH (loopStackPtr v1)) as [G|G].
      + intros [= <- <- <-]. eexists. split; [reflexivity|].
        split; [same_solve|done].
      + destruct (wr (loopStack_wordPtr v1) _ _) as [a1| |] eqn:Ea;
          cbn [mbind outcome_bind]; try discriminate.
        destruct (wr (loopStack_shiftPtr v1) _ _) as [b1| |] eqn:Eb;
          cbn [mbind outcome_bind]; try discriminate.
        intros [= <- <- <-].
        destruct (push_same v1 v2 a1 b1 _ _ H' Ea Eb)
          as (a2 & b2 & -> & -> & Hs).
        cbn [mbind outcome_bind]. eexists. split; [reflexivity|].
        split; [exact Hs|]. cbn. apply u64_range.
    - intros [= <- <- <-]. eexists. split; [reflexivity|].
      split; [same_solve|done]. }
  destruct (decide (inst = 10)) as [->|N10].
  { cbn [dispatch]. same_fields H. to_first. unfold nz at 1 3.
    destruct (Z.eqb_spec (loopStackPtr v1) 0) as [E|E]; cbn [negb].
    - intros [= <- <- <-]. eexists. split; [reflexivity|].
      split; [same_solve|done].
    - vm_cbn. to_first.
      set (j := u64 (loopStackPtr v1 - 1)).
      assert (Hj : 0 ≤ j < loopStackPtr v1) by (unfold j, u64; lia).
      destruct (Hent j Hj) as [Ew Es].
      assert (Hsub : ∀ i, 0 ≤ i < j →
        loopStack_wordPtr v1 !! Z.to_nat i = loopStack_wordPtr v2 !! Z.to_nat i ∧
        loopStack_shiftPtr v1 !! Z.to_nat i = loopStack_shiftPtr v2 !! Z.to_nat i)
        by (intros i Hi'; apply Hent; lia).
      assert (Rw : rd (loopStack_wordPtr v2) j = rd (loopStack_wordPtr v1) j)
        by (unfold rd; by rewrite Ew).
      assert (Rs : rd (loopStack_shiftPtr v2) j = rd (loopStack_shiftPtr v1) j)
        by (unfold rd; by rewrite Es).
      rewrite Rw, Rs. clear Rw Rs.
      destruct (nz (reg v1)).
      + destruct (rd (loopStack_wordPtr v1) j); cbn [mbind outcome_bind];
          try discriminate.
        destruct (rd (loopStack_shiftPtr v1) j); cbn [mbind outcome_bind];
          try discriminate.
        destruct (rd _ _); cbn [mbind outcome_bind]; try discriminate.
        intros [= <- <- <-]. eexists. split; [reflexivity|].
        split; [same_solve|]. vm_cbn. lia.
      + intros [= <- <- <-]. eexists. split; [reflexivity|].
        split; [same_solve|]. vm_cbn. lia. }
  same_fields H.
  nibble inst Hi; try lia;
    cbn [dispatch]; unfold do_kill, do_share; vm_cbn; to_first;
    repeat match goal with
      | |- context [mbind _ ?m] =>
          destruct m; cbn [mbind outcome_bind]; try discriminate
      | |- context [if ?b then _ else _] => destruct b
      | |- context [let '(_, _) := ?p in _] => destruct p
      end;
    intros [= <- <- <-]; (eexists; split; [reflexivity|]);
    (split; [same_solve|assumption]).
Qed.

Lemma execute_same (x y inst : Z) (w w' : World) (v1 v2 v1' : VM) (c : bool) :
  0 ≤ inst < 16 →
  same_machine v1 v2 →
  0 ≤ loopStackPtr v1 →
  execute x y inst w v1 = Done (w', v1', c) →
  ∃ v2', execute x y inst w v2 = Done (w', v2', c) ∧ same_machine v1' v2' ∧
         0 ≤ loopStackPtr v1'.
Proof.
  intros Hi H Hp. unfold execute.
  destruct (nz (falseLoopDepth v1)) eqn:Hd.
  - same_fields H. to_first. rewrite Hd.
    destruct (inst =? 9); [|destruct (inst =? 10)]; intros [= <- <- <-];
      (eexists; split; [reflexivity|]); (split; [same_solve|assumption]).
  - replace (nz (falseLoopDepth v2)) with false
      by (destruct H as (_ & _ & _ & _ & _ & _ & _ & _ & _ & <- & _); done).
    destruct (count_instruction inst w) as [w1| |]; cbn [mbind outcome_bind];
      try discriminate.
    by apply dispatch_same.
Qed.

Lemma step_same (x y : Z) (w w' : World) (v1 v2 v1' : VM) :
  same_machine v1 v2 →
  0 ≤ loopStackPtr v1 →
  step x y w v1 = Done (w', v1') →
  ∃ v2', step x y w v2 = Done (w', v2') ∧ same_machine v1' v2' ∧
         0 ≤ loopStackPtr v1'.
Proof.
  intros H Hp. unfold step.
  destruct (fetch_mutate w v1) as [[[inst w1] u1]| |] eqn:Ef;
    cbn [mbind outcome_bind]; try discriminate.
  destruct (fetch_mutate_same _ _ _ _ _ _ H Ef) as (u2 & -> & Hu & Hpu).
  destruct (fetch_mutate_inv _ _ _ _ _ Ef) as (Hi & _).
  cbn [mbind outcome_bind].
  destruct (execute x y inst _ u1) as [[[w2 t1] c]| |] eqn:Ee;
    cbn [mbind outcome_bind]; try discriminate.
  destruct (execute_same _ _ _ _ _ _ _ _ _ Hi Hu ltac:(lia) Ee)
    as (t2 & -> & Ht & Hpt).
  cbn [mbind outcome_bind]. destruct c.
  - intros [= <- <-]. by exists t2.
  - destruct (advance x y w2 t1) as [s1| |] eqn:Ea; cbn [mbind outcome_bind];
      try discriminate.
    destruct (advance_same _ _ _ _ _ _ Ht Ea) as (s2 & -> & Hs & Hps').
    cbn [mbind outcome_bind]. intros [= <- <-]. exists s2.
    split; [done|]. split; [done|lia].
Qed.

Lemma exec_loop_same (fuel : nat) (x y : Z) (w w' : World) (v1 v2 v1' : VM)
  (n : nat) :
  same_machine v1 v2 →
  0 ≤ loopStackPtr v1 →
  exec_loop fuel x y w v1 = Done (w', v1', n) →
  ∃ v2', exec_loop fuel x y w v2 = Done (w', v2', n) ∧ same_machine v1' v2'.
Proof.
  revert w w' v1 v2 v1' n.
  induction fuel as [|fuel IH]; intros w w' v1 v2 v1' n H Hp; cbn [exec_loop];
    (replace (running x y w v2) with (running x y w v1)
      by (unfold running;
          destruct H as (_ & _ & _ & _ & _ & _ & _ & _ & _ & _ & <- & _);
          done));
    destruct (running x y w v1); try discriminate.
  - intros [= <- <- <-]. by exists v2.
  - destruct (step x y w v1) as [[w1 u1]| |] eqn:Es; cbn [mbind outcome_bind];
      try discriminate.
    destruct (step_same _ _ _ _ _ _ _ H Hp Es) as (u2 & -> & Hu & Hpu).
    cbn [mbind outcome_bind].
    destruct (exec_loop fuel x y w1 u1) as [[[w2 t1] k]| |] eqn:El;
      cbn [mbind outcome_bind]; try discriminate.
    destruct (IH _ _ _ _ _ _ Hu Hpu El) as (t2 & -> & Ht).
    cbn [mbind outcome_bind]. intros [= <- <- <-]. by exists t2.
  - intros [= <- <- <-]. by exists v2.
Qed.

Lemma fill_words_same (n : nat) (i val : Z) (a1 a2 : list Z) :
  0 ≤ i → length a1 = length a2 →
  Z.of_nat (length a1) = i + Z.of_nat n →
  (∀ k, (k < Z.to_nat i)%nat → a1 !! k = a2 !! k) →
  fill_words n i val a1 = fill_words n i val a2.
Proof.
  revert i a1 a2. induction n as [|n IH]; intros i a1 a2 Hi Hl Hn Hk;
    cbn [fill_words].
  - f_equal. apply list_eq. intros k.
    destruct (decide (k < Z.to_nat i)%nat) as [G|G]; [by apply Hk|].
    rewrite !lookup_ge_None_2 by lia. done.
  - rewrite !wr_Done by lia. cbn [mbind outcome_bind].
    apply IH; [lia|by rewrite !length_insert|rewrite length_insert; lia|].
    intros k Hk'. destruct (decide (k = Z.to_nat i)) as [->|Hne].
    + rewrite !list_lookup_insert_eq by lia. done.
    + rewrite !list_lookup_insert_ne by lia. apply Hk. lia.
Qed.

Lemma commit_same (x y : Z) (w : World) (v1 v2 : VM) :
  same_machine v1 v2 → commit x y w v1 = commit x y w v2.
Proof. intros H. same_fields H. unfold commit. by to_first. Qed.

Lemma tick_same (fuel : nat) (threadNo clock : Z) (w : World) (v1 v2 : VM) :
  world_ok w →
  length (outputBuf v1) = Z.to_nat POND_DEPTH_SYSWORDS →
  length (loopStack_wordPtr v1) = Z.to_nat POND_DEPTH →
  length (loopStack_shiftPtr v1) = Z.to_nat POND_DEPTH →
  length (outputBuf v2) = Z.to_nat POND_DEPTH_SYSWORDS →
  length (loopStack_wordPtr v2) = Z.to_nat POND_DEPTH →
  length (loopStack_shiftPtr v2) = Z.to_nat POND_DEPTH →
  (tick fuel threadNo clock w v1 = Timeout ∧
   tick fuel threadNo clock w v2 = Timeout) ∨
  ∃ w' r1 r2,
    tick fuel threadNo clock w v1 = Done (u64 (clock + 1), w', r1) ∧
    tick fuel threadNo clock w v2 = Done (u64 (clock + 1), w', r2) ∧
    world_ok w' ∧ vm_ok r1 ∧ vm_ok r2 ∧ same_machine r1 r2.
Proof.
  intros Hw Hb1 Hsw1 Hss1 Hb2 Hsw2 Hss2. unfold tick.
  assert (H1 : ∃ w1, (if (threadNo =? 0) && negb (nz (u64 (clock + 1) mod REPORT_FREQUENCY))
                      then doReport (u64 (clock + 1)) w else Done w) = Done w1
                     ∧ world_ok w1).
  { destruct (_ && _); [|by eexists].
    destruct (doReport_Done (u64 (clock + 1)) w (proj2 Hw))
      as (row & w1 & _ & -> & Hp & _ & _ & Hst & _).
    eexists. split; [reflexivity|]. split; [by rewrite Hp; apply Hw|].
    red. by rewrite Hst. }
  destruct H1 as (w1 & -> & Hw1). cbn [mbind outcome_bind].
  assert (H2 : ∃ w2, (if negb (nz (u64 (clock + 1) mod INFLOW_FREQUENCY))
                      then seed w1 else Done w1) = Done w2 ∧ world_ok w2).
  { destruct (negb _); [by apply seed_Done_ok|by eexists]. }
  destruct H2 as (w2 & -> & Hw2). cbn [mbind outcome_bind].
  unfold draw. destruct (getRandom (prngState w2)) as [i st].
  set (w3 := set_prngState st w2).
  set (x := i mod POND_SIZE_X). set (y := Z.shiftr (i / POND_SIZE_X) 1 mod POND_SIZE_Y).
  assert (Hw3 : world_ok w3) by exact Hw2.
  destruct (vm_reset_Done x y w3 v1 (proj1 Hw3) Hb1 Hsw1 Hss1)
    as (s1 & E1 & Hs1 & _ & _ & Hp1 & _).
  destruct (vm_reset_Done x y w3 v2 (proj1 Hw3) Hb2 Hsw2 Hss2)
    as (s2 & E2 & Hs2 & _ & _ & Hp2 & _).
  rewrite E1, E2. cbn [mbind outcome_bind].
  assert (Hs : same_machine s1 s2).
  { unfold vm_reset in E1, E2.
    rewrite (fill_words_same _ 0 ALL_ONES (outputBuf v1) (outputBuf v2)) in E1
      by (rewrite ?Hb1, ?Hb2; done || lia).
    destruct (fill_words _ _ _ _); cbn [mbind outcome_bind] in E1, E2;
      try discriminate.
    destruct (rd _ _); cbn [mbind outcome_bind] in E1, E2; try discriminate.
    injection E1 as <-. injection E2 as <-. red. cbn.
    repeat (split; [done || congruence|]). intros j Hj. lia. }
  set (w4 := set_statCounters _ w3).
  assert (Hw4 : world_ok w4) by (split; [apply Hw3|exact (proj2 Hw3)]).
  destruct (exec_loop_sound fuel x y w4 s1 Hw4 Hs1)
    as [T1|(w5 & t1 & k & L1 & Hw5 & Ht1 & _)].
  - left. rewrite T1. split; [done|].
    destruct (exec_loop_sound fuel x y w4 s2 Hw4 Hs2)
      as [->|(w5 & t2 & k & L2 & _)]; [done|].
    destruct (exec_loop_same _ _ _ _ _ _ _ _ _ (same_machine_sym _ _ Hs)
                ltac:(lia) L2) as (t1 & L1 & _).
    congruence.
  - right. destruct (exec_loop_same _ _ _ _ _ _ _ _ _ Hs ltac:(lia) L1)
      as (t2 & L2 & Ht).
    assert (Ht2 : vm_ok t2).
    { destruct (exec_loop_sound fuel x y w4 s2 Hw4 Hs2)
        as [T|(? & ? & ? & L & _ & Hv & _)]; congruence. }
    rewrite L1, L2. cbn [mbind outcome_bind].
    rewrite <- (commit_same x y w5 t1 t2 Ht).
    destruct (commit_Done_ok x y w5 t1 Hw5 (ok_outputBuf _ Ht1)) as (w6 & -> & Hw6).
    cbn [mbind outcome_bind]. by exists w6, t1, t2.
Qed.

(** X8.  What the previous execution left in the output buffer and in the
    loop stack never matters.  The output buffer is refilled and the stack
    pointer cleared before a cell runs, and a stack entry is read only
    after this execution has written it; so two runs of the main loop from
    the same pond, generator and counters, but with arbitrary different
    contents of the machine's variables and arrays, end in the same pond,
    generator, counters and output. *)
Theorem run_ignores_stale_machine (ticks fuel : nat) (threadNo clock : Z)
  (w : World) (v1 v2 : VM) :
  world_ok w →
  length (outputBuf v1) = Z.to_nat POND_DEPTH_SYSWORDS →
  length (loopStack_wordPtr v1) = Z.to_nat POND_DEPTH →
  length (loopStack_shiftPtr v1) = Z.to_nat POND_DEPTH →
  length (outputBuf v2) = Z.to_nat POND_DEPTH_SYSWORDS →
  length (loopStack_wordPtr v2) = Z.to_nat POND_DEPTH →
  length (loopStack_shiftPtr v2) = Z.to_nat POND_DEPTH →
  (run ticks fuel threadNo clock w v1 = Timeout ∧
   run ticks fuel threadNo clock w v2 = Timeout) ∨
  ∃ c' w' r1 r2,
    run ticks fuel threadNo clock w v1 = Done (c', w', r1) ∧
    run ticks fuel threadNo clock w v2 = Done (c', w', r2) ∧
    length (outputBuf r1) = Z.to_nat POND_DEPTH_SYSWORDS ∧
    length (loopStack_wordPtr r1) = Z.to_nat POND_DEPTH ∧
    length (loopStack_shiftPtr r1) = Z.to_nat POND_DEPTH ∧
    length (outputBuf r2) = Z.to_nat POND_DEPTH_SYSWORDS ∧
    length (loopStack_wordPtr r2) = Z.to_nat POND_DEPTH ∧
    length (loopStack_shiftPtr r2) = Z.to_nat POND_DEPTH.
Proof.
  revert clock w v1 v2.
  induction ticks as [|ticks IH];
    intros clock w v1 v2 Hw Hb1 Hsw1 Hss1 Hb2 Hsw2 Hss2; cbn [run].
  - right. by exists clock, w, v1, v2.
  - destruct (tick_same fuel threadNo clock w v1 v2 Hw Hb1 Hsw1 Hss1 Hb2 Hsw2 Hss2)
      as [[-> ->]|(w1 & r1 & r2 & -> & -> & Hw1 & Hr1 & Hr2 & _)]; [by left|].
    cbn [mbind outcome_bind].
    apply IH; try done; by destruct Hr1, Hr2.
Qed.

(** ** Pointer and register arithmetic *)

(** X9.  FWD and BACK are inverse to each other on the data pointer, also
    across the ends of a word and of the genome, and INC and DEC are
    inverse to each other on the register, also across 15 and 0: either
    pair, executed in either order, gives back the machine it started
    from. *)
Theorem pointer_and_register_round_trips (x y : Z) (w : World) (v : VM) :
  codon_pos (ptr_wordPtr v) (ptr_shiftPtr v) →
  0 ≤ reg v < 16 →
  let after i j :=
    '(w1, v1, _) ← dispatch x y i w v; dispatch x y j w1 v1 in
  after 1 2 = Done (w, v, false) ∧ after 2 1 = Done (w, v, false) ∧
  after 3 4 = Done (w, v, false) ∧ after 4 3 = Done (w, v, false).
Proof.
  intros Hp Hr. cbn zeta.
  destruct v as [ob cw wp sp pw ps rg fc sw ss lp fd st]. unfold_consts.
  cbn [ptr_wordPtr ptr_shiftPtr reg] in *.
  change (1024 / (8 * 2)) with 64 in *. change (8 * 8) with 64 in *.
  assert (Hreg : ∀ r, 0 ≤ r < 16 →
            Z.land ((Z.land ((r + 1) mod 2 ^ 64) 15 - 1) mod 2 ^ 64) 15 = r ∧
            Z.land ((Z.land ((r - 1) mod 2 ^ 64) 15 + 1) mod 2 ^ 64) 15 = r).
  { intros r Hr'. nibble r Hr'; by vm_compute. }
  destruct (Hreg _ Hr) as [H34 H43].
  repeat split; cbn [dispatch mbind outcome_bind set_ptr set_reg ptr_wordPtr
                       ptr_shiftPtr reg outputBuf currentWord wordPtr shiftPtr
                       facing loopStack_wordPtr loopStack_shiftPtr loopStackPtr
                       falseLoopDepth stop];
    unfold u64, nz, POND_DEPTH_SYSWORDS, SYSWORD_BITS, POND_DEPTH, sizeof_uintptr;
    change (1024 / (8 * 2)) with 64; change (8 * 8) with 64.
  3: { by rewrite H34. }
  3: { by rewrite H43. }
  all: split_tests; cbn [negb dispatch mbind outcome_bind set_ptr ptr_wordPtr
                       ptr_shiftPtr]; split_tests; cbn [negb];
    unfold set_ptr;
    cbn [ptr_wordPtr ptr_shiftPtr reg outputBuf currentWord wordPtr shiftPtr
         facing loopStack_wordPtr loopStack_shiftPtr loopStackPtr
         falseLoopDepth stop];
    repeat f_equal; lia.
Qed.

(** ** Consecutive reports *)

(** X10.  [doReport] clears the counters and remembers the number of
    viable replicators it saw, so a report that directly follows another
    one prints zero for the three event counters and 0.0000 for the
    seventeen averages, and repeats no event: an appearance or an
    extinction of viable replicators is reported once.  Neither report
    touches the pond, the id counter or the generator. *)
Theorem consecutive_reports (c1 c2 : Z) (w : World) :
  stats_ok w →
  ∃ w1 w2,
    doReport c1 w = Done w1 ∧ doReport c2 w1 = Done w2 ∧
    pond w2 = pond w ∧ cellIdCounter w2 = cellIdCounter w ∧
    prngState w2 = prngState w ∧
    stderr w2 = stderr w1 ∧
    let totals := scan_pond (pond w) in
    stdout w2 =
      stdout w1 ++
      [U64 c2; Sep; U64 totals.1.1.2; Sep; U64 totals.1.1.1; Sep;
       U64 totals.1.2; Sep; U64 totals.2; Sep; U64 0; Sep; U64 0; Sep;
       U64 0; Sep] ++ concat (replicate 17 [Sep; F4 DZero]) ++ [Eol].
Proof.
  intros Hs.
  destruct (doReport_Done c1 w Hs)
    as (row & w1 & _ & Hrep & Hp & Hc & Hg & Hst & _ & Hlast & _).
  exists w1. rewrite Hrep. unfold doReport, report_row.
  rewrite Hst, Hp, Hlast, Hc, Hg. cbn zeta.
  generalize (scan_pond (pond w)). intros totals.
  change (replicate 16 0) with [0; 0; 0; 0; 0; 0; 0; 0; 0; 0; 0; 0; 0; 0; 0; 0].
  cbn [report_frequencies rd mbind outcome_bind instructionExecutions
       viableCellsReplaced viableCellsKilled viableCellShares].
  eexists. split; [reflexivity|]. split; [reflexivity|].
  cbn [pond cellIdCounter prngState stderr stdout].
  repeat (split; [reflexivity|]).
  split.
  - clear. generalize (totals.1.2). intros n.
    destruct (Z.ltb_spec 0 n) as [G|G], (Z.eqb_spec n 0) as [E|E];
      cbn [andb]; first [apply app_nil_r | exfalso; lia].
  - reflexivity.
Qed.

(** ** Locality *)

Lemma getNeighbor_reachable (x y dir : Z) : reachable x y (getNeighbor x y dir).
Proof.
  unfold reachable, N_LEFT, N_RIGHT, N_UP, N_DOWN.
  destruct (decide (dir = 0)) as [->|?]; [by auto|].
  destruct (decide (dir = 1)) as [->|?]; [by auto|].
  destruct (decide (dir = 2)) as [->|?]; [by auto 6|].
  destruct (decide (dir = 3)) as [->|?]; [by auto 6|].
  left. unfold getNeighbor. destruct dir as [|[[?|?|]|[?|?|]|]|?]; done.
Qed.

Lemma unreachable_ne (x y : Z) (q : cellptr) :
  ¬ reachable x y q → (x, y) ≠ q ∧ ∀ dir, getNeighbor x y dir ≠ q.
Proof.
  intros H. split.
  - intros <-. apply H. by left.
  - intros dir <-. apply H, getNeighbor_reachable.
Qed.

Lemma do_kill_local (x y : Z) (w w' : World) (v : VM) :
  do_kill x y w v = Done w' →
  ∀ q, ¬ reachable x y q → pond w' q = pond w q.
Proof.
  unfold do_kill. set (nb := getNeighbor x y (facing v)). intros H q Hq.
  destruct (unreachable_ne x y q Hq) as [Hs Hn]. specialize (Hn (facing v)).
  fold nb in Hn.
  destruct (accessAllowed nb (reg v) 0 w) as [[b w1]| |] eqn:Hacc;
    cbn [mbind outcome_bind] in H; try discriminate.
  apply accessAllowed_inv in Hacc. subst w1.
  set (w1 := set_prngState _ w) in *.
  destruct b.
  - set (w2 := if 2 <? _ then _ else _) in *.
    assert (Hp2 : pond w2 = pond w) by (subst w2; by destruct (2 <? _)).
    inv_bind H. injection H as <-. cbn [pond set_cellIdCounter].
    pond_simpl. by rewrite Hp2.
  - change (pond w1) with (pond w) in H. inv_bind H; injection H as <-;
      by pond_simpl.
Qed.

Lemma do_share_local (x y : Z) (w w' : World) (v : VM) :
  do_share x y w v = Done w' →
  ∀ q, ¬ reachable x y q → pond w' q = pond w q.
Proof.
  unfold do_share. set (nb := getNeighbor x y (facing v)). intros H q Hq.
  destruct (unreachable_ne x y q Hq) as [Hs Hn]. specialize (Hn (facing v)).
  fold nb in Hn.
  destruct (accessAllowed nb (reg v) 1 w) as [[b w1]| |] eqn:Hacc;
    cbn [mbind outcome_bind] in H; try discriminate.
  apply accessAllowed_inv in Hacc. subst w1.
  destruct b.
  - set (w2 := if 2 <? _ then _ else _) in *.
    assert (Hp2 : pond w2 = pond w) by (subst w2; by destruct (2 <? _)).
    injection H as <-. pond_simpl. by rewrite Hp2.
  - by injection H as <-.
Qed.

Lemma step_local (x y : Z) (w w' : World) (v v' : VM) :
  step x y w v = Done (w', v') →
  ∀ q, ¬ reachable x y q → pond w' q = pond w q.
Proof.
  intros Hs q Hq. destruct (unreachable_ne x y q Hq) as [Hne _].
  unfold step in Hs.
  destruct (fetch_mutate w v) as [[[inst w1] v1]| |] eqn:Hfm;
    cbn [mbind outcome_bind] in Hs; try discriminate.
  destruct (fetch_mutate_inv _ _ _ _ _ Hfm) as (Hi & Hp1 & _).
  set (w2 := poke _ (x, y) w1) in Hs.
  assert (H2 : pond w2 q = pond w q) by (subst w2; pond_simpl; by rewrite Hp1).
  destruct (execute x y inst w2 v1) as [[[w3 v3] c]| |] eqn:Hex;
    cbn [mbind outcome_bind] in Hs; try discriminate.
  assert (w' = w3) as ->.
  { destruct c; [by injection Hs as <- _|]. inv_bind Hs. by injection Hs as <- _. }
  clear Hs. rewrite <- H2. unfold execute in Hex.
  destruct (nz (falseLoopDepth v1)).
  - destruct (inst =? 9); [|destruct (inst =? 10)]; by injection Hex as <- _ _.
  - destruct (count_instruction inst w2) as [w2'| |] eqn:Hc;
      cbn [mbind outcome_bind] in Hex; try discriminate.
    apply count_instruction_inv in Hc. rewrite <- Hc.
    destruct (dispatch_world _ _ _ _ _ _ _ _ Hi Hex) as (Hg & Hk & Hsh & Hn).
    destruct (decide (inst = 6 ∨ inst = 12)) as [E|E].
    { destruct (Hg E) as [g ->]. by pond_simpl. }
    destruct (decide (inst = 13)) as [E13|E13].
    { by apply (do_kill_local x y w2' w3 v1); auto. }
    destruct (decide (inst = 14)) as [E14|E14].
    { by apply (do_share_local x y w2' w3 v1); auto. }
    rewrite Hn; [done|lia..].
Qed.

Lemma exec_loop_local (fuel : nat) (x y : Z) (w w' : World) (v v' : VM)
  (n : nat) :
  exec_loop fuel x y w v = Done (w', v', n) →
  ∀ q, ¬ reachable x y q → pond w' q = pond w q.
Proof.
  revert w v w' v' n.
  induction fuel as [|fuel IH]; intros w v w' v' n H q Hq;
    cbn [exec_loop] in H; destruct (running x y w v); try discriminate.
  - by injection H as <- _ _.
  - destruct (step x y w v) as [[w1 v1]| |] eqn:Hs;
      cbn [mbind outcome_bind] in H; try discriminate.
    destruct (exec_loop fuel x y w1 v1) as [[[w2 v2] k]| |] eqn:Hl;
      cbn [mbind outcome_bind] in H; try discriminate.
    injection H as <- _ _.
    rewrite (IH _ _ _ _ _ Hl q Hq). by apply (step_local x y w w1 v v1).
  - by injection H as <- _ _.
Qed.

Lemma copy_words_local (n : nat) (i : Z) (src : list Z) (p : cellptr)
  (w w' : World) :
  copy_words n i src p w = Done w' → ∀ q, p ≠ q → pond w' q = pond w q.
Proof.
  revert i w. induction n as [|n IH]; intros i w H q Hq; cbn [copy_words] in H.
  - by injection H as <-.
  - inv_bind H. rewrite (IH _ _ H q Hq). by pond_simpl.
Qed.

Lemma commit_local (x y : Z) (w w' : World) (v : VM) :
  commit x y w v = Done w' →
  ∀ q, ¬ reachable x y q → pond w' q = pond w q.
Proof.
  unfold commit. set (nb := getNeighbor x y (facing v)). intros H q Hq.
  destruct (unreachable_ne x y q Hq) as [Hs Hn]. specialize (Hn (facing v)).
  fold nb in Hn.
  destruct (rd (outputBuf v) 0); cbn [mbind outcome_bind] in H;
    try discriminate.
  destruct (negb _); [|by injection H as <-].
  destruct (nz _); [|by injection H as <-].
  destruct (accessAllowed nb (reg v) 0 w) as [[b w1]| |] eqn:Hacc;
    cbn [mbind outcome_bind] in H; try discriminate.
  apply accessAllowed_inv in Hacc. subst w1.
  destruct b; [|by injection H as <-].
  set (w2 := if 2 <? _ then _ else _) in *.
  assert (Hp2 : pond w2 = pond w) by (subst w2; by destruct (2 <? _)).
  rewrite (copy_words_local _ _ _ _ _ _ H q Hn). pond_simpl.
  cbn [pond set_cellIdCounter]. by rewrite Hp2.
Qed.

(** X11.  Locality.  Whatever the genome of the cell at [(x, y)] makes the
    virtual machine do, the execution loop and the offspring copy that
    follows change no cell of the pond other than that cell and its four
    neighbors on the torus: every other cell keeps its id, parent,
    lineage, generation, energy and genome. *)
Theorem execution_is_local (fuel : nat) (x y : Z) (w w1 w2 : World)
  (v v1 : VM) (n : nat) :
  exec_loop fuel x y w v = Done (w1, v1, n) →
  commit x y w1 v1 = Done w2 →
  ∀ q, ¬ reachable x y q → pond w1 q = pond w q ∧ pond w2 q = pond w q.
Proof.
  intros He Hc q Hq.
  pose proof (exec_loop_local _ _ _ _ _ _ _ _ He q Hq) as H1.
  pose proof (commit_local _ _ _ _ _ Hc q Hq) as H2.
  split; [done|congruence].
Qed.

(** ** The main loop stays within bounds *)

Lemma foldl_ext_in {A B : Type} (f g : A → B → A) (l : list B) (a : A) :
  (∀ a x, x ∈ l → f a x = g a x) → foldl f a l = foldl g a l.
Proof.
  revert a. induction l as [|x l IH]; intros a H; cbn [foldl]; [done|].
  rewrite (H a x) by left. apply IH. intros a' x' Hx'. apply H. by right.
Qed.

(** The scan of the report reads the cells of the pond only. *)
Lemma scan_pond_in_pond (p p' : Pond) :
  (∀ x y, in_pond x y → p (x, y) = p' (x, y)) → scan_pond p = scan_pond p'.
Proof.
  intros H. unfold scan_pond. apply foldl_ext_in. intros acc x Hx.
  apply foldl_ext_in. intros acc' y Hy. rewrite H; [done|].
  apply elem_of_seqZ in Hx, Hy. unfold in_pond. lia.
Qed.

Lemma seed_cell_in_pond (w : World) : in_pond (seed_cell w).1 (seed_cell w).2.
Proof.
  unfold seed_cell. destruct (draw w) as [rx w1]. destruct (draw w1) as [ry w2].
  cbn [fst snd]. unfold in_pond, POND_SIZE_X, POND_SIZE_Y. lia.
Qed.

Lemma exec_cell_in_pond (w : World) : in_pond (exec_cell w).1 (exec_cell w).2.
Proof.
  unfold exec_cell. destruct (draw w) as [i w1].
  cbn [fst snd]. unfold in_pond, POND_SIZE_X, POND_SIZE_Y. lia.
Qed.

Lemma reachable_in_pond (x y : Z) (q : cellptr) :
  in_pond x y → reachable x y q → in_pond q.1 q.2.
Proof.
  intros Hxy [->|[->|[->|[->| ->]]]]; [done|by apply getNeighbor_in_pond..].
Qed.

(** Seeding writes the cell [seed_cell] and no other. *)
Lemma seed_at (w : World) :
  world_ok w →
  ∃ w', seed w = Done w' ∧ world_ok w' ∧
        ID (pond w' (seed_cell w)) = cellIdCounter w ∧
        ∀ q, q ≠ seed_cell w → pond w' q = pond w q.
Proof.
  intros Hw. destruct (seed_Done_ok w Hw) as (w' & Hs & Hw').
  exists w'. split; [done|]. split; [done|].
  revert Hs. unfold seed, seed_cell, draw.
  destruct (getRandom (prngState w)) as [r1 st1]. cbn [prngState set_prngState].
  destruct (getRandom st1) as [r2 st2]. cbn [prngState set_prngState].
  set (p := (r1 mod POND_SIZE_X, r2 mod POND_SIZE_Y)).
  rewrite !prngState_poke. cbn [prngState cellIdCounter set_prngState].
  destruct (getRandom st2) as [r3 st3].
  match goal with
  | |- context [fill_random ?n 0 p ?W] =>
      set (w4 := W);
      destruct (fill_random_Done n 0 p w4) as (w5 & -> & Hq & Hpp & _ & Hc & _)
  end.
  { lia. }
  { subst w4. seed_simpl. rewrite (proj1 Hw p). lia. }
  cbn [mbind outcome_bind]. intros [= <-].
  cbn [pond cellIdCounter set_cellIdCounter]. split.
  - rewrite Hpp. subst w4. by seed_simpl.
  - intros q Hne. rewrite Hq by done. subst w4. by seed_simpl.
Qed.

(** One iteration of the main loop, with the cells it indexes. *)
Lemma tick_cells (fuel : nat) (threadNo clock : Z) (w : World) (v : VM) :
  world_ok w →
  ∃ w1 w2,
    (if (threadNo =? 0) && negb (nz (u64 (clock + 1) mod REPORT_FREQUENCY))
     then doReport (u64 (clock + 1)) w else Done w) = Done w1 ∧
    pond w1 = pond w ∧
    (if negb (nz (u64 (clock + 1) mod INFLOW_FREQUENCY))
     then seed w1 else Done w1) = Done w2 ∧
    (negb (nz (u64 (clock + 1) mod INFLOW_FREQUENCY)) = true →
       ID (pond w2 (seed_cell w1)) = cellIdCounter w1) ∧
    (∀ q, q ≠ seed_cell w1 → pond w2 q = pond w1 q) ∧
    let p := exec_cell w2 in
    tick fuel threadNo clock w v =
      (let w3 := (draw w2).2 in
       v0 ← vm_reset p.1 p.2 w3 v;
       let s := statCounters w3 in
       let w4 := set_statCounters
                   (mkStats (instructionExecutions s)
                      (dbl_add (cellExecutions s) 1) (viableCellsReplaced s)
                      (viableCellsKilled s) (viableCellShares s)) w3 in
       '(w5, v5, _) ← exec_loop fuel p.1 p.2 w4 v0;
       w6 ← commit p.1 p.2 w5 v5;
       Done (u64 (clock + 1), w6, v5)) ∧
    ∀ c' w' v', tick fuel threadNo clock w v = Done (c', w', v') →
      ∀ q, ¬ reachable p.1 p.2 q → pond w' q = pond w2 q.
Proof.
  intros Hw.
  assert (H1 : ∃ w1, (if (threadNo =? 0) && negb (nz (u64 (clock + 1) mod REPORT_FREQUENCY))
                      then doReport (u64 (clock + 1)) w else Done w) = Done w1
                     ∧ pond w1 = pond w ∧ world_ok w1).
  { destruct (_ && _); [|by eexists].
    destruct (doReport_Done (u64 (clock + 1)) w (proj2 Hw))
      as (row & w1 & _ & -> & Hp & _ & _ & Hst & _).
    eexists. split; [reflexivity|]. split; [done|].
    split; [by rewrite Hp; apply Hw|]. red. by rewrite Hst. }
  destruct H1 as (w1 & E1 & Hp1 & Hw1).
  assert (H2 : ∃ w2, (if negb (nz (u64 (clock + 1) mod INFLOW_FREQUENCY))
                      then seed w1 else Done w1) = Done w2 ∧
                     (negb (nz (u64 (clock + 1) mod INFLOW_FREQUENCY)) = true →
                        ID (pond w2 (seed_cell w1)) = cellIdCounter w1) ∧
                     ∀ q, q ≠ seed_cell w1 → pond w2 q = pond w1 q).
  { destruct (negb (nz (u64 (clock + 1) mod INFLOW_FREQUENCY))).
    - destruct (seed_at w1 Hw1) as (w2 & Hs & _ & Hid & Hq).
      exists w2. split; [exact Hs|]. split; [intros _; exact Hid|exact Hq].
    - exists w1. split; [reflexivity|]. split; [intros [=]|done]. }
  destruct H2 as (w2 & E2 & Hid & Hq2).
  exists w1, w2. repeat (split; [done|]). cbn zeta.
  assert (Et : tick fuel threadNo clock w v =
      (let w3 := (draw w2).2 in
       v0 ← vm_reset (exec_cell w2).1 (exec_cell w2).2 w3 v;
       let s := statCounters w3 in
       let w4 := set_statCounters
                   (mkStats (instructionExecutions s)
                      (dbl_add (cellExecutions s) 1) (viableCellsReplaced s)
                      (viableCellsKilled s) (viableCellShares s)) w3 in
       '(w5, v5, _) ← exec_loop fuel (exec_cell w2).1 (exec_cell w2).2 w4 v0;
       w6 ← commit (exec_cell w2).1 (exec_cell w2).2 w5 v5;
       Done (u64 (clock + 1), w6, v5))).
  { unfold tick. cbn zeta. rewrite E1. cbn [mbind outcome_bind]. rewrite E2.
    cbn [mbind outcome_bind]. unfold exec_cell.
    destruct (draw w2) as [i w3]. reflexivity. }
  split; [exact Et|].
  intros c' w' v' Ht q Hq. rewrite Et in Ht. cbn zeta in Ht.
  set (x := (exec_cell w2).1) in *. set (y := (exec_cell w2).2) in *.
  assert (Hp3 : pond (draw w2).2 = pond w2).
  { unfold draw. by destruct (getRandom (prngState w2)). }
  destruct (vm_reset x y (draw w2).2 v) as [v0| |];
    cbn [mbind outcome_bind] in Ht; try discriminate.
  match type of Ht with
  | context [exec_loop fuel x y ?W v0] =>
      destruct (exec_loop fuel x y W v0) as [[[w5 v5] k]| |] eqn:He;
        cbn [mbind outcome_bind] in Ht; try discriminate
  end.
  destruct (commit x y w5 v5) as [w6| |] eqn:Hc;
    cbn [mbind outcome_bind] in Ht; try discriminate.
  injection Ht as _ <- _.
  rewrite (commit_local _ _ _ _ _ Hc q Hq).
  rewrite (exec_loop_local _ _ _ _ _ _ _ _ He q Hq).
  cbn [pond set_statCounters]. by rewrite Hp3.
Qed.

(** X6.  The main loop never leaves the bounds of an array or of the
    pond.  Started on a pond whose genomes and counters have their declared
    sizes, any number of iterations of [run] -- reports, seedings,
    executions and offspring copies included -- either completes or runs
    out of the fuel given to an execution loop; it never faults, the clock
    has then advanced by the number of iterations (modulo 2^64), the sizes
    and the machine invariant hold again, and nothing outside the
    [POND_SIZE_X] by [POND_SIZE_Y] cells of the pond has been written.  In
    the iteration that comes next, as in every one before, the cell that
    seeding picks and writes, the cell picked for execution and its four
    neighbors are cells of the pond; the iteration is the execution at the
    picked cell, and it changes no cell other than the seeded one, the
    picked one and its neighbors.  The scan of the report reads nothing
    but the cells of the pond. *)
Theorem run_stays_in_bounds (ticks fuel : nat) (threadNo clock : Z)
  (w : World) (v : VM) :
  world_ok w →
  length (outputBuf v) = Z.to_nat POND_DEPTH_SYSWORDS →
  length (loopStack_wordPtr v) = Z.to_nat POND_DEPTH →
  length (loopStack_shiftPtr v) = Z.to_nat POND_DEPTH →
  run ticks fuel threadNo clock w v ≠ Fault ∧
  (∀ c' w' v',
    run ticks fuel threadNo clock w v = Done (c', w', v') →
    world_ok w' ∧
    length (outputBuf v') = Z.to_nat POND_DEPTH_SYSWORDS ∧
    length (loopStack_wordPtr v') = Z.to_nat POND_DEPTH ∧
    length (loopStack_shiftPtr v') = Z.to_nat POND_DEPTH ∧
    u64 c' = u64 (clock + Z.of_nat ticks) ∧
    (∀ q, ¬ in_pond q.1 q.2 → pond w' q = pond w q) ∧
    ∃ w1 w2,
      (if (threadNo =? 0) && negb (nz (u64 (c' + 1) mod REPORT_FREQUENCY))
       then doReport (u64 (c' + 1)) w' else Done w') = Done w1 ∧
      pond w1 = pond w' ∧
      (if negb (nz (u64 (c' + 1) mod INFLOW_FREQUENCY))
       then seed w1 else Done w1) = Done w2 ∧
      in_pond (seed_cell w1).1 (seed_cell w1).2 ∧
      (negb (nz (u64 (c' + 1) mod INFLOW_FREQUENCY)) = true →
         ID (pond w2 (seed_cell w1)) = cellIdCounter w1) ∧
      (∀ q, q ≠ seed_cell w1 → pond w2 q = pond w1 q) ∧
      let p := exec_cell w2 in
      in_pond p.1 p.2 ∧
      (∀ dir, in_pond (getNeighbor p.1 p.2 dir).1 (getNeighbor p.1 p.2 dir).2) ∧
      tick fuel threadNo c' w' v' =
        (let w3 := (draw w2).2 in
         v0 ← vm_reset p.1 p.2 w3 v';
         let s := statCounters w3 in
         let w4 := set_statCounters
                     (mkStats (instructionExecutions s)
                        (dbl_add (cellExecutions s) 1) (viableCellsReplaced s)
                        (viableCellsKilled s) (viableCellShares s)) w3 in
         '(w5, v5, _) ← exec_loop fuel p.1 p.2 w4 v0;
         w6 ← commit p.1 p.2 w5 v5;
         Done (u64 (c' + 1), w6, v5)) ∧
      ∀ c'' w'' v'', tick fuel threadNo c' w' v' = Done (c'', w'', v'') →
        ∀ q, ¬ reachable p.1 p.2 q → pond w'' q = pond w2 q) ∧
  (∀ p p' : Pond,
     (∀ x y, in_pond x y → p (x, y) = p' (x, y)) → scan_pond p = scan_pond p').
Proof.
  intros Hw Hb Hsw Hss.
  assert (Hrun : run ticks fuel threadNo clock w v ≠ Fault ∧
    ∀ c' w' v',
      run ticks fuel threadNo clock w v = Done (c', w', v') →
      world_ok w' ∧
      length (outputBuf v') = Z.to_nat POND_DEPTH_SYSWORDS ∧
      length (loopStack_wordPtr v') = Z.to_nat POND_DEPTH ∧
      length (loopStack_shiftPtr v') = Z.to_nat POND_DEPTH ∧
      u64 c' = u64 (clock + Z.of_nat ticks) ∧
      (∀ q, ¬ in_pond q.1 q.2 → pond w' q = pond w q)).
  { revert clock w v Hw Hb Hsw Hss.
    induction ticks as [|ticks IH]; intros clock w v Hw Hb Hsw Hss; cbn [run].
    - split; [done|]. intros c' w' v' [= <- <- <-].
      repeat (split; [done|]). split; [f_equal; lia|done].
    - destruct (tick_sound fuel threadNo clock w v Hw Hb Hsw Hss)
        as [Ht|(w1 & v1 & Ht & Hw1 & Hv1)]; rewrite Ht; [by split|].
      cbn [mbind outcome_bind].
      destruct (IH (u64 (clock + 1)) w1 v1 Hw1 (ok_outputBuf _ Hv1)
                  (ok_stack_w _ Hv1) (ok_stack_s _ Hv1)) as [Hnf Hd].
      split; [done|]. intros c' w' v' Hr.
      destruct (Hd c' w' v' Hr) as (? & ? & ? & ? & Hc & Hout).
      repeat (split; [done|]). split.
      { rewrite Hc. unfold u64. rewrite Zplus_mod_idemp_l. f_equal. lia. }
      intros q Hq. rewrite (Hout q Hq).
      destruct (tick_cells fuel threadNo clock w v Hw)
        as (wa & wb & _ & Hpa & _ & _ & Hqb & _ & Hloc).
      cbn zeta in Hloc. rewrite (Hloc _ _ _ Ht q).
      + rewrite Hqb, Hpa; [done|]. intros ->. apply Hq, seed_cell_in_pond.
      + intros Hre. apply Hq.
        apply (reachable_in_pond (exec_cell wb).1 (exec_cell wb).2);
          [apply exec_cell_in_pond|done]. }
  destruct Hrun as [Hnf Hd]. split; [exact Hnf|].
  split; [|exact scan_pond_in_pond].
  intros c' w' v' Hr.
  destruct (Hd c' w' v' Hr) as (Hw' & ? & ? & ? & ? & ?).
  repeat (split; [done|]).
  destruct (tick_cells fuel threadNo c' w' v' Hw')
    as (w1 & w2 & E1 & Hp1 & E2 & Hid & Hq2 & Et & Hloc).
  exists w1, w2. split; [exact E1|]. split; [exact Hp1|]. split; [exact E2|].
  split; [apply seed_cell_in_pond|]. split; [exact Hid|]. split; [exact Hq2|].
  cbn zeta. split; [apply exec_cell_in_pond|].
  split; [intros dir; apply getNeighbor_in_pond, exec_cell_in_pond|].
  split; [exact Et|exact Hloc].
Qed.

(** ** Ids and parents *)

Lemma ids_ok_same (w w' : World) :
  (∀ q, ID (pond w' q) = ID (pond w q) ∧
        parentID (pond w' q) = parentID (pond w q)) →
  cellIdCounter w' = cellIdCounter w →
  ids_ok w → ids_ok w'.
Proof.
  intros Hq Hc [[Hw Hb] Hp]. split; [split|].
  - by rewrite Hc.
  - intros q. destruct (Hq q) as [-> _]. rewrite Hc. apply Hb.
  - intros q. destruct (Hq q) as [-> ->]. apply Hp.
Qed.

Lemma ids_ok_update (p : cellptr) (w w' : World) :
  ids_ok w → cellIdCounter w + 1 < 2 ^ 64 →
  cellIdCounter w' = u64 (cellIdCounter w + 1) →
  (∀ q, q ≠ p → ID (pond w' q) = ID (pond w q) ∧
                 parentID (pond w' q) = parentID (pond w q)) →
  0 ≤ ID (pond w' p) ≤ cellIdCounter w + 1 →
  parentID (pond w' p) = 0 ∨ parentID (pond w' p) < ID (pond w' p) →
  ids_ok w' ∧ cellIdCounter w' = cellIdCounter w + 1.
Proof.
  intros [[Hw Hb] Hp] Hlt Hc Hq Hid Hpar. red in Hw.
  assert (Hc' : cellIdCounter w' = cellIdCounter w + 1)
    by (rewrite Hc; apply u64_small; red; lia).
  split; [|done]. split; [split|].
  - red. lia.
  - intros q. destruct (decide (q = p)) as [->|Hne]; [lia|].
    destruct (Hq q Hne) as [-> _]. specialize (Hb q). lia.
  - intros q. destruct (decide (q = p)) as [->|Hne]; [done|].
    destruct (Hq q Hne) as [-> ->]. apply Hp.
Qed.

Lemma ID_poke_keep (f : Cell → Cell) (p q : cellptr) (w : World) :
  (∀ c, ID (f c) = ID c) → ID (pond (poke f p w) q) = ID (pond w q).
Proof.
  intros Hf. destruct (decide (p = q)) as [<-|?]; pond_simpl; [apply Hf|done].
Qed.

Lemma parentID_poke_keep (f : Cell → Cell) (p q : cellptr) (w : World) :
  (∀ c, parentID (f c) = parentID c) →
  parentID (pond (poke f p w) q) = parentID (pond w q).
Proof.
  intros Hf. destruct (decide (p = q)) as [<-|?]; pond_simpl; [apply Hf|done].
Qed.

Lemma do_kill_ids (x y : Z) (w w' : World) (v : VM) :
  do_kill x y w v = Done w' →
  ids_ok w → cellIdCounter w + 1 < 2 ^ 64 →
  ids_ok w' ∧ cellIdCounter w ≤ cellIdCounter w' ≤ cellIdCounter w + 1.
Proof.
  unfold do_kill. set (nb := getNeighbor x y (facing v)). intros H Hok Hlt.
  destruct (accessAllowed nb (reg v) 0 w) as [[b w1]| |] eqn:Hacc;
    cbn [mbind outcome_bind] in H; try discriminate.
  apply accessAllowed_inv in Hacc. subst w1.
  set (w1 := set_prngState _ w) in *.
  destruct b.
  - set (w2 := if 2 <? _ then _ else _) in *.
    assert (Hp2 : pond w2 = pond w) by (subst w2; by destruct (2 <? _)).
    assert (Hc2 : cellIdCounter w2 = cellIdCounter w)
      by (subst w2; by destruct (2 <? _)).
    inv_bind H. injection H as <-.
    match goal with
    | |- ids_ok ?W ∧ _ =>
        destruct (ids_ok_update nb w W) as [Hok' Hc']; try done
    end.
    + cbn [cellIdCounter set_cellIdCounter]. pond_simpl. by rewrite Hc2.
    + intros q Hq. cbn [pond set_cellIdCounter]. pond_simpl. by rewrite Hp2.
    + cbn [pond set_cellIdCounter]. pond_simpl. cbn. rewrite Hc2.
      destruct Hok as [[Hw _] _]. red in Hw. lia.
    + left. cbn [pond set_cellIdCounter]. by pond_simpl.
    + split; [done|lia].
  - change (pond w1) with (pond w) in H.
    assert (ids_ok w' ∧ cellIdCounter w' = cellIdCounter w) as [? ->];
      [|split; [done|lia]].
    inv_bind H; injection H as <-; (split; [|done]);
      try done; apply (ids_ok_same w); try done;
      intros q; by rewrite ID_poke_keep, parentID_poke_keep.
Qed.

Lemma do_share_ids (x y : Z) (w w' : World) (v : VM) :
  do_share x y w v = Done w' →
  (∀ q, ID (pond w' q) = ID (pond w q) ∧
        parentID (pond w' q) = parentID (pond w q)) ∧
  cellIdCounter w' = cellIdCounter w.
Proof.
  unfold do_share. set (nb := getNeighbor x y (facing v)). intros H.
  destruct (accessAllowed nb (reg v) 1 w) as [[b w1]| |] eqn:Hacc;
    cbn [mbind outcome_bind] in H; try discriminate.
  apply accessAllowed_inv in Hacc. subst w1.
  destruct b.
  - set (w2 := if 2 <? _ then _ else _) in *.
    assert (Hp2 : pond w2 = pond w) by (subst w2; by destruct (2 <? _)).
    assert (Hc2 : cellIdCounter w2 = cellIdCounter w)
      by (subst w2; by destruct (2 <? _)).
    injection H as <-. split; [|by pond_simpl].
    intros q. by rewrite !ID_poke_keep, !parentID_poke_keep, Hp2.
  - by injection H as <-.
Qed.

Lemma step_ids (x y : Z) (w w' : World) (v v' : VM) :
  step x y w v = Done (w', v') →
  ids_ok w → cellIdCounter w + 1 < 2 ^ 64 →
  ids_ok w' ∧ cellIdCounter w ≤ cellIdCounter w' ≤ cellIdCounter w + 1.
Proof.
  intros Hs Hok Hlt. unfold step in Hs.
  destruct (fetch_mutate w v) as [[[inst w1] v1]| |] eqn:Hfm;
    cbn [mbind outcome_bind] in Hs; try discriminate.
  destruct (fetch_mutate_inv _ _ _ _ _ Hfm) as (Hi & Hp1 & Hc1 & _).
  set (w2 := poke _ (x, y) w1) in Hs.
  assert (Hok2 : ids_ok w2).
  { apply (ids_ok_same w); [|by subst w2; pond_simpl|done].
    intros q. subst w2. rewrite ID_poke_keep, parentID_poke_keep, Hp1 by done.
    done. }
  assert (Hc2 : cellIdCounter w2 = cellIdCounter w) by (subst w2; by pond_simpl).
  rewrite <- Hc2 in *.
  destruct (execute x y inst w2 v1) as [[[w3 v3] c]| |] eqn:Hex;
    cbn [mbind outcome_bind] in Hs; try discriminate.
  assert (w' = w3) as ->.
  { destruct c; [by injection Hs as <- _|]. inv_bind Hs. by injection Hs as <- _. }
  clear Hs. unfold execute in Hex.
  destruct (nz (falseLoopDepth v1)).
  - assert (w3 = w2) as ->; [|split; [done|lia]].
    destruct (inst =? 9); [|destruct (inst =? 10)]; by injection Hex as <- _ _.
  - destruct (count_instruction inst w2) as [w2'| |] eqn:Hc;
      cbn [mbind outcome_bind] in Hex; try discriminate.
    assert (Hc' : cellIdCounter w2' = cellIdCounter w2).
    { unfold count_instruction in Hc. inv_bind Hc. by injection Hc as <-. }
    apply count_instruction_inv in Hc.
    assert (Hok2' : ids_ok w2') by (apply (ids_ok_same w2); by rewrite ?Hc).
    rewrite <- Hc' in *.
    destruct (dispatch_world _ _ _ _ _ _ _ _ Hi Hex) as (Hg & Hk & Hsh & Hn).
    destruct (decide (inst = 6 ∨ inst = 12)) as [E|E].
    { destruct (Hg E) as [g ->]. split; [|pond_simpl; lia].
      apply (ids_ok_same w2'); [|by pond_simpl|done].
      intros q. by rewrite ID_poke_keep, parentID_poke_keep. }
    destruct (decide (inst = 13)) as [E13|E13].
    { by apply (do_kill_ids x y w2' w3 v1); auto. }
    destruct (decide (inst = 14)) as [E14|E14].
    { destruct (do_share_ids x y w2' w3 v1 (Hsh E14)) as [Hq Hcs].
      split; [by apply (ids_ok_same w2')|lia]. }
    rewrite Hn; [|lia..]. split; [done|lia].
Qed.

Lemma exec_loop_ids (fuel : nat) (x y : Z) (w w' : World) (v v' : VM)
  (n : nat) :
  exec_loop fuel x y w v = Done (w', v', n) →
  ids_ok w → cellIdCounter w + Z.of_nat fuel < 2 ^ 64 →
  ids_ok w' ∧
  cellIdCounter w ≤ cellIdCounter w' ≤ cellIdCounter w + Z.of_nat fuel.
Proof.
  revert w v w' v' n.
  induction fuel as [|fuel IH]; intros w v w' v' n H Hok Hlt;
    cbn [exec_loop] in H; destruct (running x y w v); try discriminate.
  - injection H as <- _ _. split; [done|lia].
  - destruct (step x y w v) as [[w1 v1]| |] eqn:Hs;
      cbn [mbind outcome_bind] in H; try discriminate.
    destruct (exec_loop fuel x y w1 v1) as [[[w2 v2] k]| |] eqn:Hl;
      cbn [mbind outcome_bind] in H; try discriminate.
    injection H as <- _ _.
    destruct (step_ids _ _ _ _ _ _ Hs Hok) as [Hok1 Hc1]; [lia|].
    destruct (IH _ _ _ _ _ Hl Hok1) as [Hok2 Hc2]; [lia|].
    split; [done|lia].
  - injection H as <- _ _. split; [done|lia].
Qed.

Lemma fill_random_ids (n : nat) (i : Z) (p : cellptr) (w w' : World) :
  fill_random n i p w = Done w' →
  (∀ q, ID (pond w' q) = ID (pond w q) ∧
        parentID (pond w' q) = parentID (pond w q)) ∧
  cellIdCounter w' = cellIdCounter w.
Proof.
  revert i w. induction n as [|n IH]; intros i w H; cbn [fill_random] in H.
  - by injection H as <-.
  - unfold draw in H. destruct (getRandom (prngState w)) as [r st].
    cbn [pond set_prngState] in H.
    inv_bind H. destruct (IH _ _ H) as [Hq Hc]. split.
    + intros q. destruct (Hq q) as [-> ->].
      by rewrite ID_poke_keep, parentID_poke_keep.
    + by rewrite Hc.
Qed.

Lemma copy_words_ids (n : nat) (i : Z) (src : list Z) (p : cellptr)
  (w w' : World) :
  copy_words n i src p w = Done w' →
  (∀ q, ID (pond w' q) = ID (pond w q) ∧
        parentID (pond w' q) = parentID (pond w q)) ∧
  cellIdCounter w' = cellIdCounter w.
Proof.
  revert i w. induction n as [|n IH]; intros i w H; cbn [copy_words] in H.
  - by injection H as <-.
  - inv_bind H. destruct (IH _ _ H) as [Hq Hc]. split.
    + intros q. destruct (Hq q) as [-> ->].
      by rewrite ID_poke_keep, parentID_poke_keep.
    + by rewrite Hc.
Qed.

Lemma seed_ids (w w' : World) :
  seed w = Done w' →
  ids_ok w → cellIdCounter w + 1 < 2 ^ 64 →
  ids_ok w' ∧ cellIdCounter w' = cellIdCounter w + 1.
Proof.
  unfold seed, draw. intros H Hok Hlt.
  destruct (getRandom (prngState w)) as [r1 st1].
  cbn [prngState set_prngState] in H.
  destruct (getRandom st1) as [r2 st2]. cbn [prngState set_prngState] in H.
  set (p := (r1 mod POND_SIZE_X, r2 mod POND_SIZE_Y)) in H.
  rewrite !prngState_poke in H. cbn [prngState cellIdCounter set_prngState] in H.
  destruct (getRandom st2) as [r3 st3].
  match type of H with
  | context [fill_random ?n 0 p ?W] =>
      set (w4 := W) in H;
      destruct (fill_random n 0 p w4) as [w5| |] eqn:Hf;
        cbn [mbind outcome_bind] in H; try discriminate
  end.
  injection H as <-. destruct (fill_random_ids _ _ _ _ _ Hf) as [Hq Hc].
  apply (ids_ok_update p w); try done.
  - cbn [cellIdCounter set_cellIdCounter]. rewrite Hc. subst w4. by seed_simpl.
  - intros q Hne. cbn [pond set_cellIdCounter]. destruct (Hq q) as [-> ->].
    subst w4. by seed_simpl.
  - cbn [pond set_cellIdCounter]. destruct (Hq p) as [-> _]. subst w4.
    seed_simpl. destruct Hok as [[Hw _] _]. red in Hw. lia.
  - left. cbn [pond set_cellIdCounter]. destruct (Hq p) as [_ ->]. subst w4.
    by seed_simpl.
Qed.

Lemma commit_ids (x y : Z) (w w' : World) (v : VM) :
  in_pond x y → 0 ≤ facing v < 4 →
  commit x y w v = Done w' →
  ids_ok w → cellIdCounter w + 1 < 2 ^ 64 →
  ids_ok w' ∧ cellIdCounter w ≤ cellIdCounter w' ≤ cellIdCounter w + 1.
Proof.
  intros Hxy Hf H Hok Hlt. unfold commit in H.
  pose proof (getNeighbor_ne x y (facing v) Hxy Hf) as Hne.
  set (nb := getNeighbor x y (facing v)) in *.
  destruct (rd (outputBuf v) 0); cbn [mbind outcome_bind] in H;
    try discriminate.
  destruct (negb _); [|injection H as <-; split; [done|lia]].
  destruct (nz _); [|injection H as <-; split; [done|lia]].
  destruct (accessAllowed nb (reg v) 0 w) as [[b w1]| |] eqn:Hacc;
    cbn [mbind outcome_bind] in H; try discriminate.
  apply accessAllowed_inv in Hacc. subst w1.
  assert (Hst : ids_ok (set_prngState (getRandom (prngState w)).2 w))
    by (by apply (ids_ok_same w)).
  destruct b; [|injection H as <-; split; [done|cbn; lia]].
  set (w2 := if 2 <? _ then _ else _) in *.
  assert (Hp2 : pond w2 = pond w) by (subst w2; by destruct (2 <? _)).
  assert (Hc2 : cellIdCounter w2 = cellIdCounter w)
    by (subst w2; by destruct (2 <? _)).
  destruct (copy_words_ids _ _ _ _ _ _ H) as [Hq Hc].
  destruct Hok as [[Hw Hb] Hp]. red in Hw.
  assert (Hu : u64 (cellIdCounter w + 1) = cellIdCounter w + 1)
    by (apply u64_small; red; lia).
  destruct (ids_ok_update nb w w') as [Hok' Hc']; try done.
  - rewrite Hc. pond_simpl. cbn [cellIdCounter set_cellIdCounter].
    by rewrite Hc2.
  - intros q Hq'. destruct (Hq q) as [-> ->]. pond_simpl.
    cbn [pond set_cellIdCounter]. by rewrite Hp2.
  - destruct (Hq nb) as [-> _]. pond_simpl. cbn [ID set_generation set_lineage
      set_parentID set_ID cellIdCounter set_cellIdCounter]. rewrite Hc2. lia.
  - right. destruct (Hq nb) as [-> ->]. pond_simpl.
    cbn [ID parentID set_generation set_lineage set_parentID set_ID
         cellIdCounter set_cellIdCounter pond]. rewrite Hc2, Hp2, Hu.
    specialize (Hb (x, y)). lia.
  - split; [done|lia].
Qed.

Lemma tick_ids (fuel : nat) (threadNo clock c' : Z) (w w' : World) (v v' : VM) :
  world_ok w →
  length (outputBuf v) = Z.to_nat POND_DEPTH_SYSWORDS →
  length (loopStack_wordPtr v) = Z.to_nat POND_DEPTH →
  length (loopStack_shiftPtr v) = Z.to_nat POND_DEPTH →
  ids_ok w → cellIdCounter w + Z.of_nat fuel + 2 < 2 ^ 64 →
  tick fuel threadNo clock w v = Done (c', w', v') →
  world_ok w' ∧ vm_ok v' ∧ ids_ok w' ∧
  cellIdCounter w ≤ cellIdCounter w' ≤ cellIdCounter w + Z.of_nat fuel + 2.
Proof.
  intros Hw Hb Hsw Hss Hok Hlt. unfold tick.
  assert (H1 : ∃ w1, (if (threadNo =? 0) && negb (nz (u64 (clock + 1) mod REPORT_FREQUENCY))
                      then doReport (u64 (clock + 1)) w else Done w) = Done w1
                     ∧ world_ok w1 ∧ ids_ok w1 ∧
                     cellIdCounter w1 = cellIdCounter w).
  { destruct (_ && _); [|by eexists].
    destruct (doReport_Done (u64 (clock + 1)) w (proj2 Hw))
      as (row & w1 & _ & -> & Hp & Hc & _ & Hst & _).
    eexists. split; [reflexivity|]. split; [|split; [|done]].
    - split; [by rewrite Hp; apply Hw|]. red. by rewrite Hst.
    - apply (ids_ok_same w); by rewrite ?Hp. }
  destruct H1 as (w1 & -> & Hw1 & Hok1 & Hc1). cbn [mbind outcome_bind].
  assert (H2 : ∃ w2, (if negb (nz (u64 (clock + 1) mod INFLOW_FREQUENCY))
                      then seed w1 else Done w1) = Done w2 ∧ world_ok w2 ∧
                     ids_ok w2 ∧
                     cellIdCounter w1 ≤ cellIdCounter w2 ≤ cellIdCounter w1 + 1).
  { destruct (negb _).
    - destruct (seed_Done_ok w1 Hw1) as (w2 & Hs & Hw2).
      destruct (seed_ids w1 w2 Hs Hok1) as [Hok2 Hc2]; [lia|].
      exists w2. split; [done|]. split; [done|]. split; [done|lia].
    - exists w1. split; [done|]. split; [done|]. split; [done|lia]. }
  destruct H2 as (w2 & -> & Hw2 & Hok2 & Hc2). cbn [mbind outcome_bind].
  unfold draw. destruct (getRandom (prngState w2)) as [i st].
  set (w3 := set_prngState st w2).
  set (x := i mod POND_SIZE_X). set (y := Z.shiftr (i / POND_SIZE_X) 1 mod POND_SIZE_Y).
  assert (Hxy : in_pond x y).
  { subst x y. unfold in_pond, POND_SIZE_X, POND_SIZE_Y. lia. }
  assert (Hw3 : world_ok w3) by exact Hw2.
  destruct (vm_reset_Done x y w3 v (proj1 Hw3) Hb Hsw Hss) as (v0 & -> & Hv0 & _).
  cbn [mbind outcome_bind].
  set (w4 := set_statCounters _ w3).
  assert (Hw4 : world_ok w4) by (split; [apply Hw3|exact (proj2 Hw3)]).
  assert (Hok4 : ids_ok w4) by (by apply (ids_ok_same w2)).
  assert (Hc4 : cellIdCounter w4 = cellIdCounter w2) by done.
  destruct (exec_loop_sound fuel x y w4 v0 Hw4 Hv0)
    as [->|(w5 & v5 & k & He & Hw5 & Hv5 & _)]; [discriminate|].
  rewrite He. cbn [mbind outcome_bind].
  destruct (exec_loop_ids _ _ _ _ _ _ _ _ He Hok4) as [Hok5 Hc5]; [lia|].
  destruct (commit_Done_ok x y w5 v5 Hw5 (ok_outputBuf _ Hv5)) as (w6 & Hcm & Hw6).
  rewrite Hcm. cbn [mbind outcome_bind].
  destruct (commit_ids x y w5 w6 v5 Hxy (ok_facing _ Hv5) Hcm Hok5)
    as [Hok6 Hc6]; [lia|].
  intros [= _ <- <-]. repeat (split; [done|]). lia.
Qed.

(** X12.  Ids and parents.  As long as the id counter does not wrap
    around, the main loop keeps the ids consistent: the counter never
    decreases, no cell carries an id above the counter, and the parent id
    of every cell is zero (it was seeded or killed) or smaller than the
    cell's own id.  In the state set up by [main] all ids and the counter
    are zero, so this holds from the start. *)
Theorem run_keeps_ids_ok (ticks fuel : nat) (threadNo clock c' : Z)
  (w w' : World) (v v' : VM) :
  world_ok w →
  length (outputBuf v) = Z.to_nat POND_DEPTH_SYSWORDS →
  length (loopStack_wordPtr v) = Z.to_nat POND_DEPTH →
  length (loopStack_shiftPtr v) = Z.to_nat POND_DEPTH →
  ids_ok w →
  cellIdCounter w + Z.of_nat ticks * (Z.of_nat fuel + 2) < 2 ^ 64 →
  run ticks fuel threadNo clock w v = Done (c', w', v') →
  ids_ok w' ∧
  cellIdCounter w ≤ cellIdCounter w'
    ≤ cellIdCounter w + Z.of_nat ticks * (Z.of_nat fuel + 2).
Proof.
  revert clock w v.
  induction ticks as [|ticks IH]; intros clock w v Hw Hb Hsw Hss Hok Hlt;
    cbn [run].
  - intros [= _ <- _]. split; [done|lia].
  - destruct (tick fuel threadNo clock w v) as [[[c1 w1] v1]| |] eqn:Ht;
      cbn [mbind outcome_bind]; try discriminate.
    assert (Hs : Z.of_nat (S ticks) * (Z.of_nat fuel + 2)
                 = Z.of_nat ticks * (Z.of_nat fuel + 2) + (Z.of_nat fuel + 2))
      by lia.
    assert (Hnn : 0 ≤ Z.of_nat ticks * (Z.of_nat fuel + 2))
      by (apply Z.mul_nonneg_nonneg; lia).
    rewrite Hs in *.
    destruct (tick_ids fuel threadNo clock c1 w w1 v v1 Hw Hb Hsw Hss Hok
                ltac:(lia) Ht)
      as (Hw1 & Hv1 & Hok1 & Hc1).
    intros Hr.
    destruct (IH c1 w1 v1 Hw1 (ok_outputBuf _ Hv1) (ok_stack_w _ Hv1)
                (ok_stack_s _ Hv1) Hok1 ltac:(lia) Hr) as [Hok' Hc'].
    split; [done|lia].
Qed.

(** ** The instruction fetch *)

Lemma rd_inv (a : list Z) (i v : Z) :
  rd a i = Done v → 0 ≤ i ∧ a !! Z.to_nat i = Some v.
Proof.
  unfold rd. destruct (decide (0 ≤ i)); [|done].
  destruct (a !! Z.to_nat i); [|done]. by intros [= ->].
Qed.

Lemma bump_cursor_off_logo (wp sp : Z) :
  codon_pos wp sp → (bump_cursor wp sp).1 ≠ (0, 0).
Proof.
  intros H. unfold bump_cursor. unfold_consts.
  change (1024 / (8 * 2)) with 64 in *. change (8 * 8) with 64 in *.
  split_tests; cbn [fst snd]; intros [=]; lia.
Qed.

Lemma fetch_ok_frame (x y : Z) (w w' : World) (v v' : VM) :
  genome (pond w' (x, y)) = genome (pond w (x, y)) →
  currentWord v' = currentWord v →
  wordPtr v' = wordPtr v → shiftPtr v' = shiftPtr v →
  loopStack_wordPtr v' = loopStack_wordPtr v →
  loopStack_shiftPtr v' = loopStack_shiftPtr v →
  loopStackPtr v' = loopStackPtr v →
  fetch_ok x y w v → fetch_ok x y w' v'.
Proof.
  intros Hg Hc Hw Hs Hsw Hss Hp (H1 & H2 & H3). red.
  rewrite Hg, Hc, Hw, Hs, Hsw, Hss, Hp. done.
Qed.

Lemma fetch_ok_refresh (x y : Z) (w : World) (v : VM) (wp sp cw : Z) :
  rd (genome (pond w (x, y))) wp = Done cw →
  (wp, sp) ≠ (0, 0) →
  (∀ i wp sp, 0 ≤ i < loopStackPtr v →
     loopStack_wordPtr v !! Z.to_nat i = Some wp →
     loopStack_shiftPtr v !! Z.to_nat i = Some sp →
     (wp, sp) ≠ (0, 0)) →
  fetch_ok x y w (set_currentWord cw (set_cursor wp sp v)).
Proof.
  intros Hr Hne Hst. apply rd_inv in Hr as [_ Hr]. by split.
Qed.

Lemma dispatch_fetch_ok (x y inst : Z) (w w' : World) (v v' : VM) (c : bool) :
  0 ≤ inst < 16 → in_pond x y → vm_ok v →
  fetch_ok x y w v →
  dispatch x y inst w v = Done (w', v', c) →
  fetch_ok x y w' v'.
Proof.
  intros Hi Hxy Hv Hf H.
  pose proof (getNeighbor_ne x y (facing v) Hxy (ok_facing _ Hv)) as Hnb.
  pose proof Hf as (Hcw & Hcur & Hst).
  destruct (decide (inst = 9)) as [->|N9].
  { cbn [dispatch] in H. destruct (nz (reg v)).
    - destruct (Z.leb_spec POND_DEPTH (loopStackPtr v)) as [G|G].
      + injection H as <- <- <-. by apply (fetch_ok_frame x y w w v).
      + inv_bind H. injection H as <- <- <-.
        unfold wr in E, E0. destruct (decide _) as [Gw|] in E; [|done].
        destruct (decide _) as [Gs|] in E0; [|done].
        injection E as <-. injection E0 as <-.
        split; [done|]. split; [done|]. cbn.
        intros i wp sp Hi'.
        assert (i ≤ loopStackPtr v) by (unfold u64 in Hi'; lia).
        destruct (decide (i = loopStackPtr v)) as [->|Hne].
        * rewrite !list_lookup_insert_eq by lia. by intros [= <-] [= <-].
        * rewrite !list_lookup_insert_ne by lia. apply Hst. lia.
    - injection H as <- <- <-. by apply (fetch_ok_frame x y w w v). }
  destruct (decide (inst = 10)) as [->|N10].
  { cbn [dispatch] in H. unfold nz at 1 in H.
    destruct (Z.eqb_spec (loopStackPtr v) 0) as [E|E]; cbn [negb] in H.
    - by injection H as <- <- <-.
    - pose proof (ok_depth _ Hv) as Hd.
      assert (Hu : u64 (loopStackPtr v - 1) = loopStackPtr v - 1)
        by (apply u64_small; red; unfold POND_DEPTH in *; lia).
      cbn [reg loopStackPtr loopStack_wordPtr loopStack_shiftPtr
           set_loopStack] in H. rewrite Hu in H.
      assert (Hst' : ∀ i wp sp, 0 ≤ i < loopStackPtr v - 1 →
         loopStack_wordPtr v !! Z.to_nat i = Some wp →
         loopStack_shiftPtr v !! Z.to_nat i = Some sp → (wp, sp) ≠ (0, 0))
        by (intros i wp sp Hi'; apply Hst; lia).
      destruct (nz (reg v)).
      + inv_bind H. injection H as <- <- <-.
        apply rd_inv in E0 as [_ E0]. apply rd_inv in E1 as [_ E1].
        apply fetch_ok_refresh; [done| |done].
        apply (Hst (loopStackPtr v - 1)); [lia|done..].
      + injection H as <- <- <-. split; [done|]. by split. }
  destruct (decide (inst = 12)) as [->|N12].
  { cbn [dispatch] in H.
    pose proof (bump_cursor_off_logo _ _ (ok_cursor _ Hv)) as Hb.
    destruct (bump_cursor (wordPtr v) (shiftPtr v)) as [[wp sp] r].
    cbn [fst] in Hb. inv_bind H. injection H as <- <- <-.
    apply (fetch_ok_refresh x y _ (set_reg _ v)); done. }
  destruct (decide (inst = 6)) as [->|N6].
  { cbn [dispatch] in H. inv_bind H. injection H as <- <- <-.
    apply rd_inv in E0 as [_ E0]. split; [done|]. by split. }
  destruct (decide (inst = 13)) as [->|N13].
  { cbn [dispatch] in H.
    destruct (do_kill x y w v) as [wk| |] eqn:E; cbn [mbind outcome_bind] in H;
      try discriminate.
    injection H as <- <- <-. destruct (do_kill_frame _ _ _ _ _ E) as [Hg _].
    apply (fetch_ok_frame x y w wk v); try done. apply Hg. congruence. }
  destruct (decide (inst = 14)) as [->|N14].
  { cbn [dispatch] in H.
    destruct (do_share x y w v) as [ws| |] eqn:E; cbn [mbind outcome_bind] in H;
      try discriminate.
    injection H as <- <- <-. apply (fetch_ok_frame x y w ws v); try done.
    by apply (do_share_frame x y w ws v). }
  nibble inst Hi; try lia; cbn [dispatch] in H; inv_bind H;
    injection H as <- <- <-; by apply (fetch_ok_frame x y w w v).
Qed.

Lemma step_fetch_ok (x y : Z) (w w' : World) (v v' : VM) :
  in_pond x y → world_ok w → vm_ok v →
  fetch_ok x y w v →
  step x y w v = Done (w', v') →
  fetch_ok x y w' v'.
Proof.
  intros Hxy Hw Hv Hf Hs. unfold step in Hs.
  destruct (fetch_mutate w v) as [[[inst w1] v1]| |] eqn:Hfm;
    cbn [mbind outcome_bind] in Hs; try discriminate.
  pose proof (vm_ok_fetch_mutate _ _ _ _ _ Hfm Hv) as Hv1.
  destruct (fetch_mutate_inv _ _ _ _ _ Hfm) as (Hi & Hp1 & _ & Hs1 & Hr).
  set (w2 := poke _ (x, y) w1) in Hs.
  assert (Hf2 : fetch_ok x y w2 v1).
  { apply (fetch_ok_frame x y w w2 v v1); try done;
      try (destruct Hr as [->|(r & _ & ->)]; done).
    subst w2. by rewrite (genome_poke_spend (fun e => u64 (e - 1))), Hp1. }
  destruct (execute x y inst w2 v1) as [[[w3 v3] c]| |] eqn:Hex;
    cbn [mbind outcome_bind] in Hs; try discriminate.
  assert (Hf3 : fetch_ok x y w3 v3).
  { unfold execute in Hex. destruct (nz (falseLoopDepth v1)).
    - destruct (inst =? 9); [|destruct (inst =? 10)]; injection Hex as <- <- _;
        by apply (fetch_ok_frame x y w2 w2 v1).
    - destruct (count_instruction inst w2) as [w2'| |] eqn:Hc;
        cbn [mbind outcome_bind] in Hex; try discriminate.
      apply count_instruction_inv in Hc.
      apply (dispatch_fetch_ok x y inst w2' w3 v1 v3 c); try done.
      apply (fetch_ok_frame x y w2 w2' v1 v1); try done. by rewrite Hc. }
  destruct c; [by injection Hs as <- <-|].
  assert (Hv3 : codon_pos (wordPtr v3) (shiftPtr v3)).
  { assert (Hw2 : world_ok w2).
    { destruct Hw as [Hp Hst]. split.
      - apply pond_ok_poke_len; [by rewrite Hp1|done].
      - red. subst w2. pond_simpl. by rewrite Hs1. }
    destruct (execute_Done x y inst w2 v1 Hi Hw2 Hv1)
      as (? & ? & ? & Hex' & _ & Hv3).
    rewrite Hex in Hex'. injection Hex' as <- <- <-. apply Hv3. }
  unfold advance in Hs.
  pose proof (bump_cursor_off_logo _ _ Hv3) as Hb.
  destruct Hf3 as (Hcw & _ & Hst).
  unfold bump_cursor in Hs, Hb.
  destruct (SYSWORD_BITS <=? u64 (shiftPtr v3 + 4)).
  - destruct (POND_DEPTH_SYSWORDS <=? u64 (wordPtr v3 + 1));
      cbn [fst snd] in Hs, Hb; inv_bind Hs; injection Hs as <- <-;
      inv_bind E; injection E as <-; by apply fetch_ok_refresh.
  - cbn [fst snd mbind outcome_bind] in Hs, Hb. injection Hs as <- <-.
    split; [done|]. by split.
Qed.

Lemma iter_step_fetch_ok (n : nat) (x y : Z) (w : World) (v : VM) :
  in_pond x y → world_ok w → vm_ok v → fetch_ok x y w v →
  ∃ w' v', iter_step n x y w v = Done (w', v') ∧
           world_ok w' ∧ vm_ok v' ∧ fetch_ok x y w' v'.
Proof.
  intros Hxy. revert w v.
  induction n as [|n IH]; intros w v Hw Hv Hf; cbn [iter_step].
  - by exists w, v.
  - destruct (running x y w v); [|by exists w, v].
    destruct (step_Done x y w v Hw Hv) as (w1 & v1 & Hs & Hw1 & Hv1).
    rewrite Hs. cbn [mbind outcome_bind]. apply IH; try done.
    by apply (step_fetch_ok x y w w1 v v1).
Qed.

(** X13.  The instruction fetch is coherent and never reaches the first
    codon.  The execution loop reads instructions from [currentWord], a
    copy of one word of the genome that the program refreshes by hand;
    after any number of iterations from the reset state that copy is
    still the word of the cell's genome under the cursor, whatever the
    cell has written to its genome in between, and the cursor -- also
    after a jump back by REP or a wrap around the end of the genome -- is
    never on codon 0 of word 0. *)
Theorem fetch_is_coherent (n : nat) (x y : Z) (w : World) (v0 : VM) :
  in_pond x y → world_ok w →
  length (outputBuf v0) = Z.to_nat POND_DEPTH_SYSWORDS →
  length (loopStack_wordPtr v0) = Z.to_nat POND_DEPTH →
  length (loopStack_shiftPtr v0) = Z.to_nat POND_DEPTH →
  ∃ v w' v',
    vm_reset x y w v0 = Done v ∧
    iter_step n x y w v = Done (w', v') ∧
    rd (genome (pond w' (x, y))) (wordPtr v') = Done (currentWord v') ∧
    (wordPtr v', shiftPtr v') ≠ (0, 0).
Proof.
  intros Hxy Hw Hb Hsw Hss.
  destruct (vm_reset_Done x y w v0 (proj1 Hw) Hb Hsw Hss)
    as (v & Hr & Hv & Hwp & Hsp & Hlp & _ & _ & _ & _ & Hcw).
  assert (Hf : fetch_ok x y w v).
  { split; [|split].
    - rewrite Hwp, Hcw. change (Z.to_nat EXEC_START_WORD) with 0%nat.
      destruct (lookup_lt_is_Some_2 (genome (pond w (x, y))) 0) as [g ->];
        [|done].
      rewrite (proj1 Hw (x, y)), depth_syswords. lia.
    - rewrite Hwp, Hsp. done.
    - intros i wp sp Hi. lia. }
  destruct (iter_step_fetch_ok n x y w v Hxy Hw Hv Hf)
    as (w' & v' & Hi & _ & Hv' & Hcw' & Hne & _).
  exists v, w', v'. split; [done|]. split; [done|]. split; [|done].
  unfold rd. destruct (ok_cursor _ Hv') as (? & _).
  destruct (decide _); [|lia]. by rewrite Hcw'.
Qed.

(** ** Statistics and reports are observations *)

Ltac sim_fields H :=
  let Hp := fresh "Hp" in let Hc := fresh "Hc" in let Hg := fresh "Hg" in
  destruct H as (Hp & Hc & Hg).

Ltac sim_first :=
  match goal with
  | Hp : pond ?a = pond ?b, Hc : cellIdCounter ?a = cellIdCounter ?b,
    Hg : prngState ?a = prngState ?b |- _ =>
      rewrite <- ?Hp, <- ?Hc, <- ?Hg
  end.

Ltac world_cbn :=
  cbn [pond cellIdCounter prngState poke set_pond set_prngState
       set_statCounters set_cellIdCounter mbind outcome_bind].

Ltac sim_solve :=
  red; world_cbn; sim_first; repeat split; reflexivity.

Ltac sim_step :=
  match goal with
  | |- context [getRandom ?s] => destruct (getRandom s)
  | |- context [mbind _ ?m] =>
      lazymatch m with
      | context [mbind _ _] => fail
      | context [if _ then _ else _] => fail
      | _ => destruct m; cbn [mbind outcome_bind];
             try (let Hx := fresh in intros Hx; discriminate Hx)
      end
  | |- context [if ?b then _ else _] => destruct b
  | |- context [let '(_, _) := ?p in _] => destruct p
  end.

Ltac sim_run := world_cbn; sim_first; repeat (sim_step; world_cbn; sim_first).

Lemma fetch_mutate_sim (w1 w2 w1' : World) (v v' : VM) (inst : Z) :
  same_simulation w1 w2 →
  fetch_mutate w1 v = Done (inst, w1', v') →
  ∃ w2', fetch_mutate w2 v = Done (inst, w2', v') ∧ same_simulation w1' w2'.
Proof.
  intros H. sim_fields H. unfold fetch_mutate, draw. sim_run;
    intros [= <- <- <-]; (eexists; split; [reflexivity|]); sim_solve.
Qed.

Lemma dispatch_sim (x y inst : Z) (w1 w2 w1' : World) (v v' : VM) (c : bool) :
  0 ≤ inst < 16 →
  same_simulation w1 w2 →
  dispatch x y inst w1 v = Done (w1', v', c) →
  ∃ w2', dispatch x y inst w2 v = Done (w2', v', c) ∧ same_simulation w1' w2'.
Proof.
  intros Hi H. sim_fields H.
  nibble inst Hi; cbn [dispatch]; unfold do_kill, do_share, accessAllowed, draw;
    sim_run; intros [= <- <- <-]; (eexists; split; [reflexivity|]); sim_solve.
Qed.

Lemma execute_sim (x y inst : Z) (w1 w2 w1' : World) (v v' : VM) (c : bool) :
  0 ≤ inst < 16 → stats_ok w2 →
  same_simulation w1 w2 →
  execute x y inst w1 v = Done (w1', v', c) →
  ∃ w2', execute x y inst w2 v = Done (w2', v', c) ∧ same_simulation w1' w2'.
Proof.
  intros Hi Hs2 H. unfold execute. destruct (nz (falseLoopDepth v)).
  - destruct (inst =? 9); [|destruct (inst =? 10)]; intros [= <- <- <-];
      by eexists.
  - destruct (count_instruction inst w1) as [u1| |] eqn:E1;
      cbn [mbind outcome_bind]; try discriminate.
    destruct (count_instruction_Done inst w2 Hi Hs2)
      as (u2 & -> & Hp2 & Hc2 & Hg2 & _).
    cbn [mbind outcome_bind]. apply dispatch_sim; [done|].
    unfold count_instruction in E1. inv_bind E1. injection E1 as <-.
    sim_fields H. red. rewrite Hp2, Hc2, Hg2. by world_cbn.
Qed.

Lemma advance_sim (x y : Z) (w1 w2 : World) (v : VM) :
  same_simulation w1 w2 → advance x y w1 v = advance x y w2 v.
Proof. intros H. sim_fields H. unfold advance. by sim_first. Qed.

Lemma step_sim (x y : Z) (w1 w2 w1' : World) (v v' : VM) :
  stats_ok w2 →
  same_simulation w1 w2 →
  step x y w1 v = Done (w1', v') →
  ∃ w2', step x y w2 v = Done (w2', v') ∧ same_simulation w1' w2'.
Proof.
  intros Hs2 H. unfold step.
  destruct (fetch_mutate w1 v) as [[[inst u1] t]| |] eqn:Ef;
    cbn [mbind outcome_bind]; try discriminate.
  destruct (fetch_mutate_sim _ _ _ _ _ _ H Ef) as (u2 & Ef2 & Hu).
  destruct (fetch_mutate_inv _ _ _ _ _ Ef) as (Hi & _).
  destruct (fetch_mutate_inv _ _ _ _ _ Ef2) as (_ & _ & _ & Hst & _).
  rewrite Ef2. cbn [mbind outcome_bind].
  set (f := fun c : Cell => set_energy (u64 (energy c - 1)) c).
  assert (Hu' : same_simulation (poke f (x, y) u1) (poke f (x, y) u2))
    by (sim_fields Hu; sim_solve).
  destruct (execute x y inst (poke f (x, y) u1) t) as [[[r1 t'] c]| |] eqn:Ee;
    cbn [mbind outcome_bind]; try discriminate.
  assert (Hs2' : stats_ok (poke f (x, y) u2))
    by (red; rewrite statCounters_poke, Hst; exact Hs2).
  destruct (execute_sim _ _ _ _ _ _ _ _ _ Hi Hs2' Hu' Ee) as (r2 & -> & Hr).
  cbn [mbind outcome_bind]. destruct c.
  - intros [= <- <-]. by exists r2.
  - rewrite <- (advance_sim x y r1 r2 t' Hr).
    destruct (advance x y r1 t'); cbn [mbind outcome_bind]; try discriminate.
    intros [= <- <-]. by exists r2.
Qed.

Lemma exec_loop_sim (fuel : nat) (x y : Z) (w1 w2 w1' : World) (v v' : VM)
  (n : nat) :
  world_ok w2 → vm_ok v →
  same_simulation w1 w2 →
  exec_loop fuel x y w1 v = Done (w1', v', n) →
  ∃ w2', exec_loop fuel x y w2 v = Done (w2', v', n) ∧
         same_simulation w1' w2'.
Proof.
  revert w1 w2 w1' v v' n.
  induction fuel as [|fuel IH]; intros w1 w2 w1' v v' n Hw2 Hv H;
    cbn [exec_loop];
    (replace (running x y w2 v) with (running x y w1 v)
      by (unfold running; by rewrite (proj1 H)));
    destruct (running x y w1 v); try discriminate.
  - intros [= <- <- <-]. by exists w2.
  - destruct (step x y w1 v) as [[u1 t]| |] eqn:Es; cbn [mbind outcome_bind];
      try discriminate.
    destruct (step_sim _ _ _ _ _ _ _ (proj2 Hw2) H Es) as (u2 & Es2 & Hu).
    destruct (step_Done x y w2 v Hw2 Hv) as (u2' & t' & Es2' & Hwu & Hvt).
    rewrite Es2 in Es2'. injection Es2' as <- <-.
    rewrite Es2. cbn [mbind outcome_bind].
    destruct (exec_loop fuel x y u1 t) as [[[r1 t1] k]| |] eqn:El;
      cbn [mbind outcome_bind]; try discriminate.
    destruct (IH _ _ _ _ _ _ Hwu Hvt Hu El) as (r2 & -> & Hr).
    cbn [mbind outcome_bind]. intros [= <- <- <-]. by exists r2.
  - intros [= <- <- <-]. by exists w2.
Qed.

Lemma fill_random_sim (n : nat) (i : Z) (p : cellptr) (w1 w2 w1' : World) :
  same_simulation w1 w2 →
  fill_random n i p w1 = Done w1' →
  ∃ w2', fill_random n i p w2 = Done w2' ∧ same_simulation w1' w2'.
Proof.
  revert i w1 w2. induction n as [|n IH]; intros i w1 w2 H; cbn [fill_random].
  - intros [= <-]. by exists w2.
  - sim_fields H. unfold draw. sim_first.
    destruct (getRandom (prngState w1)) as [r st]. world_cbn. sim_first.
    destruct (wr _ _ _); cbn [mbind outcome_bind]; try discriminate.
    apply IH. sim_solve.
Qed.

Lemma copy_words_sim (n : nat) (i : Z) (src : list Z) (p : cellptr)
  (w1 w2 w1' : World) :
  same_simulation w1 w2 →
  copy_words n i src p w1 = Done w1' →
  ∃ w2', copy_words n i src p w2 = Done w2' ∧ same_simulation w1' w2'.
Proof.
  revert i w1 w2. induction n as [|n IH]; intros i w1 w2 H; cbn [copy_words].
  - intros [= <-]. by exists w2.
  - sim_fields H. sim_first.
    destruct (rd _ _); cbn [mbind outcome_bind]; try discriminate.
    destruct (wr _ _ _); cbn [mbind outcome_bind]; try discriminate.
    apply IH. sim_solve.
Qed.

Lemma seed_sim (w1 w2 w1' : World) :
  same_simulation w1 w2 →
  seed w1 = Done w1' →
  ∃ w2', seed w2 = Done w2' ∧ same_simulation w1' w2'.
Proof.
  intros H. sim_fields H. unfold seed, draw. world_cbn. sim_first.
  destruct (getRandom (prngState w1)) as [r1 st1]. world_cbn.
  destruct (getRandom st1) as [r2 st2]. world_cbn.
  destruct (getRandom st2) as [r3 st3]. world_cbn. sim_first.
  match goal with
  | |- fill_random ?n 0 ?p ?W1 ≫= _ = _ → ∃ _, fill_random _ _ _ ?W2 ≫= _ = _ ∧ _ =>
      destruct (fill_random n 0 p W1) as [u1| |] eqn:Ef;
        cbn [mbind outcome_bind]; try discriminate;
      destruct (fill_random_sim n 0 p W1 W2 u1 ltac:(sim_solve) Ef)
        as (u2 & -> & Hu)
  end.
  cbn [mbind outcome_bind]. intros [= <-]. eexists. split; [reflexivity|].
  sim_fields Hu. sim_solve.
Qed.

Lemma accessAllowed_sim (c2 : cellptr) (g sense : Z) (w1 w2 w1' : World)
  (b : bool) :
  same_simulation w1 w2 →
  accessAllowed c2 g sense w1 = Done (b, w1') →
  ∃ w2', accessAllowed c2 g sense w2 = Done (b, w2') ∧
         same_simulation w1' w2'.
Proof.
  intros H. sim_fields H. unfold accessAllowed, draw. sim_first.
  destruct (getRandom (prngState w1)) as [r st].
  destruct (rd (genome _) 0); cbn [mbind outcome_bind]; try discriminate.
  destruct (rd BITS_IN_FOURBIT_WORD _); cbn [mbind outcome_bind];
    try discriminate.
  intros [= <- <-]. eexists. split; [reflexivity|]. sim_solve.
Qed.

Lemma commit_sim (x y : Z) (w1 w2 w1' : World) (v : VM) :
  same_simulation w1 w2 →
  commit x y w1 v = Done w1' →
  ∃ w2', commit x y w2 v = Done w2' ∧ same_simulation w1' w2'.
Proof.
  intros H. unfold commit.
  destruct (rd (outputBuf v) 0); cbn [mbind outcome_bind]; try discriminate.
  destruct (negb _); [|intros [= <-]; by exists w2].
  rewrite <- (proj1 H).
  destruct (nz _); [|intros [= <-]; by exists w2].
  destruct (accessAllowed _ _ 0 w1) as [[b u1]| |] eqn:Ea;
    cbn [mbind outcome_bind]; try discriminate.
  destruct (accessAllowed_sim _ _ _ _ _ _ _ H Ea) as (u2 & -> & Hu).
  cbn [mbind outcome_bind].
  destruct b; [|intros [= <-]; by exists u2].
  apply copy_words_sim. sim_fields Hu.
  repeat match goal with
         | |- context [if ?b then _ else _] => destruct b
         end; sim_solve.
Qed.

Lemma same_simulation_sym (w1 w2 : World) :
  same_simulation w1 w2 → same_simulation w2 w1.
Proof. intros (? & ? & ?). by split. Qed.

Lemma same_simulation_trans (w1 w2 w3 : World) :
  same_simulation w1 w2 → same_simulation w2 w3 → same_simulation w1 w3.
Proof. intros (? & ? & ?) (? & ? & ?). repeat split; congruence. Qed.

Lemma report_if_due (threadNo clock : Z) (w : World) :
  world_ok w →
  ∃ a, (if (threadNo =? 0) && negb (nz (clock mod REPORT_FREQUENCY))
        then doReport clock w else Done w) = Done a ∧
       world_ok a ∧ same_simulation w a.
Proof.
  intros Hw. destruct (_ && _); [|by exists w].
  destruct (doReport_Done clock w (proj2 Hw))
    as (row & a & _ & -> & Hp & Hc & Hg & Hst & _).
  exists a. split; [done|]. split; [|by split].
  split; [by rewrite Hp; apply Hw|]. red. by rewrite Hst.
Qed.

Lemma tick_sim (fuel : nat) (t1 t2 clock : Z) (w1 w2 : World) (v : VM) :
  world_ok w1 → world_ok w2 →
  length (outputBuf v) = Z.to_nat POND_DEPTH_SYSWORDS →
  length (loopStack_wordPtr v) = Z.to_nat POND_DEPTH →
  length (loopStack_shiftPtr v) = Z.to_nat POND_DEPTH →
  same_simulation w1 w2 →
  (tick fuel t1 clock w1 v = Timeout ∧ tick fuel t2 clock w2 v = Timeout) ∨
  ∃ w1' w2' v',
    tick fuel t1 clock w1 v = Done (u64 (clock + 1), w1', v') ∧
    tick fuel t2 clock w2 v = Done (u64 (clock + 1), w2', v') ∧
    world_ok w1' ∧ world_ok w2' ∧ vm_ok v' ∧ same_simulation w1' w2'.
Proof.
  intros Hw1 Hw2 Hb Hsw Hss H. unfold tick.
  destruct (report_if_due t1 (u64 (clock + 1)) w1 Hw1) as (a1 & -> & Ha1 & S1).
  destruct (report_if_due t2 (u64 (clock + 1)) w2 Hw2) as (a2 & -> & Ha2 & S2).
  cbn [mbind outcome_bind].
  assert (Ha : same_simulation a1 a2).
  { apply (same_simulation_trans _ w1); [by apply same_simulation_sym|].
    by apply (same_simulation_trans _ w2). }
  clear S1 S2 H Hw1 Hw2.
  assert (H2 : ∃ b1 b2,
    (if negb (nz (u64 (clock + 1) mod INFLOW_FREQUENCY))
     then seed a1 else Done a1) = Done b1 ∧
    (if negb (nz (u64 (clock + 1) mod INFLOW_FREQUENCY))
     then seed a2 else Done a2) = Done b2 ∧
    world_ok b1 ∧ world_ok b2 ∧ same_simulation b1 b2).
  { destruct (negb _); [|by exists a1, a2].
    destruct (seed_Done_ok a1 Ha1) as (b1 & E1 & Hb1).
    destruct (seed_Done_ok a2 Ha2) as (b2 & E2 & Hb2).
    destruct (seed_sim _ _ _ Ha E1) as (b2' & E2' & Hs).
    rewrite E2 in E2'. injection E2' as <-. by exists b1, b2. }
  destruct H2 as (b1 & b2 & -> & -> & Hb1 & Hb2 & Hs).
  cbn [mbind outcome_bind]. clear Ha Ha1 Ha2.
  unfold draw. rewrite <- (proj2 (proj2 Hs)).
  destruct (getRandom (prngState b1)) as [i st].
  set (x := i mod POND_SIZE_X).
  set (y := Z.shiftr (i / POND_SIZE_X) 1 mod POND_SIZE_Y).
  set (c1 := set_prngState st b1). set (c2 := set_prngState st b2).
  assert (Hc : same_simulation c1 c2) by (subst c1 c2; sim_fields Hs; sim_solve).
  assert (Hc1 : world_ok c1) by exact Hb1.
  assert (Hc2 : world_ok c2) by exact Hb2.
  replace (vm_reset x y c2 v) with (vm_reset x y c1 v)
    by (unfold vm_reset; by rewrite (proj1 Hc)).
  destruct (vm_reset_Done x y c1 v (proj1 Hc1) Hb Hsw Hss) as (v0 & -> & Hv0 & _).
  cbn [mbind outcome_bind].
  set (d1 := set_statCounters _ c1). set (d2 := set_statCounters _ c2).
  assert (Hd : same_simulation d1 d2) by (subst d1 d2; sim_fields Hc; sim_solve).
  assert (Hd1 : world_ok d1) by (split; [apply Hc1|exact (proj2 Hc1)]).
  assert (Hd2 : world_ok d2) by (split; [apply Hc2|exact (proj2 Hc2)]).
  destruct (exec_loop_sound fuel x y d1 v0 Hd1 Hv0)
    as [T1|(e1 & v1 & k & L1 & He1 & Hv1 & _)].
  - left. rewrite T1. split; [done|].
    destruct (exec_loop_sound fuel x y d2 v0 Hd2 Hv0)
      as [->|(e2 & v2 & k & L2 & _)]; [done|].
    destruct (exec_loop_sim _ _ _ _ _ _ _ _ _ Hd1 Hv0
                (same_simulation_sym _ _ Hd) L2) as (e1 & L1 & _).
    congruence.
  - right. destruct (exec_loop_sim _ _ _ _ _ _ _ _ _ Hd2 Hv0 Hd L1)
      as (e2 & L2 & He).
    assert (He2 : world_ok e2).
    { destruct (exec_loop_sound fuel x y d2 v0 Hd2 Hv0)
        as [T|(? & ? & ? & L & Hx & _)]; congruence. }
    rewrite L1, L2. cbn [mbind outcome_bind].
    destruct (commit_Done_ok x y e1 v1 He1 (ok_outputBuf _ Hv1)) as (f1 & C1 & Hf1).
    destruct (commit_Done_ok x y e2 v1 He2 (ok_outputBuf _ Hv1)) as (f2 & C2 & Hf2).
    destruct (commit_sim _ _ _ _ _ _ He C1) as (f2' & C2' & Hf).
    rewrite C2 in C2'. injection C2' as <-.
    rewrite C1, C2. cbn [mbind outcome_bind]. by exists f1, f2, v1.
Qed.

(** X14.  Statistics and reports are pure observation.  Two runs of the
    main loop that start from the same pond, id counter and generator
    state go through the same ponds, id counters, generator states and
    machine states, however their statistics counters and their output so
    far differ, and whether or not the thread is the one that prints the
    reports (thread 0): nothing the program counts or prints feeds back
    into the simulation. *)
Theorem reports_do_not_perturb (ticks fuel : nat) (t1 t2 clock : Z)
  (w1 w2 : World) (v : VM) :
  world_ok w1 → world_ok w2 →
  length (outputBuf v) = Z.to_nat POND_DEPTH_SYSWORDS →
  length (loopStack_wordPtr v) = Z.to_nat POND_DEPTH →
  length (loopStack_shiftPtr v) = Z.to_nat POND_DEPTH →
  same_simulation w1 w2 →
  (run ticks fuel t1 clock w1 v = Timeout ∧
   run ticks fuel t2 clock w2 v = Timeout) ∨
  ∃ c' w1' w2' v',
    run ticks fuel t1 clock w1 v = Done (c', w1', v') ∧
    run ticks fuel t2 clock w2 v = Done (c', w2', v') ∧
    same_simulation w1' w2' ∧
    world_ok w1' ∧ world_ok w2' ∧
    length (outputBuf v') = Z.to_nat POND_DEPTH_SYSWORDS ∧
    length (loopStack_wordPtr v') = Z.to_nat POND_DEPTH ∧
    length (loopStack_shiftPtr v') = Z.to_nat POND_DEPTH.
Proof.
  revert clock w1 w2 v.
  induction ticks as [|ticks IH]; intros clock w1 w2 v Hw1 Hw2 Hb Hsw Hss H;
    cbn [run].
  - right. by exists clock, w1, w2, v.
  - destruct (tick_sim fuel t1 t2 clock w1 w2 v Hw1 Hw2 Hb Hsw Hss H)
      as [[-> ->]|(u1 & u2 & v' & -> & -> & Hu1 & Hu2 & Hv' & Hu)]; [by left|].
    cbn [mbind outcome_bind].
    apply IH; try done; by destruct Hv'.
Qed.

(** ** Seeding *)

Lemma draws_S (n : nat) (st : prng) :
  draws (S n) st =
  let '(r, st1) := getRandom st in
  let '(rs, st2) := draws n st1 in (r :: rs, st2).
Proof. reflexivity. Qed.

Lemma draws_length (n : nat) (st : prng) : length (draws n st).1 = n.
Proof.
  revert st. induction n as [|n IH]; intros st; cbn [draws]; [done|].
  destruct (getRandom st) as [r st1]. specialize (IH st1).
  destruct (draws n st1) as [rs st2]. cbn in *. by rewrite IH.
Qed.

Lemma draws_word (n : nat) (st : prng) : Forall word (draws n st).1.
Proof.
  revert st. induction n as [|n IH]; intros st; cbn [draws]; [done|].
  pose proof (eq_refl : (getRandom st).1 = (getRandom st).1) as Hr.
  unfold getRandom at 2 in Hr.
  destruct (getRandom st) as [r st1]. specialize (IH st1).
  destruct (draws n st1) as [rs st2]. cbn [fst] in *.
  constructor; [|done]. destruct st as [a b]. cbn [fst] in Hr. rewrite Hr.
  apply u64_range.
Qed.

Lemma fill_random_draws (n : nat) (i : Z) (p : cellptr) (w : World) :
  0 ≤ i →
  i + Z.of_nat n ≤ Z.of_nat (length (genome (pond w p))) →
  ∃ w', fill_random n i p w = Done w' ∧
    prngState w' = (draws n (prngState w)).2 ∧
    genome (pond w' p) =
      take (Z.to_nat i) (genome (pond w p)) ++ (draws n (prngState w)).1
      ++ drop (Z.to_nat i + n) (genome (pond w p)).
Proof.
  revert i w. induction n as [|n IH]; intros i w Hi Hn;
    cbn [fill_random draws].
  - exists w. split; [done|]. split; [done|]. cbn [fst app].
    by rewrite Nat.add_0_r, take_drop.
  - unfold draw. destruct (getRandom (prngState w)) as [r st1].
    cbn [pond set_prngState].
    rewrite wr_Done by lia. cbn [mbind outcome_bind].
    set (g := genome (pond w p)) in *.
    set (w1 := poke _ p _).
    assert (Hg1 : genome (pond w1 p) = <[Z.to_nat i := r]> g)
      by (subst w1; by pond_simpl).
    destruct (IH (i + 1) w1) as (w' & -> & Hst & Hg); [lia| |].
    { rewrite Hg1, length_insert. lia. }
    exists w'. split; [done|].
    change (prngState w1) with st1 in Hst, Hg.
    destruct (draws n st1) as [rs st2]. cbn [fst snd] in *.
    split; [done|]. rewrite Hg, Hg1.
    replace (Z.to_nat (i + 1)) with (S (Z.to_nat i)) by lia.
    rewrite (take_S_r _ _ r) by (apply list_lookup_insert_eq; lia).
    rewrite take_insert_ge by lia. rewrite drop_insert_lt by lia.
    replace (S (Z.to_nat i) + n)%nat with (Z.to_nat i + S n)%nat by lia.
    by rewrite <- app_assoc.
Qed.

(** X15.  Seeding.  The seeding of the main loop calls the generator 67
    times: twice for the coordinates, once for the energy and once for
    each of the 64 words of the genome.  The cell it picks lies in the
    pond; it gets the id counter as id and lineage, parent 0, generation
    0, between 600 and 1599 units of energy on top of what it had (modulo
    2^64) and the 64 drawn words as its genome.  The id counter advances
    by one, and no other cell and no statistics counter changes. *)
Theorem seed_spec (w : World) :
  pond_ok (pond w) →
  ∃ w' rx ry re g,
    draws (3 + Z.to_nat POND_DEPTH_SYSWORDS) (prngState w)
    = (rx :: ry :: re :: g, prngState w') ∧
    seed w = Done w' ∧
    let p := (rx mod POND_SIZE_X, ry mod POND_SIZE_Y) in
    let inflow := INFLOW_RATE_BASE + re mod INFLOW_RATE_VARIATION in
    in_pond p.1 p.2 ∧
    600 ≤ inflow < 1600 ∧
    pond w' p = mkCell (cellIdCounter w) 0 (cellIdCounter w) 0
                  (u64 (energy (pond w p) + inflow)) g ∧
    length g = 64%nat ∧ Forall word g ∧
    (∀ q, q ≠ p → pond w' q = pond w q) ∧
    cellIdCounter w' = u64 (cellIdCounter w + 1) ∧
    statCounters w' = statCounters w.
Proof.
  intros Hp. unfold seed, draw.
  change (3 + Z.to_nat POND_DEPTH_SYSWORDS)%nat
    with (S (S (S (Z.to_nat POND_DEPTH_SYSWORDS)))).
  rewrite draws_S.
  destruct (getRandom (prngState w)) as [rx st1]. cbn [prngState set_prngState].
  rewrite draws_S.
  destruct (getRandom st1) as [ry st2]. cbn [prngState set_prngState].
  set (p := (rx mod POND_SIZE_X, ry mod POND_SIZE_Y)).
  rewrite !prngState_poke. cbn [prngState cellIdCounter set_prngState].
  rewrite draws_S.
  destruct (getRandom st2) as [re st3].
  pose proof (draws_length (Z.to_nat POND_DEPTH_SYSWORDS) st3) as Hlen.
  pose proof (draws_word (Z.to_nat POND_DEPTH_SYSWORDS) st3) as Hword.
  match goal with
  | |- context [fill_random ?n 0 p ?W] =>
      set (w4 := W);
      assert (Hg4 : genome (pond w4 p) = genome (pond w p))
        by (subst w4; by seed_simpl);
      destruct (fill_random_Done n 0 p w4) as (w5 & Hf & Hq & Hpp & _ & Hc & Hs);
        [lia|rewrite Hg4, (Hp p); lia|];
      destruct (fill_random_draws n 0 p w4) as (w5' & Hf' & Hst & Hg);
        [lia|rewrite Hg4, (Hp p); lia|]
  end.
  rewrite Hf in Hf'. injection Hf' as <-. rewrite Hf.
  cbn [mbind outcome_bind].
  change (prngState w4) with st3 in Hst, Hg.
  rewrite Hg4 in Hg. change (Z.to_nat 0) with 0%nat in Hg.
  rewrite Nat.add_0_l, drop_ge, app_nil_r in Hg by (rewrite (Hp p); lia).
  cbn [take app] in Hg.
  destruct (draws (Z.to_nat POND_DEPTH_SYSWORDS) st3) as [g st4].
  cbn [fst snd] in *.
  exists (set_cellIdCounter (u64 (cellIdCounter w5 + 1)) w5), rx, ry, re, g.
  split; [by rewrite <- Hst|]. split; [done|]. cbn zeta. fold p.
  split.
  { subst p. cbn [fst snd]. unfold in_pond, POND_SIZE_X, POND_SIZE_Y. lia. }
  split; [unfold INFLOW_RATE_BASE, INFLOW_RATE_VARIATION; lia|].
  cbn [pond cellIdCounter statCounters set_cellIdCounter].
  split.
  { rewrite Hpp, Hg. subst w4. seed_simpl. unfold set_genome.
    cbn [ID parentID lineage generation energy set_energy set_generation
         set_lineage set_parentID set_ID].
    do 2 f_equal. rewrite (u64_small (_ + _ mod _)); [done|].
    red. unfold INFLOW_RATE_BASE, INFLOW_RATE_VARIATION. lia. }
  split; [by rewrite Hlen, depth_syswords|]. split; [done|].
  split; [|split].
  - intros q Hne. rewrite Hq by done. subst w4. by seed_simpl.
  - rewrite Hc. subst w4. by seed_simpl.
  - rewrite Hs. subst w4. by seed_simpl.
Qed.

(** ** Loops *)

(** X16.  LOOP and REP pair up.  A LOOP executed with a nonzero register
    and room on the loop stack pushes its own position; a REP executed
    with a nonzero register on that stack, however much later, pops the
    entry, puts the cursor back on the LOOP itself with the genome word
    there reloaded, and skips the cursor advance, so the LOOP is the next
    instruction executed; the stack pointer is back where it was before
    the LOOP. *)
Theorem loop_rep_round_trip (x y : Z) (w w' : World) (v v2 : VM) :
  vm_ok v → pond_ok (pond w') →
  reg v ≠ 0 → loopStackPtr v < POND_DEPTH →
  reg v2 ≠ 0 →
  ∃ v1,
    dispatch x y 9 w v = Done (w, v1, false) ∧
    loopStackPtr v1 = loopStackPtr v + 1 ∧
    (loopStack_wordPtr v2 = loopStack_wordPtr v1 →
     loopStack_shiftPtr v2 = loopStack_shiftPtr v1 →
     loopStackPtr v2 = loopStackPtr v1 →
     ∃ v3,
       dispatch x y 10 w' v2 = Done (w', v3, true) ∧
       wordPtr v3 = wordPtr v ∧ shiftPtr v3 = shiftPtr v ∧
       genome (pond w' (x, y)) !! Z.to_nat (wordPtr v) = Some (currentWord v3) ∧
       loopStackPtr v3 = loopStackPtr v ∧
       reg v3 = reg v2 ∧ facing v3 = facing v2 ∧ outputBuf v3 = outputBuf v2 ∧
       ptr_wordPtr v3 = ptr_wordPtr v2 ∧ ptr_shiftPtr v3 = ptr_shiftPtr v2).
Proof.
  intros Hv Hp Hr Hlt Hr2.
  pose proof (ok_depth _ Hv) as Hd. pose proof (ok_cursor _ Hv) as Hcur.
  assert (Hu : u64 (loopStackPtr v + 1) = loopStackPtr v + 1)
    by (apply u64_small; red; unfold POND_DEPTH in *; lia).
  assert (Hnz : ∀ r, r ≠ 0 → nz r = true)
    by (intros r Hne; unfold nz; by destruct (Z.eqb_spec r 0)).
  cbn [dispatch]. rewrite (Hnz _ Hr).
  destruct (Z.leb_spec POND_DEPTH (loopStackPtr v)) as [G|_]; [lia|].
  rewrite !wr_Done
    by (rewrite ?(ok_stack_w _ Hv), ?(ok_stack_s _ Hv), depth_stack;
        unfold POND_DEPTH in *; lia).
  cbn [mbind outcome_bind]. eexists. split; [reflexivity|].
  cbn [loopStackPtr loopStack_wordPtr loopStack_shiftPtr set_loopStack].
  split; [done|]. intros Hsw Hss Hsp.
  rewrite Hsp, Hu, Hsw, Hss, (Hnz (loopStackPtr v + 1)) by lia.
  cbn [reg loopStackPtr loopStack_wordPtr loopStack_shiftPtr set_loopStack].
  rewrite (Hnz _ Hr2).
  assert (Hu' : u64 (loopStackPtr v + 1 - 1) = loopStackPtr v)
    by (rewrite Z.add_simpl_r; apply u64_small; red; unfold POND_DEPTH in *; lia).
  rewrite Hu'.
  assert (R1 : rd (<[Z.to_nat (loopStackPtr v) := wordPtr v]> (loopStack_wordPtr v))
                 (loopStackPtr v) = Done (wordPtr v)).
  { unfold rd. destruct (decide _); [|lia].
    rewrite list_lookup_insert_eq; [done|].
    rewrite (ok_stack_w _ Hv), depth_stack. unfold POND_DEPTH in *. lia. }
  assert (R2 : rd (<[Z.to_nat (loopStackPtr v) := shiftPtr v]> (loopStack_shiftPtr v))
                 (loopStackPtr v) = Done (shiftPtr v)).
  { unfold rd. destruct (decide _); [|lia].
    rewrite list_lookup_insert_eq; [done|].
    rewrite (ok_stack_s _ Hv), depth_stack. unfold POND_DEPTH in *. lia. }
  rewrite R1, R2. cbn [mbind outcome_bind].
  destruct (rd_Done (genome (pond w' (x, y))) (wordPtr v)) as (cw & -> & Hcw).
  { by apply (genome_index_ok w' (x, y) _ (shiftPtr v)). }
  cbn [mbind outcome_bind]. eexists. split; [reflexivity|]. by cbn.
Qed.

(** X17.  Skipped instructions.  While the machine skips forward to a
    matching REP ([falseLoopDepth] is not zero), an iteration of the
    execution loop still costs the cell one unit of energy and still
    moves the cursor on, but does nothing else: no other field of any
    cell changes, the instruction is not counted in the statistics, the
    id counter, the output buffer, the data pointer, the facing, the loop
    stack and the stop flag stay as they are, and the register changes
    only if the mutation hits it.  Only a LOOP or a REP changes the skip
    depth, by one. *)
Theorem skipped_instruction (x y : Z) (w : World) (v : VM) :
  world_ok w → vm_ok v → falseLoopDepth v ≠ 0 →
  ∃ w' v',
    step x y w v = Done (w', v') ∧
    pond w' (x, y)
    = set_energy (u64 (energy (pond w (x, y)) - 1)) (pond w (x, y)) ∧
    (∀ q, q ≠ (x, y) → pond w' q = pond w q) ∧
    statCounters w' = statCounters w ∧
    cellIdCounter w' = cellIdCounter w ∧
    (wordPtr v', shiftPtr v') = (bump_cursor (wordPtr v) (shiftPtr v)).1 ∧
    outputBuf v' = outputBuf v ∧
    ptr_wordPtr v' = ptr_wordPtr v ∧ ptr_shiftPtr v' = ptr_shiftPtr v ∧
    facing v' = facing v ∧ stop v' = stop v ∧
    loopStack_wordPtr v' = loopStack_wordPtr v ∧
    loopStack_shiftPtr v' = loopStack_shiftPtr v ∧
    loopStackPtr v' = loopStackPtr v ∧
    (reg v' = reg v ∨
     reg v' = Z.land (getRandom (getRandom (prngState w)).2).1 0xf) ∧
    (falseLoopDepth v' = falseLoopDepth v ∨
     falseLoopDepth v' = u64 (falseLoopDepth v + 1) ∨
     falseLoopDepth v' = u64 (falseLoopDepth v - 1)).
Proof.
  intros Hw Hv Hd.
  assert (Hnz : nz (falseLoopDepth v) = true)
    by (unfold nz; by destruct (Z.eqb_spec (falseLoopDepth v) 0)).
  pose proof (fetch_mutate_cases w v Hv) as Hfm. cbn zeta in Hfm.
  set (f := fun c : Cell => set_energy (u64 (energy c - 1)) c).
  assert (Hstep : ∀ inst st v1,
    fetch_mutate w v = Done (inst, set_prngState st w, v1) →
    falseLoopDepth v1 = falseLoopDepth v →
    wordPtr v1 = wordPtr v → shiftPtr v1 = shiftPtr v →
    vm_ok v1 →
    ∃ d v',
      step x y w v = Done (poke f (x, y) (set_prngState st w), v') ∧
      advance x y (poke f (x, y) (set_prngState st w))
        (set_falseLoopDepth d v1) = Done v' ∧
      (d = falseLoopDepth v ∨ d = u64 (falseLoopDepth v + 1) ∨
       d = u64 (falseLoopDepth v - 1))).
  { intros inst st v1 E Hfd Hwp Hsp Hv1. unfold step. rewrite E.
    cbn [mbind outcome_bind]. fold f. unfold execute. rewrite Hfd, Hnz.
    assert (Hp : pond_ok (pond (poke f (x, y) (set_prngState st w))))
      by (apply pond_ok_poke_len; [apply Hw|done]).
    destruct (inst =? 9); [|destruct (inst =? 10)]; cbn [mbind outcome_bind].
    - destruct (advance_Done x y _ (set_falseLoopDepth (u64 (falseLoopDepth v + 1)) v1)
                  Hp (vm_ok_set_falseLoopDepth _ _ Hv1)) as (v' & Ha & _).
      rewrite Ha. cbn [mbind outcome_bind]. exists (u64 (falseLoopDepth v + 1)), v'.
      split; [done|]. split; [done|]. auto.
    - destruct (advance_Done x y _ (set_falseLoopDepth (u64 (falseLoopDepth v - 1)) v1)
                  Hp (vm_ok_set_falseLoopDepth _ _ Hv1)) as (v' & Ha & _).
      rewrite Ha. cbn [mbind outcome_bind]. exists (u64 (falseLoopDepth v - 1)), v'.
      split; [done|]. split; [done|]. auto.
    - destruct (advance_Done x y (poke f (x, y) (set_prngState st w)) v1 Hp Hv1)
        as (v' & Ha & _).
      rewrite Ha. cbn [mbind outcome_bind]. exists (falseLoopDepth v), v'.
      split; [done|]. split; [|auto].
      replace (set_falseLoopDepth (falseLoopDepth v) v1) with v1; [done|].
      rewrite <- Hfd. by destruct v1. }
  assert (Hfin : ∀ st v1 d v',
    step x y w v = Done (poke f (x, y) (set_prngState st w), v') →
    advance x y (poke f (x, y) (set_prngState st w))
      (set_falseLoopDepth d v1) = Done v' →
    wordPtr v1 = wordPtr v → shiftPtr v1 = shiftPtr v →
    outputBuf v1 = outputBuf v → ptr_wordPtr v1 = ptr_wordPtr v →
    ptr_shiftPtr v1 = ptr_shiftPtr v → facing v1 = facing v →
    stop v1 = stop v → loopStack_wordPtr v1 = loopStack_wordPtr v →
    loopStack_shiftPtr v1 = loopStack_shiftPtr v →
    loopStackPtr v1 = loopStackPtr v →
    ∃ w' v', step x y w v = Done (w', v') ∧
      pond w' (x, y)
      = set_energy (u64 (energy (pond w (x, y)) - 1)) (pond w (x, y)) ∧
      (∀ q, q ≠ (x, y) → pond w' q = pond w q) ∧
      statCounters w' = statCounters w ∧
      cellIdCounter w' = cellIdCounter w ∧
      (wordPtr v', shiftPtr v') = (bump_cursor (wordPtr v) (shiftPtr v)).1 ∧
      outputBuf v' = outputBuf v ∧
      ptr_wordPtr v' = ptr_wordPtr v ∧ ptr_shiftPtr v' = ptr_shiftPtr v ∧
      facing v' = facing v ∧ stop v' = stop v ∧
      loopStack_wordPtr v' = loopStack_wordPtr v ∧
      loopStack_shiftPtr v' = loopStack_shiftPtr v ∧
      loopStackPtr v' = loopStackPtr v ∧
      reg v' = reg v1 ∧ falseLoopDepth v' = d).
  { intros st v1 d v' Hs Ha Hwp Hsp Hob Hpw Hps Hfa Hst Hlw Hls Hlp.
    exists (poke f (x, y) (set_prngState st w)), v'. split; [done|].
    split; [by pond_simpl|]. split; [intros q Hq; by pond_simpl|].
    split; [done|]. split; [done|].
    unfold advance in Ha. cbn [wordPtr shiftPtr set_falseLoopDepth] in Ha.
    rewrite Hwp, Hsp in Ha.
    destruct (bump_cursor (wordPtr v) (shiftPtr v)) as [[wp sp] r].
    cbn [fst]. destruct r; inv_bind Ha; injection Ha as <-; cbn;
      by rewrite ?Hob, ?Hpw, ?Hps, ?Hfa, ?Hst, ?Hlw, ?Hls, ?Hlp. }
  destruct (Z.land (getRandom (prngState w)).1 0xffffffff <? MUTATION_RATE);
    [destruct (nz (Z.land (getRandom (getRandom (prngState w)).2).1 0x80))|].
  - destruct (Hstep _ _ _ Hfm) as (d & v' & Hs & Ha & Hd'); try done.
    destruct (Hfin _ _ _ _ Hs Ha) as (w1 & v1 & H1 & H2); try done.
    exists w1, v1. split; [done|].
    destruct H2 as (? & ? & ? & ? & ? & ? & ? & ? & ? & ? & ? & ? & ? & Hr & Hf).
    repeat (split; [done|]). split; [by left|]. by rewrite Hf.
  - destruct (Hstep _ _ _ Hfm) as (d & v' & Hs & Ha & Hd'); try done.
    { by apply vm_ok_set_reg; [|apply land_0xf_range]. }
    destruct (Hfin _ _ _ _ Hs Ha) as (w1 & v1 & H1 & H2); try done.
    exists w1, v1. split; [done|].
    destruct H2 as (? & ? & ? & ? & ? & ? & ? & ? & ? & ? & ? & ? & ? & Hr & Hf).
    repeat (split; [done|]). split; [by right|]. by rewrite Hf.
  - destruct (Hstep _ _ _ Hfm) as (d & v' & Hs & Ha & Hd'); try done.
    destruct (Hfin _ _ _ _ Hs Ha) as (w1 & v1 & H1 & H2); try done.
    exists w1, v1. split; [done|].
    destruct H2 as (? & ? & ? & ? & ? & ? & ? & ? & ? & ? & ? & ? & ? & Hr & Hf).
    repeat (split; [done|]). split; [by left|]. by rewrite Hf.
Qed.

(** ** The main loop completes *)

Lemma energies_below_ok (B : Z) (w : World) :
  B < 2 ^ 64 → energies_below B w → energies_ok w.
Proof. intros HB H q. specialize (H q). red. lia. Qed.

Lemma energies_below_same (B : Z) (w w' : World) :
  (∀ q, energy (pond w' q) = energy (pond w q)) →
  energies_below B w → energies_below B w'.
Proof. intros Hq H q. rewrite Hq. apply H. Qed.

Lemma energies_below_mono (B B' : Z) (w : World) :
  B ≤ B' → energies_below B w → energies_below B' w.
Proof. intros HB H q. specialize (H q). lia. Qed.

Lemma do_share_below (B x y : Z) (w w' : World) (v : VM) :
  do_share x y w v = Done w' →
  getNeighbor x y (facing v) ≠ (x, y) →
  2 * B < 2 ^ 64 →
  energies_below B w → energies_below B w'.
Proof.
  unfold do_share. set (nb := getNeighbor x y (facing v)). intros H Hne HB Hok.
  destruct (accessAllowed nb (reg v) 1 w) as [[b w1]| |] eqn:Hacc;
    cbn [mbind outcome_bind] in H; try discriminate.
  apply accessAllowed_inv in Hacc. subst w1.
  destruct b; [|by injection H as <-].
  set (w2 := if 2 <? _ then _ else _) in *.
  assert (Hp2 : pond w2 = pond w) by (subst w2; by destruct (2 <? _)).
  pose proof (Hok (x, y)) as Hs. pose proof (Hok nb) as Hn.
  set (total := u64 (energy (pond w2 (x, y)) + energy (pond w2 nb))) in *.
  assert (Ht : total = energy (pond w (x, y)) + energy (pond w nb)).
  { subst total. rewrite Hp2. apply u64_small. red. lia. }
  injection H as <-.
  assert (Hn' : energy (alter (set_energy (total / 2)) nb (pond w2) nb)
                = total / 2) by (by rewrite fn_lookup_alter).
  rewrite Hn'.
  assert (Hu : u64 (total - total / 2) = total - total / 2)
    by (apply u64_small; red; lia).
  intros q. destruct (decide (q = (x, y))) as [->|Hq1].
  - pond_simpl. cbn [energy set_energy]. rewrite Hu. lia.
  - destruct (decide (q = nb)) as [->|Hq2].
    + pond_simpl. cbn [energy set_energy]. lia.
    + pond_simpl. rewrite Hp2. apply Hok.
Qed.

Lemma step_below (B x y : Z) (w w' : World) (v v' : VM) :
  in_pond x y → vm_ok v → 2 * B < 2 ^ 64 →
  energies_below B w →
  energy (pond w (x, y)) ≠ 0 →
  step x y w v = Done (w', v') →
  energies_below B w'.
Proof.
  intros Hxy Hv HB Hok He Hs.
  destruct (fetch_mutate_Done w v Hv)
    as (inst & w1 & v1 & Hfm & Hi & Hp1 & _ & _ & Hr).
  assert (Hfa : facing v1 = facing v).
  { destruct Hr as [->|(r & _ & ->)]; done. }
  pose proof (getNeighbor_ne x y (facing v) Hxy (ok_facing _ Hv)) as Hne.
  rewrite (step_unfold x y inst w w1 v v1 Hfm) in Hs.
  set (w2 := poke _ (x, y) w1) in Hs.
  assert (Hok2 : energies_below B w2).
  { intros q. specialize (Hok q). destruct (decide (q = (x, y))) as [->|Hq].
    - subst w2. pond_simpl. cbn [energy set_energy]. rewrite Hp1.
      rewrite u64_small; [lia|red; lia].
    - subst w2. pond_simpl. by rewrite Hp1. }
  destruct (execute x y inst w2 v1) as [[[w3 v3] c]| |] eqn:Hex;
    cbn [mbind outcome_bind] in Hs; try discriminate.
  assert (w' = w3) as ->.
  { destruct c; [by injection Hs as <- _|]. inv_bind Hs. by injection Hs as <- _. }
  clear Hs. unfold execute in Hex.
  destruct (nz (falseLoopDepth v1)).
  - assert (w3 = w2) as ->; [|done].
    destruct (inst =? 9); [|destruct (inst =? 10)]; by injection Hex as <- _ _.
  - destruct (count_instruction inst w2) as [w2'| |] eqn:Hc;
      cbn [mbind outcome_bind] in Hex; try discriminate.
    apply count_instruction_inv in Hc.
    assert (Hok2' : energies_below B w2') by (intros q; rewrite Hc; apply Hok2).
    destruct (dispatch_world _ _ _ _ _ _ _ _ Hi Hex) as (Hg & Hk & Hsh & Hn).
    destruct (decide (inst = 6 ∨ inst = 12)) as [E|E].
    { destruct (Hg E) as [g ->].
      apply (energies_below_same B w2'); [|done].
      intros q. by apply energy_poke_keep. }
    destruct (decide (inst = 13)) as [E13|E13].
    { destruct (do_kill_energy x y w2' w3 v1 (Hk E13)
                  (energies_below_ok B w2' ltac:(lia) Hok2'))
        as (Hok3 & Hq3 & Hs3).
      intros q. destruct (decide (q = (x, y))) as [->|Hq].
      - specialize (Hok3 (x, y)). specialize (Hok2' (x, y)). red in Hok3. lia.
      - rewrite Hq3 by done. apply Hok2'. }
    destruct (decide (inst = 14)) as [E14|E14].
    { apply (do_share_below B x y w2' w3 v1); try done; [by apply Hsh|].
      by rewrite Hfa. }
    rewrite Hn; [done|lia..].
Qed.

Lemma neighborhood_below (B x y : Z) (w : World) :
  energies_below B w → 0 ≤ neighborhood_energy x y w ≤ 5 * B.
Proof.
  intros H. unfold neighborhood_energy.
  pose proof (H (x, y)). pose proof (H (getNeighbor x y N_LEFT)).
  pose proof (H (getNeighbor x y N_RIGHT)). pose proof (H (getNeighbor x y N_UP)).
  pose proof (H (getNeighbor x y N_DOWN)). lia.
Qed.

Lemma exec_loop_completes (B : Z) (fuel : nat) (x y : Z) (w : World) (v : VM) :
  in_pond x y → 5 * B < 2 ^ 64 →
  world_ok w → vm_ok v → energies_below B w →
  (Z.to_nat (neighborhood_energy x y w) ≤ fuel)%nat →
  ∃ w' v' n,
    exec_loop fuel x y w v = Done (w', v', n) ∧
    world_ok w' ∧ vm_ok v' ∧ energies_below B w'.
Proof.
  intros Hxy HB. revert w v.
  induction fuel as [|fuel IH]; intros w v Hw Hv Hok Hfuel;
    pose proof (neighborhood_below B x y w Hok) as Hnb;
    pose proof (Hok (x, y)) as Hself;
    pose proof (neighborhood_energy_nonneg x y w
                  (energies_below_ok B w ltac:(lia) Hok)) as Hnn;
    cbn [exec_loop]; destruct (running x y w v) eqn:Hrun.
  - exfalso. unfold running, nz in Hrun.
    apply andb_true_iff in Hrun as [Hrun _].
    apply negb_true_iff, Z.eqb_neq in Hrun. lia.
  - by exists w, v, 0%nat.
  - unfold running, nz in Hrun. apply andb_true_iff in Hrun as [He _].
    apply negb_true_iff, Z.eqb_neq in He.
    destruct (step_Done x y w v Hw Hv) as (w1 & v1 & Hs & Hw1 & Hv1).
    destruct (step_neighborhood x y w w1 v v1 Hxy Hv
                (energies_below_ok B w ltac:(lia) Hok) He ltac:(lia) Hs)
      as (_ & Hdec).
    pose proof (step_below B x y w w1 v v1 Hxy Hv ltac:(lia) Hok He Hs) as Hok1.
    rewrite Hs. cbn [mbind outcome_bind].
    destruct (IH w1 v1 Hw1 Hv1 Hok1) as (w' & v' & n & -> & Hrest); [lia|].
    cbn [mbind outcome_bind]. by exists w', v', (S n).
  - by exists w, v, 0%nat.
Qed.

Lemma fill_random_energy (n : nat) (i : Z) (p : cellptr) (w w' : World) :
  fill_random n i p w = Done w' →
  ∀ q, energy (pond w' q) = energy (pond w q).
Proof.
  revert i w. induction n as [|n IH]; intros i w H q; cbn [fill_random] in H.
  - by injection H as <-.
  - unfold draw in H. destruct (getRandom (prngState w)) as [r st].
    cbn [pond set_prngState] in H.
    inv_bind H. rewrite (IH _ _ H q). by rewrite energy_poke_keep.
Qed.

Lemma copy_words_energy (n : nat) (i : Z) (src : list Z) (p : cellptr)
  (w w' : World) :
  copy_words n i src p w = Done w' →
  ∀ q, energy (pond w' q) = energy (pond w q).
Proof.
  revert i w. induction n as [|n IH]; intros i w H q; cbn [copy_words] in H.
  - by injection H as <-.
  - inv_bind H. rewrite (IH _ _ H q). by apply energy_poke_keep.
Qed.

Lemma seed_below (B : Z) (w w' : World) :
  B + 1599 < 2 ^ 64 →
  seed w = Done w' →
  energies_below B w → energies_below (B + 1599) w'.
Proof.
  unfold seed, draw. intros HB H Hok.
  destruct (getRandom (prngState w)) as [r1 st1].
  cbn [prngState set_prngState] in H.
  destruct (getRandom st1) as [r2 st2]. cbn [prngState set_prngState] in H.
  set (p := (r1 mod POND_SIZE_X, r2 mod POND_SIZE_Y)) in H.
  rewrite !prngState_poke in H. cbn [prngState cellIdCounter set_prngState] in H.
  destruct (getRandom st2) as [r3 st3].
  match type of H with
  | context [fill_random ?n 0 p ?W] =>
      set (w4 := W) in H;
      destruct (fill_random n 0 p w4) as [w5| |] eqn:Hf;
        cbn [mbind outcome_bind] in H; try discriminate
  end.
  injection H as <-. intros q. cbn [pond set_cellIdCounter].
  rewrite (fill_random_energy _ _ _ _ _ Hf q). specialize (Hok q).
  destruct (decide (q = p)) as [->|Hq].
  - subst w4. seed_simpl.
    cbn [energy set_energy set_generation set_lineage set_parentID set_ID].
    unfold INFLOW_RATE_BASE, INFLOW_RATE_VARIATION.
    rewrite (u64_small (600 + _)) by (red; lia).
    rewrite u64_small by (red; lia). lia.
  - subst w4. seed_simpl.
    cbn [energy set_energy set_generation set_lineage set_parentID set_ID]. lia.
Qed.

Lemma commit_energy (x y : Z) (w w' : World) (v : VM) :
  commit x y w v = Done w' →
  ∀ q, energy (pond w' q) = energy (pond w q).
Proof.
  unfold commit. set (nb := getNeighbor x y (facing v)). intros H q.
  destruct (rd (outputBuf v) 0); cbn [mbind outcome_bind] in H;
    try discriminate.
  destruct (negb _); [|by injection H as <-].
  destruct (nz _); [|by injection H as <-].
  destruct (accessAllowed nb (reg v) 0 w) as [[b w1]| |] eqn:Hacc;
    cbn [mbind outcome_bind] in H; try discriminate.
  apply accessAllowed_inv in Hacc. subst w1.
  destruct b; [|by injection H as <-].
  set (w2 := if 2 <? _ then _ else _) in *.
  assert (Hp2 : pond w2 = pond w) by (subst w2; by destruct (2 <? _)).
  rewrite (copy_words_energy _ _ _ _ _ _ H q).
  rewrite !energy_poke_keep by done. cbn [pond set_cellIdCounter].
  by rewrite Hp2.
Qed.

Lemma tick_completes (B : Z) (fuel : nat) (threadNo clock : Z) (w : World)
  (v : VM) :
  5 * (B + 1599) < 2 ^ 64 → 5 * (B + 1599) ≤ Z.of_nat fuel →
  world_ok w →
  length (outputBuf v) = Z.to_nat POND_DEPTH_SYSWORDS →
  length (loopStack_wordPtr v) = Z.to_nat POND_DEPTH →
  length (loopStack_shiftPtr v) = Z.to_nat POND_DEPTH →
  energies_below B w →
  ∃ w' v',
    tick fuel threadNo clock w v = Done (u64 (clock + 1), w', v') ∧
    world_ok w' ∧ vm_ok v' ∧ energies_below (B + 1599) w'.
Proof.
  intros HB Hfuel Hw Hb Hsw Hss Hok. unfold tick.
  assert (H1 : ∃ w1, (if (threadNo =? 0) && negb (nz (u64 (clock + 1) mod REPORT_FREQUENCY))
                      then doReport (u64 (clock + 1)) w else Done w) = Done w1
                     ∧ world_ok w1 ∧ energies_below B w1).
  { destruct (_ && _); [|by eexists].
    destruct (doReport_Done (u64 (clock + 1)) w (proj2 Hw))
      as (row & w1 & _ & -> & Hp & _ & _ & Hst & _).
    eexists. split; [reflexivity|]. split.
    - split; [by rewrite Hp; apply Hw|]. red. by rewrite Hst.
    - intros q. rewrite Hp. apply Hok. }
  destruct H1 as (w1 & -> & Hw1 & Hok1). cbn [mbind outcome_bind].
  assert (H2 : ∃ w2, (if negb (nz (u64 (clock + 1) mod INFLOW_FREQUENCY))
                      then seed w1 else Done w1) = Done w2 ∧ world_ok w2 ∧
                     energies_below (B + 1599) w2).
  { destruct (negb _).
    - destruct (seed_Done_ok w1 Hw1) as (w2 & Hs & Hw2).
      exists w2. split; [done|]. split; [done|].
      apply (seed_below B w1 w2); [lia|done..].
    - exists w1. split; [done|]. split; [done|].
      apply (energies_below_mono B); [lia|done]. }
  destruct H2 as (w2 & -> & Hw2 & Hok2). cbn [mbind outcome_bind].
  unfold draw. destruct (getRandom (prngState w2)) as [i st].
  set (w3 := set_prngState st w2).
  set (x := i mod POND_SIZE_X). set (y := Z.shiftr (i / POND_SIZE_X) 1 mod POND_SIZE_Y).
  assert (Hxy : in_pond x y).
  { subst x y. unfold in_pond, POND_SIZE_X, POND_SIZE_Y. lia. }
  assert (Hw3 : world_ok w3) by exact Hw2.
  destruct (vm_reset_Done x y w3 v (proj1 Hw3) Hb Hsw Hss) as (v0 & -> & Hv0 & _).
  cbn [mbind outcome_bind].
  set (w4 := set_statCounters _ w3).
  assert (Hw4 : world_ok w4) by (split; [apply Hw3|exact (proj2 Hw3)]).
  assert (Hok4 : energies_below (B + 1599) w4) by exact Hok2.
  pose proof (neighborhood_below _ x y w4 Hok4) as Hnb.
  destruct (exec_loop_completes (B + 1599) fuel x y w4 v0 Hxy HB Hw4 Hv0 Hok4)
    as (w5 & v5 & k & -> & Hw5 & Hv5 & Hok5); [lia|].
  cbn [mbind outcome_bind].
  destruct (commit_Done_ok x y w5 v5 Hw5 (ok_outputBuf _ Hv5)) as (w6 & Hcm & Hw6).
  rewrite Hcm. cbn [mbind outcome_bind]. exists w6, v5.
  split; [done|]. split; [done|]. split; [done|].
  apply (energies_below_same _ w5); [|done]. by apply (commit_energy x y w5 w6 v5).
Qed.

(** X18.  The main loop completes.  The execution loop is the only loop
    of the program whose number of iterations is not fixed in advance,
    and it is bounded by the energy within reach of the executing cell;
    seeding raises the energy of a cell by less than 1600, and SHARE and
    KILL never raise a cell above the larger of the energies involved.
    So every iteration of the main loop terminates without a fault: with
    [B] a bound on the energies in the pond, [ticks] iterations complete
    when each execution is allowed [5 * (B + 1599 * ticks)] instructions,
    and no cell then holds more than [B + 1599 * ticks]. *)
Theorem run_completes (B : Z) (ticks fuel : nat) (threadNo clock : Z)
  (w : World) (v : VM) :
  world_ok w →
  length (outputBuf v) = Z.to_nat POND_DEPTH_SYSWORDS →
  length (loopStack_wordPtr v) = Z.to_nat POND_DEPTH →
  length (loopStack_shiftPtr v) = Z.to_nat POND_DEPTH →
  energies_below B w →
  5 * (B + 1599 * Z.of_nat ticks) < 2 ^ 64 →
  5 * (B + 1599 * Z.of_nat ticks) ≤ Z.of_nat fuel →
  ∃ c' w' v',
    run ticks fuel threadNo clock w v = Done (c', w', v') ∧
    world_ok w' ∧
    length (outputBuf v') = Z.to_nat POND_DEPTH_SYSWORDS ∧
    length (loopStack_wordPtr v') = Z.to_nat POND_DEPTH ∧
    length (loopStack_shiftPtr v') = Z.to_nat POND_DEPTH ∧
    energies_below (B + 1599 * Z.of_nat ticks) w'.
Proof.
  revert B clock w v.
  induction ticks as [|ticks IH]; intros B clock w v Hw Hb Hsw Hss Hok HB Hfuel;
    cbn [run].
  - exists clock, w, v. repeat (split; [done|]).
    apply (energies_below_mono B); [lia|done].
  - pose proof (Hok (0, 0)) as H0.
    destruct (tick_completes B fuel threadNo clock w v ltac:(lia) ltac:(lia)
                Hw Hb Hsw Hss Hok) as (w1 & v1 & -> & Hw1 & Hv1 & Hok1).
    cbn [mbind outcome_bind].
    destruct (IH (B + 1599) (u64 (clock + 1)) w1 v1 Hw1 (ok_outputBuf _ Hv1)
                (ok_stack_w _ Hv1) (ok_stack_s _ Hv1) Hok1 ltac:(lia)
                ltac:(lia))
      as (c' & w' & v' & -> & Hw' & ? & ? & ? & Hok').
    exists c', w', v'. repeat (split; [done|]).
    apply (energies_below_mono (B + 1599 + 1599 * Z.of_nat ticks)); [lia|done].
Qed.

(** ** The further properties at the scenarios *)

Lemma energies_insert (p : cellptr) (c : Cell) (f : Pond) :
  word (energy c) → (∀ q, word (energy (f q))) →
  ∀ q, word (energy ((<[p := c]> f) q)).
Proof.
  intros Hc Hf q. destruct (decide (p = q)) as [<-|Hne].
  - by rewrite fn_lookup_insert.
  - by rewrite fn_lookup_insert_ne.
Qed.

Lemma energies_ok_sharing : energies_ok sharing_world.
Proof.
  unfold energies_ok, sharing_world. cbn [pond].
  repeat (apply energies_insert; [by vm_compute|]).
  intros _. by vm_compute.
Qed.

Lemma getNeighbor_torus_witness :
  in_pond 0 599 ∧
  getNeighbor 0 599 N_LEFT = (799, 599) ∧
  getNeighbor 0 599 N_DOWN = (0, 0).
Proof.
  assert (H : in_pond 0 599) by (vm_compute; repeat split; congruence).
  split; [exact H|].
  destruct (getNeighbor_torus 0 599 N_LEFT H) as (_ & _ & _ & Hl & _ & _ & Hd).
  rewrite Hl, Hd. split; reflexivity.
Defined.

Lemma getNeighbor_opposite_witness :
  in_pond 0 599 ∧
  getNeighbor (getNeighbor 0 599 N_LEFT).1 (getNeighbor 0 599 N_LEFT).2 N_RIGHT
  = (0, 599).
Proof.
  assert (H : in_pond 0 599) by (vm_compute; repeat split; congruence).
  split; [exact H|].
  exact (proj1 (getNeighbor_opposite 0 599 H)).
Defined.

Lemma exec_loop_terminates_witness :
  in_pond 10 20 ∧ world_ok sharing_world ∧ vm_ok full_stack_vm ∧
  energies_ok sharing_world ∧
  neighborhood_energy 10 20 sharing_world < 2 ^ 64 ∧
  (Z.to_nat (neighborhood_energy 10 20 sharing_world) ≤ 11)%nat ∧
  ∃ w' v' n,
    exec_loop 11 10 20 sharing_world full_stack_vm = Done (w', v', n) ∧
    running 10 20 w' v' = false.
Proof.
  assert (H1 : in_pond 10 20) by (vm_compute; repeat split; congruence).
  assert (H2 : neighborhood_energy 10 20 sharing_world < 2 ^ 64)
    by (vm_compute; reflexivity).
  assert (H3 : (Z.to_nat (neighborhood_energy 10 20 sharing_world) ≤ 11)%nat)
    by (vm_compute; lia).
  repeat (split; [first [assumption | exact world_ok_sharing
                        | exact vm_ok_full_stack | exact energies_ok_sharing]|]).
  destruct (exec_loop_terminates 11 10 20 sharing_world full_stack_vm H1
              world_ok_sharing vm_ok_full_stack energies_ok_sharing H2 H3)
    as (w' & v' & n & He & Hr & _).
  by exists w', v', n.
Defined.

Lemma run_stays_in_bounds_witness :
  world_ok lonely_world ∧
  length (outputBuf fresh_vm) = Z.to_nat POND_DEPTH_SYSWORDS ∧
  length (loopStack_wordPtr fresh_vm) = Z.to_nat POND_DEPTH ∧
  length (loopStack_shiftPtr fresh_vm) = Z.to_nat POND_DEPTH ∧
  run 3 5 0 0 lonely_world fresh_vm ≠ Fault.
Proof.
  assert (H1 : length (outputBuf fresh_vm) = Z.to_nat POND_DEPTH_SYSWORDS)
    by reflexivity.
  assert (H2 : length (loopStack_wordPtr fresh_vm) = Z.to_nat POND_DEPTH)
    by reflexivity.
  assert (H3 : length (loopStack_shiftPtr fresh_vm) = Z.to_nat POND_DEPTH)
    by reflexivity.
  repeat (split; [first [assumption | exact world_ok_lonely]|]).
  exact (proj1 (run_stays_in_bounds 3 5 0 0 lonely_world fresh_vm
                  world_ok_lonely H1 H2 H3)).
Defined.

Lemma run_ignores_stale_machine_witness :
  world_ok lonely_world ∧
  length (outputBuf fresh_vm) = Z.to_nat POND_DEPTH_SYSWORDS ∧
  length (loopStack_wordPtr fresh_vm) = Z.to_nat POND_DEPTH ∧
  length (loopStack_shiftPtr fresh_vm) = Z.to_nat POND_DEPTH ∧
  length (outputBuf full_stack_vm) = Z.to_nat POND_DEPTH_SYSWORDS ∧
  length (loopStack_wordPtr full_stack_vm) = Z.to_nat POND_DEPTH ∧
  length (loopStack_shiftPtr full_stack_vm) = Z.to_nat POND_DEPTH ∧
  ((run 2 5 0 0 lonely_world fresh_vm = Timeout ∧
    run 2 5 0 0 lonely_world full_stack_vm = Timeout) ∨
   ∃ c' w' r1 r2,
     run 2 5 0 0 lonely_world fresh_vm = Done (c', w', r1) ∧
     run 2 5 0 0 lonely_world full_stack_vm = Done (c', w', r2)).
Proof.
  assert (H1 : length (outputBuf fresh_vm) = Z.to_nat POND_DEPTH_SYSWORDS)
    by reflexivity.
  assert (H2 : length (loopStack_wordPtr fresh_vm) = Z.to_nat POND_DEPTH)
    by reflexivity.
  assert (H3 : length (loopStack_shiftPtr fresh_vm) = Z.to_nat POND_DEPTH)
    by reflexivity.
  assert (H4 : length (outputBuf full_stack_vm) = Z.to_nat POND_DEPTH_SYSWORDS)
    by reflexivity.
  assert (H5 : length (loopStack_wordPtr full_stack_vm) = Z.to_nat POND_DEPTH)
    by reflexivity.
  assert (H6 : length (loopStack_shiftPtr full_stack_vm) = Z.to_nat POND_DEPTH)
    by reflexivity.
  repeat (split; [first [assumption | exact world_ok_lonely]|]).
  destruct (run_ignores_stale_machine 2 5 0 0 lonely_world fresh_vm
              full_stack_vm world_ok_lonely H1 H2 H3 H4 H5 H6)
    as [Ht|(c' & w' & r1 & r2 & E1 & E2 & _)]; [left; exact Ht|right].
  exists c', w', r1, r2. split; assumption.
Defined.

Lemma pointer_and_register_round_trips_witness :
  codon_pos (ptr_wordPtr fresh_vm) (ptr_shiftPtr fresh_vm) ∧
  0 ≤ reg fresh_vm < 16 ∧
  ('(w1, v1, _) ← dispatch 10 20 2 lonely_world fresh_vm;
   dispatch 10 20 1 w1 v1) = Done (lonely_world, fresh_vm, false).
Proof.
  assert (H1 : codon_pos (ptr_wordPtr fresh_vm) (ptr_shiftPtr fresh_vm))
    by (vm_compute; repeat split; congruence).
  assert (H2 : 0 ≤ reg fresh_vm < 16) by (vm_compute; split; congruence).
  split; [exact H1|]. split; [exact H2|].
  exact (proj1 (proj2 (pointer_and_register_round_trips 10 20 lonely_world
                         fresh_vm H1 H2))).
Defined.

Lemma consecutive_reports_witness :
  stats_ok lonely_world ∧
  ∃ w1 w2,
    doReport 1000 lonely_world = Done w1 ∧ doReport 2000 w1 = Done w2 ∧
    stderr w2 = stderr w1.
Proof.
  assert (H : stats_ok lonely_world) by reflexivity.
  split; [exact H|].
  destruct (consecutive_reports 1000 2000 lonely_world H)
    as (w1 & w2 & E1 & E2 & _ & _ & _ & Herr & _).
  exists w1, w2. split; [exact E1|]. split; [exact E2|exact Herr].
Defined.

Lemma execution_is_local_witness :
  ∃ w1 v1 n w2,
    exec_loop 5 10 20 loopy_world full_stack_vm = Done (w1, v1, n) ∧
    commit 10 20 w1 v1 = Done w2 ∧
    ¬ reachable 10 20 (500, 300) ∧
    pond w2 (500, 300) = pond loopy_world (500, 300).
Proof.
  destruct (exec_loop_sound 5 10 20 loopy_world full_stack_vm world_ok_loopy
              vm_ok_full_stack) as [T|(w1 & v1 & n & He & Hw & Hv & _)].
  { vm_compute in T. discriminate T. }
  destruct (commit_Done_ok 10 20 w1 v1 Hw (ok_outputBuf _ Hv)) as (w2 & Hc & _).
  assert (Hq : ¬ reachable 10 20 (500, 300)).
  { unfold reachable. vm_compute. intros [H|[H|[H|[H|H]]]]; discriminate H. }
  exists w1, v1, n, w2. split; [exact He|]. split; [exact Hc|].
  split; [exact Hq|].
  exact (proj2 (execution_is_local 5 10 20 loopy_world w1 w2 full_stack_vm v1 n
                  He Hc (500, 300) Hq)).
Defined.

Lemma world_ok_initial (seed2 : Z) : world_ok (initial_world seed2).
Proof. split; [exact pond_ok_initial|reflexivity]. Qed.

Lemma ids_ok_initial (seed2 : Z) : ids_ok (initial_world seed2).
Proof.
  split; [split|].
  - by vm_compute.
  - intros q. by vm_compute.
  - intros q. by left.
Qed.

Lemma run_keeps_ids_ok_witness :
  world_ok (initial_world 42) ∧
  length (outputBuf fresh_vm) = Z.to_nat POND_DEPTH_SYSWORDS ∧
  length (loopStack_wordPtr fresh_vm) = Z.to_nat POND_DEPTH ∧
  length (loopStack_shiftPtr fresh_vm) = Z.to_nat POND_DEPTH ∧
  ids_ok (initial_world 42) ∧
  cellIdCounter (initial_world 42) + Z.of_nat 1 * (Z.of_nat 5 + 2) < 2 ^ 64 ∧
  ∃ c' w' v',
    run 1 5 0 0 (initial_world 42) fresh_vm = Done (c', w', v') ∧ ids_ok w'.
Proof.
  assert (H1 : length (outputBuf fresh_vm) = Z.to_nat POND_DEPTH_SYSWORDS)
    by reflexivity.
  assert (H2 : length (loopStack_wordPtr fresh_vm) = Z.to_nat POND_DEPTH)
    by reflexivity.
  assert (H3 : length (loopStack_shiftPtr fresh_vm) = Z.to_nat POND_DEPTH)
    by reflexivity.
  assert (H4 : cellIdCounter (initial_world 42)
               + Z.of_nat 1 * (Z.of_nat 5 + 2) < 2 ^ 64)
    by (vm_compute; reflexivity).
  repeat (split; [first [assumption | exact (world_ok_initial 42)
                        | exact (ids_ok_initial 42)]|]).
  destruct (run 1 5 0 0 (initial_world 42) fresh_vm) as [[[c' w'] v']| |] eqn:Hr;
    [|vm_compute in Hr; discriminate Hr..].
  exists c', w', v'. split; [reflexivity|].
  exact (proj1 (run_keeps_ids_ok 1 5 0 0 c' (initial_world 42) w' fresh_vm v'
                  (world_ok_initial 42) H1 H2 H3 (ids_ok_initial 42) H4 Hr)).
Defined.

Lemma fetch_is_coherent_witness :
  in_pond 10 20 ∧ world_ok loopy_world ∧
  length (outputBuf fresh_vm) = Z.to_nat POND_DEPTH_SYSWORDS ∧
  length (loopStack_wordPtr fresh_vm) = Z.to_nat POND_DEPTH ∧
  length (loopStack_shiftPtr fresh_vm) = Z.to_nat POND_DEPTH ∧
  ∃ v w' v',
    vm_reset 10 20 loopy_world fresh_vm = Done v ∧
    iter_step 3 10 20 loopy_world v = Done (w', v') ∧
    rd (genome (pond w' (10, 20))) (wordPtr v') = Done (currentWord v') ∧
    (wordPtr v', shiftPtr v') ≠ (0, 0).
Proof.
  assert (H0 : in_pond 10 20) by (vm_compute; repeat split; congruence).
  assert (H1 : length (outputBuf fresh_vm) = Z.to_nat POND_DEPTH_SYSWORDS)
    by reflexivity.
  assert (H2 : length (loopStack_wordPtr fresh_vm) = Z.to_nat POND_DEPTH)
    by reflexivity.
  assert (H3 : length (loopStack_shiftPtr fresh_vm) = Z.to_nat POND_DEPTH)
    by reflexivity.
  repeat (split; [first [assumption | exact world_ok_loopy]|]).
  exact (fetch_is_coherent 3 10 20 loopy_world fresh_vm H0 world_ok_loopy
           H1 H2 H3).
Defined.

Lemma reports_do_not_perturb_witness :
  world_ok lonely_world ∧ world_ok counted_world ∧
  length (outputBuf fresh_vm) = Z.to_nat POND_DEPTH_SYSWORDS ∧
  length (loopStack_wordPtr fresh_vm) = Z.to_nat POND_DEPTH ∧
  length (loopStack_shiftPtr fresh_vm) = Z.to_nat POND_DEPTH ∧
  same_simulation lonely_world counted_world ∧
  ((run 2 5 0 0 lonely_world fresh_vm = Timeout ∧
    run 2 5 1 0 counted_world fresh_vm = Timeout) ∨
   ∃ c' w1' w2' v',
     run 2 5 0 0 lonely_world fresh_vm = Done (c', w1', v') ∧
     run 2 5 1 0 counted_world fresh_vm = Done (c', w2', v') ∧
     same_simulation w1' w2').
Proof.
  assert (H0 : world_ok counted_world)
    by (split; [exact (proj1 world_ok_lonely)|reflexivity]).
  assert (H1 : length (outputBuf fresh_vm) = Z.to_nat POND_DEPTH_SYSWORDS)
    by reflexivity.
  assert (H2 : length (loopStack_wordPtr fresh_vm) = Z.to_nat POND_DEPTH)
    by reflexivity.
  assert (H3 : length (loopStack_shiftPtr fresh_vm) = Z.to_nat POND_DEPTH)
    by reflexivity.
  assert (H4 : same_simulation lonely_world counted_world)
    by (split; [reflexivity|split; reflexivity]).
  repeat (split; [first [assumption | exact world_ok_lonely]|]).
  destruct (reports_do_not_perturb 2 5 0 1 0 lonely_world counted_world
              fresh_vm world_ok_lonely H0 H1 H2 H3 H4)
    as [Ht|(c' & w1' & w2' & v' & E1 & E2 & Hs & _)]; [left; exact Ht|right].
  exists c', w1', w2', v'. split; [exact E1|]. split; [exact E2|exact Hs].
Defined.

Lemma seed_spec_witness :
  pond_ok (pond lonely_world) ∧
  ∃ w', seed lonely_world = Done w' ∧
        cellIdCounter w' = u64 (cellIdCounter lonely_world + 1).
Proof.
  pose proof (proj1 world_ok_lonely) as H. split; [exact H|].
  destruct (seed_spec lonely_world H)
    as (w' & rx & ry & re & g & _ & Hs & _ & _ & _ & _ & _ & _ & Hc & _).
  exists w'. split; [exact Hs|exact Hc].
Defined.

Lemma vm_ok_armed : vm_ok armed_vm.
Proof.
  constructor; try reflexivity; try (vm_compute; repeat split; congruence).
  intros i wp sp Hi. cbn [armed_vm loopStackPtr] in Hi. lia.
Qed.

Lemma loop_rep_round_trip_witness :
  vm_ok armed_vm ∧ pond_ok (pond loopy_world) ∧
  reg armed_vm ≠ 0 ∧ loopStackPtr armed_vm < POND_DEPTH ∧
  ∃ v1 v3,
    dispatch 10 20 9 loopy_world armed_vm = Done (loopy_world, v1, false) ∧
    dispatch 10 20 10 loopy_world v1 = Done (loopy_world, v3, true) ∧
    wordPtr v3 = wordPtr armed_vm ∧ shiftPtr v3 = shiftPtr armed_vm.
Proof.
  assert (H1 : reg armed_vm ≠ 0) by (vm_compute; congruence).
  assert (H2 : loopStackPtr armed_vm < POND_DEPTH) by (vm_compute; reflexivity).
  pose proof (proj1 world_ok_loopy) as H3.
  repeat (split; [first [assumption | exact vm_ok_armed]|]).
  destruct (loop_rep_round_trip 10 20 loopy_world loopy_world armed_vm
              (set_loopStack
                 (<[0%nat := 0]> (replicate 1024 0))
                 (<[0%nat := 4]> (replicate 1024 0)) 1 armed_vm)
              vm_ok_armed H3 H1 H2 H1)
    as (v1 & Hd & _ & Hrep).
  vm_compute in Hd. injection Hd as <-.
  destruct (Hrep eq_refl eq_refl eq_refl) as (v3 & Hd3 & Hw & Hs & _).
  eexists. exists v3. split; [vm_compute; reflexivity|].
  split; [exact Hd3|]. split; [exact Hw|exact Hs].
Defined.

Lemma skipped_instruction_witness :
  world_ok loopy_world ∧ vm_ok skipping_vm ∧ falseLoopDepth skipping_vm ≠ 0 ∧
  ∃ w' v',
    step 10 20 loopy_world skipping_vm = Done (w', v') ∧
    statCounters w' = statCounters loopy_world ∧
    outputBuf v' = outputBuf skipping_vm.
Proof.
  assert (H1 : vm_ok skipping_vm)
    by (apply vm_ok_set_falseLoopDepth; exact vm_ok_armed).
  assert (H2 : falseLoopDepth skipping_vm ≠ 0) by (vm_compute; congruence).
  split; [exact world_ok_loopy|]. split; [exact H1|]. split; [exact H2|].
  destruct (skipped_instruction 10 20 loopy_world skipping_vm world_ok_loopy
              H1 H2)
    as (w' & v' & Hs & _ & _ & Hst & _ & _ & Hob & _).
  exists w', v'. split; [exact Hs|]. split; [exact Hst|exact Hob].
Defined.

Lemma run_completes_witness :
  world_ok (initial_world 42) ∧
  length (outputBuf fresh_vm) = Z.to_nat POND_DEPTH_SYSWORDS ∧
  length (loopStack_wordPtr fresh_vm) = Z.to_nat POND_DEPTH ∧
  length (loopStack_shiftPtr fresh_vm) = Z.to_nat POND_DEPTH ∧
  energies_below 0 (initial_world 42) ∧
  5 * (0 + 1599 * Z.of_nat 2) < 2 ^ 64 ∧
  5 * (0 + 1599 * Z.of_nat 2) ≤ Z.of_nat (Z.to_nat 15990) ∧
  ∃ c' w' v',
    run 2 (Z.to_nat 15990) 0 0 (initial_world 42) fresh_vm = Done (c', w', v').
Proof.
  assert (H1 : length (outputBuf fresh_vm) = Z.to_nat POND_DEPTH_SYSWORDS)
    by reflexivity.
  assert (H2 : length (loopStack_wordPtr fresh_vm) = Z.to_nat POND_DEPTH)
    by reflexivity.
  assert (H3 : length (loopStack_shiftPtr fresh_vm) = Z.to_nat POND_DEPTH)
    by reflexivity.
  assert (H4 : energies_below 0 (initial_world 42))
    by (intros q; cbn; lia).
  assert (H5 : 5 * (0 + 1599 * Z.of_nat 2) < 2 ^ 64) by lia.
  assert (H6 : 5 * (0 + 1599 * Z.of_nat 2) ≤ Z.of_nat (Z.to_nat 15990)) by lia.
  repeat (split; [first [assumption | exact (world_ok_initial 42)]|]).
  destruct (run_completes 0 2 (Z.to_nat 15990) 0 0 (initial_world 42) fresh_vm
              (world_ok_initial 42) H1 H2 H3 H4 H5 H6)
    as (c' & w' & v' & Hr & _).
  exists c', w', v'. exact Hr.
Defined.
